(** * LawyerCaseManager: the in-memory store and its lifecycle rules

    A shallow embedding of [server/storage.ts] (class [MemStorage]), of the
    handlers of [server/routes.ts] that touch more than one entity or assign
    a professional, of the order in which that file registers its routes,
    and of client code: the eligibility filters of the hearing form and of
    the hearings page, the period filter of the dashboard's financial
    summary, the previous and next buttons of the calendar page, the totals
    of the payments page and the rankings of the reports page.

    Conventions of the embedding.
    - Entity ids, counters and timestamps are JavaScript numbers that only
      ever hold integers: they are [Z] (exact below 2^53).
    - Money amounts ([doublePrecision]) are IEEE binary64 values: they are
      Rocq's primitive [float], added with [PrimFloat.add].
    - A JavaScript [Map] iterates in insertion order and [Array.find] takes
      the first hit, so a map is an association list in insertion order.
    - A property that may be [undefined] or [null] at run time is an
      [option]; the store applies none of the column defaults of the schema,
      so a column with a default is absent when the insert omits it.
    - [new Date()] is a parameter [now] (milliseconds since the epoch) of
      every operation that reads the clock, and the time zone that [Date]'s
      local-time methods work in is a parameter [tz] of every operation that
      calls one.
    - A hearing's [date] is the ISO date string that the seed data and the
      hearing form supply. *)

From Stdlib Require Import ZArith List Ascii String Bool Lia.
From Stdlib Require Import Sorted Permutation.
From Stdlib Require Import Floats.PrimFloat.
Import ListNotations.

Local Open Scope string_scope.
Local Open Scope list_scope.
Local Open Scope Z_scope.

(** ** JavaScript [Map<number, V>] *)

Module JsMap.

Definition t (V : Type) : Type := list (Z * V).

Definition empty {V : Type} : t V := [].

(** [m.get(k)] *)
Fixpoint get {V : Type} (k : Z) (m : t V) : option V :=
  match m with
  | [] => None
  | (k', v) :: rest => if k' =? k then Some v else get k rest
  end.

(** [m.has(k)] *)
Definition has {V : Type} (k : Z) (m : t V) : bool :=
  match get k m with Some _ => true | None => false end.

(** [m.set(k, v)]: an existing key keeps its place, a new key goes last. *)
Fixpoint set {V : Type} (k : Z) (v : V) (m : t V) : t V :=
  match m with
  | [] => [(k, v)]
  | (k', v') :: rest =>
      if k' =? k then (k, v) :: rest else (k', v') :: set k v rest
  end.

(** The map after [m.delete(k)]; the call itself answers [has k m]. *)
Definition remove {V : Type} (k : Z) (m : t V) : t V :=
  filter (fun e => negb (fst e =? k)) m.

(** [Array.from(m.values())] *)
Definition values {V : Type} (m : t V) : list V := map snd m.

Definition keys {V : Type} (m : t V) : list Z := map fst m.

End JsMap.

(** [{...existing, ...partial}], one property at a time: a property the
    partial object carries replaces the existing one.  A partial object
    carries a property as [Some v]; for a property that may be undefined or
    null, [v] is itself an [option]. *)
Definition spread {A : Type} (existing : A) (partial : option A) : A :=
  match partial with
  | Some v => v
  | None => existing
  end.

(** JavaScript truthiness of a string that may be absent. *)
Definition truthy (s : option string) : bool :=
  match s with
  | Some v => negb (String.eqb v "")
  | None => false
  end.

(** [a === b] on values that may be absent. *)
Definition same_string (a b : option string) : bool :=
  match a, b with
  | Some x, Some y => String.eqb x y
  | None, None => true
  | _, _ => false
  end.

(** ** The entities of [shared/schema.ts] *)

Module User.
Record t : Type := mk
  { id : Z;
    username : string;
    password : string;
    name : string;
    email : string;
    role : option string }.
End User.

Module InsertUser.
Record t : Type := mk
  { username : string;
    password : string;
    name : string;
    email : string;
    role : option string }.
End InsertUser.

Module Professional.
Record t : Type := mk
  { id : Z;
    name : string;
    email : string;
    phone : string;
    type : string;
    specialization : string;
    jurisdictions : list string;
    userId : option Z;
    active : option bool }.
End Professional.

Module InsertProfessional.
Record t : Type := mk
  { name : string;
    email : string;
    phone : string;
    type : string;
    specialization : string;
    jurisdictions : list string;
    userId : option Z;
    active : option bool }.
End InsertProfessional.

Module PartialProfessional.
Record t : Type := mk
  { id : option Z;
    name : option string;
    email : option string;
    phone : option string;
    type : option string;
    specialization : option string;
    jurisdictions : option (list string);
    userId : option (option Z);
    active : option (option bool) }.

Definition none : t := mk None None None None None None None None None.
End PartialProfessional.

Module Jurisdiction.
Record t : Type := mk
  { id : Z;
    name : string;
    state : string;
    city : string;
    address : string }.
End Jurisdiction.

Module InsertJurisdiction.
Record t : Type := mk
  { name : string;
    state : string;
    city : string;
    address : string }.
End InsertJurisdiction.

Module PartialJurisdiction.
Record t : Type := mk
  { id : option Z;
    name : option string;
    state : option string;
    city : option string;
    address : option string }.

Definition none : t := mk None None None None None.
End PartialJurisdiction.

Module Hearing.
Record t : Type := mk
  { id : Z;
    processNumber : string;
    jurisdictionId : Z;
    date : string;
    time : string;
    type : string;
    area : string;
    professionalId : option Z;
    status : option string;
    notes : option string;
    minutesUploaded : bool;
    minutesUrl : option string;
    paymentStatus : option string;
    paymentAmount : option float;
    createdAt : Z }.
End Hearing.

Module InsertHearing.
Record t : Type := mk
  { processNumber : string;
    jurisdictionId : Z;
    date : string;
    time : string;
    type : string;
    area : string;
    professionalId : option Z;
    status : option string;
    notes : option string }.
End InsertHearing.

Module PartialHearing.
Record t : Type := mk
  { id : option Z;
    processNumber : option string;
    jurisdictionId : option Z;
    date : option string;
    time : option string;
    type : option string;
    area : option string;
    professionalId : option (option Z);
    status : option (option string);
    notes : option (option string);
    minutesUploaded : option bool;
    minutesUrl : option (option string);
    paymentStatus : option (option string);
    paymentAmount : option (option float);
    createdAt : option Z }.

Definition none : t :=
  mk None None None None None None None None None None None None None None
     None.
End PartialHearing.

Module Payment.
Record t : Type := mk
  { id : Z;
    hearingId : Z;
    professionalId : Z;
    amount : float;
    status : option string;
    paymentDate : option Z;
    notes : option string;
    createdAt : Z }.
End Payment.

Module InsertPayment.
Record t : Type := mk
  { hearingId : Z;
    professionalId : Z;
    amount : float;
    status : option string;
    paymentDate : option Z;
    notes : option string }.
End InsertPayment.

Module PartialPayment.
Record t : Type := mk
  { id : option Z;
    hearingId : option Z;
    professionalId : option Z;
    amount : option float;
    status : option (option string);
    paymentDate : option (option Z);
    notes : option (option string);
    createdAt : option Z }.

Definition none : t := mk None None None None None None None None.
End PartialPayment.

Module Task.
Record t : Type := mk
  { id : Z;
    title : string;
    description : string;
    status : option string;
    type : string;
    relatedId : option Z;
    dueDate : option Z;
    createdAt : Z }.
End Task.

Module InsertTask.
Record t : Type := mk
  { title : string;
    description : string;
    status : option string;
    type : string;
    relatedId : option Z;
    dueDate : option Z }.
End InsertTask.

Module PartialTask.
Record t : Type := mk
  { id : option Z;
    title : option string;
    description : option string;
    status : option (option string);
    type : option string;
    relatedId : option (option Z);
    dueDate : option (option Z);
    createdAt : option Z }.

Definition none : t := mk None None None None None None None None.
End PartialTask.

(** In-place assignments to a stored hearing, as [createPayment] and
    [updatePayment] perform them. *)
Definition assign_paymentStatus (hearing : Hearing.t) (v : option string)
  : Hearing.t :=
  Hearing.mk (Hearing.id hearing) (Hearing.processNumber hearing)
    (Hearing.jurisdictionId hearing) (Hearing.date hearing)
    (Hearing.time hearing) (Hearing.type hearing) (Hearing.area hearing)
    (Hearing.professionalId hearing) (Hearing.status hearing)
    (Hearing.notes hearing) (Hearing.minutesUploaded hearing)
    (Hearing.minutesUrl hearing) v (Hearing.paymentAmount hearing)
    (Hearing.createdAt hearing).

Definition assign_paymentAmount (hearing : Hearing.t) (v : option float)
  : Hearing.t :=
  Hearing.mk (Hearing.id hearing) (Hearing.processNumber hearing)
    (Hearing.jurisdictionId hearing) (Hearing.date hearing)
    (Hearing.time hearing) (Hearing.type hearing) (Hearing.area hearing)
    (Hearing.professionalId hearing) (Hearing.status hearing)
    (Hearing.notes hearing) (Hearing.minutesUploaded hearing)
    (Hearing.minutesUrl hearing) (Hearing.paymentStatus hearing) v
    (Hearing.createdAt hearing).

(** Reading a property of a partial object: an absent property and one set
    to [undefined] both read as [undefined]. *)
Definition prop {A : Type} (p : option (option A)) : option A :=
  match p with
  | Some v => v
  | None => None
  end.

(** ** [class MemStorage] *)

Module MemStorage.
Record t : Type := mk
  { users : JsMap.t User.t;
    professionals : JsMap.t Professional.t;
    jurisdictions : JsMap.t Jurisdiction.t;
    hearings : JsMap.t Hearing.t;
    payments : JsMap.t Payment.t;
    tasks : JsMap.t Task.t;
    userIdCounter : Z;
    professionalIdCounter : Z;
    jurisdictionIdCounter : Z;
    hearingIdCounter : Z;
    paymentIdCounter : Z;
    taskIdCounter : Z }.

(** The fields as the constructor leaves them before [seedData] runs. *)
Definition empty : t :=
  mk JsMap.empty JsMap.empty JsMap.empty JsMap.empty JsMap.empty JsMap.empty
     1 1 1 1 1 1.

Definition set_users (s : t) (m : JsMap.t User.t) (c : Z) : t :=
  mk m (professionals s) (jurisdictions s) (hearings s) (payments s)
     (tasks s) c (professionalIdCounter s) (jurisdictionIdCounter s)
     (hearingIdCounter s) (paymentIdCounter s) (taskIdCounter s).

Definition set_professionals (s : t) (m : JsMap.t Professional.t) (c : Z)
  : t :=
  mk (users s) m (jurisdictions s) (hearings s) (payments s) (tasks s)
     (userIdCounter s) c (jurisdictionIdCounter s) (hearingIdCounter s)
     (paymentIdCounter s) (taskIdCounter s).

Definition set_jurisdictions (s : t) (m : JsMap.t Jurisdiction.t) (c : Z)
  : t :=
  mk (users s) (professionals s) m (hearings s) (payments s) (tasks s)
     (userIdCounter s) (professionalIdCounter s) c (hearingIdCounter s)
     (paymentIdCounter s) (taskIdCounter s).

Definition set_hearings (s : t) (m : JsMap.t Hearing.t) (c : Z) : t :=
  mk (users s) (professionals s) (jurisdictions s) m (payments s) (tasks s)
     (userIdCounter s) (professionalIdCounter s) (jurisdictionIdCounter s)
     c (paymentIdCounter s) (taskIdCounter s).

Definition set_payments (s : t) (m : JsMap.t Payment.t) (c : Z) : t :=
  mk (users s) (professionals s) (jurisdictions s) (hearings s) m (tasks s)
     (userIdCounter s) (professionalIdCounter s) (jurisdictionIdCounter s)
     (hearingIdCounter s) c (taskIdCounter s).

Definition set_tasks (s : t) (m : JsMap.t Task.t) (c : Z) : t :=
  mk (users s) (professionals s) (jurisdictions s) (hearings s)
     (payments s) m (userIdCounter s) (professionalIdCounter s)
     (jurisdictionIdCounter s) (hearingIdCounter s) (paymentIdCounter s) c.
End MemStorage.

Definition store : Type := MemStorage.t.

(** *** Users *)

Definition getUser (id : Z) (this : store) : option User.t :=
  JsMap.get id (MemStorage.users this).

Definition createUser (user : InsertUser.t) (this : store) : store * User.t :=
  let id := MemStorage.userIdCounter this in
  let newUser :=
    User.mk id (InsertUser.username user) (InsertUser.password user)
      (InsertUser.name user) (InsertUser.email user) (InsertUser.role user) in
  (MemStorage.set_users this (JsMap.set id newUser (MemStorage.users this))
     (id + 1),
   newUser).

(** *** Professionals *)

Definition getProfessional (id : Z) (this : store) : option Professional.t :=
  JsMap.get id (MemStorage.professionals this).

Definition getProfessionals (this : store) : list Professional.t :=
  JsMap.values (MemStorage.professionals this).

Definition createProfessional (professional : InsertProfessional.t)
  (this : store) : store * Professional.t :=
  let id := MemStorage.professionalIdCounter this in
  let newProfessional :=
    Professional.mk id (InsertProfessional.name professional)
      (InsertProfessional.email professional)
      (InsertProfessional.phone professional)
      (InsertProfessional.type professional)
      (InsertProfessional.specialization professional)
      (InsertProfessional.jurisdictions professional)
      (InsertProfessional.userId professional)
      (InsertProfessional.active professional) in
  (MemStorage.set_professionals this
     (JsMap.set id newProfessional (MemStorage.professionals this)) (id + 1),
   newProfessional).

Definition spreadProfessional (existing : Professional.t)
  (professional : PartialProfessional.t) : Professional.t :=
  Professional.mk
    (spread (Professional.id existing) (PartialProfessional.id professional))
    (spread (Professional.name existing)
       (PartialProfessional.name professional))
    (spread (Professional.email existing)
       (PartialProfessional.email professional))
    (spread (Professional.phone existing)
       (PartialProfessional.phone professional))
    (spread (Professional.type existing)
       (PartialProfessional.type professional))
    (spread (Professional.specialization existing)
       (PartialProfessional.specialization professional))
    (spread (Professional.jurisdictions existing)
       (PartialProfessional.jurisdictions professional))
    (spread (Professional.userId existing)
       (PartialProfessional.userId professional))
    (spread (Professional.active existing)
       (PartialProfessional.active professional)).

Definition updateProfessional (id : Z) (professional : PartialProfessional.t)
  (this : store) : store * option Professional.t :=
  match JsMap.get id (MemStorage.professionals this) with
  | None => (this, None)
  | Some existingProfessional =>
      let updatedProfessional :=
        spreadProfessional existingProfessional professional in
      (MemStorage.set_professionals this
         (JsMap.set id updatedProfessional (MemStorage.professionals this))
         (MemStorage.professionalIdCounter this),
       Some updatedProfessional)
  end.

Definition deleteProfessional (id : Z) (this : store) : store * bool :=
  (MemStorage.set_professionals this
     (JsMap.remove id (MemStorage.professionals this))
     (MemStorage.professionalIdCounter this),
   JsMap.has id (MemStorage.professionals this)).

(** *** Jurisdictions *)

Definition getJurisdiction (id : Z) (this : store) : option Jurisdiction.t :=
  JsMap.get id (MemStorage.jurisdictions this).

Definition getJurisdictions (this : store) : list Jurisdiction.t :=
  JsMap.values (MemStorage.jurisdictions this).

Definition createJurisdiction (jurisdiction : InsertJurisdiction.t)
  (this : store) : store * Jurisdiction.t :=
  let id := MemStorage.jurisdictionIdCounter this in
  let newJurisdiction :=
    Jurisdiction.mk id (InsertJurisdiction.name jurisdiction)
      (InsertJurisdiction.state jurisdiction)
      (InsertJurisdiction.city jurisdiction)
      (InsertJurisdiction.address jurisdiction) in
  (MemStorage.set_jurisdictions this
     (JsMap.set id newJurisdiction (MemStorage.jurisdictions this)) (id + 1),
   newJurisdiction).

Definition spreadJurisdiction (existing : Jurisdiction.t)
  (jurisdiction : PartialJurisdiction.t) : Jurisdiction.t :=
  Jurisdiction.mk
    (spread (Jurisdiction.id existing) (PartialJurisdiction.id jurisdiction))
    (spread (Jurisdiction.name existing)
       (PartialJurisdiction.name jurisdiction))
    (spread (Jurisdiction.state existing)
       (PartialJurisdiction.state jurisdiction))
    (spread (Jurisdiction.city existing)
       (PartialJurisdiction.city jurisdiction))
    (spread (Jurisdiction.address existing)
       (PartialJurisdiction.address jurisdiction)).

Definition updateJurisdiction (id : Z) (jurisdiction : PartialJurisdiction.t)
  (this : store) : store * option Jurisdiction.t :=
  match JsMap.get id (MemStorage.jurisdictions this) with
  | None => (this, None)
  | Some existingJurisdiction =>
      let updatedJurisdiction :=
        spreadJurisdiction existingJurisdiction jurisdiction in
      (MemStorage.set_jurisdictions this
         (JsMap.set id updatedJurisdiction (MemStorage.jurisdictions this))
         (MemStorage.jurisdictionIdCounter this),
       Some updatedJurisdiction)
  end.

Definition deleteJurisdiction (id : Z) (this : store) : store * bool :=
  (MemStorage.set_jurisdictions this
     (JsMap.remove id (MemStorage.jurisdictions this))
     (MemStorage.jurisdictionIdCounter this),
   JsMap.has id (MemStorage.jurisdictions this)).

(** *** Hearings *)

Definition getHearing (id : Z) (this : store) : option Hearing.t :=
  JsMap.get id (MemStorage.hearings this).

Definition getHearings (this : store) : list Hearing.t :=
  JsMap.values (MemStorage.hearings this).

Definition createHearing (hearing : InsertHearing.t) (now : Z) (this : store)
  : store * Hearing.t :=
  let id := MemStorage.hearingIdCounter this in
  let newHearing :=
    Hearing.mk id (InsertHearing.processNumber hearing)
      (InsertHearing.jurisdictionId hearing) (InsertHearing.date hearing)
      (InsertHearing.time hearing) (InsertHearing.type hearing)
      (InsertHearing.area hearing) (InsertHearing.professionalId hearing)
      (InsertHearing.status hearing) (InsertHearing.notes hearing)
      false None (Some "pending") None now in
  (MemStorage.set_hearings this
     (JsMap.set id newHearing (MemStorage.hearings this)) (id + 1),
   newHearing).

Definition spreadHearing (existing : Hearing.t) (hearing : PartialHearing.t)
  : Hearing.t :=
  Hearing.mk
    (spread (Hearing.id existing) (PartialHearing.id hearing))
    (spread (Hearing.processNumber existing)
       (PartialHearing.processNumber hearing))
    (spread (Hearing.jurisdictionId existing)
       (PartialHearing.jurisdictionId hearing))
    (spread (Hearing.date existing) (PartialHearing.date hearing))
    (spread (Hearing.time existing) (PartialHearing.time hearing))
    (spread (Hearing.type existing) (PartialHearing.type hearing))
    (spread (Hearing.area existing) (PartialHearing.area hearing))
    (spread (Hearing.professionalId existing)
       (PartialHearing.professionalId hearing))
    (spread (Hearing.status existing) (PartialHearing.status hearing))
    (spread (Hearing.notes existing) (PartialHearing.notes hearing))
    (spread (Hearing.minutesUploaded existing)
       (PartialHearing.minutesUploaded hearing))
    (spread (Hearing.minutesUrl existing) (PartialHearing.minutesUrl hearing))
    (spread (Hearing.paymentStatus existing)
       (PartialHearing.paymentStatus hearing))
    (spread (Hearing.paymentAmount existing)
       (PartialHearing.paymentAmount hearing))
    (spread (Hearing.createdAt existing) (PartialHearing.createdAt hearing)).

Definition updateHearing (id : Z) (hearing : PartialHearing.t) (this : store)
  : store * option Hearing.t :=
  match JsMap.get id (MemStorage.hearings this) with
  | None => (this, None)
  | Some existingHearing =>
      let updatedHearing := spreadHearing existingHearing hearing in
      (MemStorage.set_hearings this
         (JsMap.set id updatedHearing (MemStorage.hearings this))
         (MemStorage.hearingIdCounter this),
       Some updatedHearing)
  end.

Definition deleteHearing (id : Z) (this : store) : store * bool :=
  (MemStorage.set_hearings this (JsMap.remove id (MemStorage.hearings this))
     (MemStorage.hearingIdCounter this),
   JsMap.has id (MemStorage.hearings this)).

(** *** Payments *)

Definition getPayment (id : Z) (this : store) : option Payment.t :=
  JsMap.get id (MemStorage.payments this).

Definition getPayments (this : store) : list Payment.t :=
  JsMap.values (MemStorage.payments this).

(** The hearing object held under [key] is assigned to in place (which the
    first [JsMap.set], on a key that is present, renders), and is then written
    back under its own [id] by [this.hearings.set(hearing.id, hearing)]. *)
Definition writeBackHearing (key : Z) (hearing : Hearing.t)
  (m : JsMap.t Hearing.t) : JsMap.t Hearing.t :=
  JsMap.set (Hearing.id hearing) hearing (JsMap.set key hearing m).

Definition createPayment (payment : InsertPayment.t) (now : Z) (this : store)
  : store * Payment.t :=
  let id := MemStorage.paymentIdCounter this in
  let newPayment :=
    Payment.mk id (InsertPayment.hearingId payment)
      (InsertPayment.professionalId payment) (InsertPayment.amount payment)
      (InsertPayment.status payment) (InsertPayment.paymentDate payment)
      (InsertPayment.notes payment) now in
  let this1 :=
    MemStorage.set_payments this
      (JsMap.set id newPayment (MemStorage.payments this)) (id + 1) in
  (* Update hearing payment status *)
  let this2 :=
    match JsMap.get (InsertPayment.hearingId payment)
            (MemStorage.hearings this1) with
    | Some hearing =>
        let hearing1 :=
          assign_paymentStatus hearing (InsertPayment.status payment) in
        let hearing2 :=
          assign_paymentAmount hearing1
            (Some (InsertPayment.amount payment)) in
        MemStorage.set_hearings this1
          (writeBackHearing (InsertPayment.hearingId payment) hearing2
             (MemStorage.hearings this1))
          (MemStorage.hearingIdCounter this1)
    | None => this1
    end in
  (this2, newPayment).

Definition spreadPayment (existing : Payment.t) (payment : PartialPayment.t)
  : Payment.t :=
  Payment.mk
    (spread (Payment.id existing) (PartialPayment.id payment))
    (spread (Payment.hearingId existing) (PartialPayment.hearingId payment))
    (spread (Payment.professionalId existing)
       (PartialPayment.professionalId payment))
    (spread (Payment.amount existing) (PartialPayment.amount payment))
    (spread (Payment.status existing) (PartialPayment.status payment))
    (spread (Payment.paymentDate existing)
       (PartialPayment.paymentDate payment))
    (spread (Payment.notes existing) (PartialPayment.notes payment))
    (spread (Payment.createdAt existing) (PartialPayment.createdAt payment)).

Definition updatePayment (id : Z) (payment : PartialPayment.t) (this : store)
  : store * option Payment.t :=
  match JsMap.get id (MemStorage.payments this) with
  | None => (this, None)
  | Some existingPayment =>
      let updatedPayment := spreadPayment existingPayment payment in
      let this1 :=
        MemStorage.set_payments this
          (JsMap.set id updatedPayment (MemStorage.payments this))
          (MemStorage.paymentIdCounter this) in
      (* Update hearing payment status if changed *)
      let this2 :=
        if truthy (prop (PartialPayment.status payment))
           && negb (same_string (Payment.status existingPayment)
                      (prop (PartialPayment.status payment)))
        then
          match JsMap.get (Payment.hearingId existingPayment)
                  (MemStorage.hearings this1) with
          | Some hearing =>
              let hearing1 :=
                assign_paymentStatus hearing
                  (prop (PartialPayment.status payment)) in
              MemStorage.set_hearings this1
                (writeBackHearing (Payment.hearingId existingPayment) hearing1
                   (MemStorage.hearings this1))
                (MemStorage.hearingIdCounter this1)
          | None => this1
          end
        else this1 in
      (this2, Some updatedPayment)
  end.

Definition deletePayment (id : Z) (this : store) : store * bool :=
  (MemStorage.set_payments this (JsMap.remove id (MemStorage.payments this))
     (MemStorage.paymentIdCounter this),
   JsMap.has id (MemStorage.payments this)).

(** *** Tasks *)

Definition getTask (id : Z) (this : store) : option Task.t :=
  JsMap.get id (MemStorage.tasks this).

Definition getTasks (this : store) : list Task.t :=
  JsMap.values (MemStorage.tasks this).

Definition createTask (task : InsertTask.t) (now : Z) (this : store)
  : store * Task.t :=
  let id := MemStorage.taskIdCounter this in
  let newTask :=
    Task.mk id (InsertTask.title task) (InsertTask.description task)
      (InsertTask.status task) (InsertTask.type task)
      (InsertTask.relatedId task) (InsertTask.dueDate task) now in
  (MemStorage.set_tasks this (JsMap.set id newTask (MemStorage.tasks this))
     (id + 1),
   newTask).

Definition spreadTask (existing : Task.t) (task : PartialTask.t) : Task.t :=
  Task.mk
    (spread (Task.id existing) (PartialTask.id task))
    (spread (Task.title existing) (PartialTask.title task))
    (spread (Task.description existing) (PartialTask.description task))
    (spread (Task.status existing) (PartialTask.status task))
    (spread (Task.type existing) (PartialTask.type task))
    (spread (Task.relatedId existing) (PartialTask.relatedId task))
    (spread (Task.dueDate existing) (PartialTask.dueDate task))
    (spread (Task.createdAt existing) (PartialTask.createdAt task)).

Definition updateTask (id : Z) (task : PartialTask.t) (this : store)
  : store * option Task.t :=
  match JsMap.get id (MemStorage.tasks this) with
  | None => (this, None)
  | Some existingTask =>
      let updatedTask := spreadTask existingTask task in
      (MemStorage.set_tasks this
         (JsMap.set id updatedTask (MemStorage.tasks this))
         (MemStorage.taskIdCounter this),
       Some updatedTask)
  end.

Definition deleteTask (id : Z) (this : store) : store * bool :=
  (MemStorage.set_tasks this (JsMap.remove id (MemStorage.tasks this))
     (MemStorage.taskIdCounter this),
   JsMap.has id (MemStorage.tasks this)).

(** *** The clock: ECMAScript time values and the time zone

    [Date] arithmetic follows the ECMAScript definitions of [Day],
    [TimeWithinDay], [DayFromYear], [YearFromTime], [MonthFromTime],
    [DateFromTime], [MakeDay], [MakeDate], [LocalTime] and [UTC].  The
    getters and setters that the code calls ([getDate], [setDate],
    [getMonth], [setMonth], [getFullYear], [setFullYear]) read and write
    local time, so each takes the time zone of the machine it runs on: the
    server's for [storage.ts], the browser's for the client. *)

Definition msPerDay : Z := 86400000.

Definition Day (t : Z) : Z := t / msPerDay.

Definition TimeWithinDay (t : Z) : Z := t mod msPerDay.

Definition DayFromYear (y : Z) : Z :=
  365 * (y - 1970) + (y - 1969) / 4 - (y - 1901) / 100 + (y - 1601) / 400.

Definition InLeapYear (y : Z) : bool :=
  ((y mod 4 =? 0) && negb (y mod 100 =? 0)) || (y mod 400 =? 0).

(** The year of a day number: an estimate from the mean year length, moved
    by one where the estimate falls on the wrong side of a new year. *)
Definition YearFromDay (day : Z) : Z :=
  let y := 1970 + (day * 400) / 146097 in
  if DayFromYear (y + 1) <=? day then y + 1
  else if day <? DayFromYear y then y - 1
  else y.

Definition YearFromTime (t : Z) : Z := YearFromDay (Day t).

Definition DayWithinYear (t : Z) : Z := Day t - DayFromYear (YearFromTime t).

(** The day within the year on which month [m] (0 to 11) begins. *)
Definition monthStart (m : Z) (leap : bool) : Z :=
  let l := if leap then 1 else 0 in
  match m with
  | 0 => 0
  | 1 => 31
  | 2 => 59 + l
  | 3 => 90 + l
  | 4 => 120 + l
  | 5 => 151 + l
  | 6 => 181 + l
  | 7 => 212 + l
  | 8 => 243 + l
  | 9 => 273 + l
  | 10 => 304 + l
  | _ => 334 + l
  end.

Definition MonthFromTime (t : Z) : Z :=
  let d := DayWithinYear t in
  let leap := InLeapYear (YearFromTime t) in
  let fix scan (fuel : nat) (m : Z) : Z :=
    match fuel with
    | O => m
    | S fuel' => if d <? monthStart (m + 1) leap then m else scan fuel' (m + 1)
    end in
  scan 11%nat 0.

Definition DateFromTime (t : Z) : Z :=
  DayWithinYear t
  - monthStart (MonthFromTime t) (InLeapYear (YearFromTime t)) + 1.

Definition MakeDay (year month date : Z) : Z :=
  let ym := year + month / 12 in
  let mn := month mod 12 in
  DayFromYear ym + monthStart mn (InLeapYear ym) + date - 1.

Definition MakeDate (day time : Z) : Z := day * msPerDay + time.

(** A time zone gives the offset of local time from UTC, in
    milliseconds: [utcOffset] at an instant ([LocalTZA(t, true)]) and
    [localOffset] for a local time value ([LocalTZA(t, false)]), which need
    not agree where the zone changes its offset. *)
Module TimeZone.
Record t : Type := mk
  { utcOffset : Z -> Z;
    localOffset : Z -> Z }.
End TimeZone.

Definition LocalTime (tz : TimeZone.t) (t : Z) : Z :=
  t + TimeZone.utcOffset tz t.

Definition UTC (tz : TimeZone.t) (t : Z) : Z :=
  t - TimeZone.localOffset tz t.

(** [d.getDate()], [d.getMonth()], [d.getFullYear()] *)
Definition getDate (tz : TimeZone.t) (t : Z) : Z :=
  DateFromTime (LocalTime tz t).

Definition getMonth (tz : TimeZone.t) (t : Z) : Z :=
  MonthFromTime (LocalTime tz t).

Definition getFullYear (tz : TimeZone.t) (t : Z) : Z :=
  YearFromTime (LocalTime tz t).

(** The local time value [t] with the day of the month, the month or the
    year of its reading replaced: the [newDate] that [setDate], [setMonth]
    and [setFullYear] build before they take it back to UTC. *)
Definition withDate (t date : Z) : Z :=
  MakeDate (MakeDay (YearFromTime t) (MonthFromTime t) date)
    (TimeWithinDay t).

Definition withMonth (t month : Z) : Z :=
  MakeDate (MakeDay (YearFromTime t) month (DateFromTime t))
    (TimeWithinDay t).

Definition withFullYear (t year : Z) : Z :=
  MakeDate (MakeDay year (MonthFromTime t) (DateFromTime t))
    (TimeWithinDay t).

(** [d.setDate(date)] *)
Definition setDate (tz : TimeZone.t) (t date : Z) : Z :=
  UTC tz (withDate (LocalTime tz t) date).

(** [d.setMonth(month)] *)
Definition setMonth (tz : TimeZone.t) (t month : Z) : Z :=
  UTC tz (withMonth (LocalTime tz t) month).

(** [d.setFullYear(year)] *)
Definition setFullYear (tz : TimeZone.t) (t year : Z) : Z :=
  UTC tz (withFullYear (LocalTime tz t) year).

(** *** Statistics and reports *)

Module FinancialSummary.
Record t : Type := mk
  { total : float;
    pending : float;
    paid : float }.
End FinancialSummary.

(** [list.reduce((sum, payment) => sum + payment.amount, 0)] *)
Definition sumAmounts (l : list Payment.t) : float :=
  fold_left (fun sum payment => PrimFloat.add sum (Payment.amount payment))
    l 0%float.

Definition hasStatus (s : string) (p : Payment.t) : bool :=
  same_string (Payment.status p) (Some s).

(** The payments [getFinancialSummary] keeps; [period] is [None] when the
    caller leaves the argument out, which the default turns into ["month"];
    [tz] is the server's time zone. *)
Definition filteredPayments (period : option string) (tz : TimeZone.t)
  (now : Z) (this : store) : list Payment.t :=
  let period := match period with Some p => p | None => "month" end in
  let payments := JsMap.values (MemStorage.payments this) in
  if String.eqb period "week" then
    let oneWeekAgo := setDate tz now (getDate tz now - 7) in
    filter (fun p => oneWeekAgo <=? Payment.createdAt p) payments
  else if String.eqb period "month" then
    let oneMonthAgo := setMonth tz now (getMonth tz now - 1) in
    filter (fun p => oneMonthAgo <=? Payment.createdAt p) payments
  else payments.

Definition getFinancialSummary (period : option string) (tz : TimeZone.t)
  (now : Z) (this : store) : FinancialSummary.t :=
  let filteredPayments := filteredPayments period tz now this in
  let total := sumAmounts filteredPayments in
  let pending := sumAmounts (filter (hasStatus "pending") filteredPayments) in
  let paid := sumAmounts (filter (hasStatus "paid") filteredPayments) in
  FinancialSummary.mk total pending paid.

(** *** The constructor

    [today] and [tomorrow] are the two ISO date strings [seedData] derives
    from the clock. *)

Definition seedUser : InsertUser.t :=
  InsertUser.mk "admin" "admin" "Admin" "admin@juriscrm.com" (Some "admin").

Definition seedJurisdictions : list InsertJurisdiction.t :=
  [ InsertJurisdiction.mk "Foro Central Civil" "SP" "São Paulo"
      "Praça João Mendes, s/n";
    InsertJurisdiction.mk "Foro Regional Criminal" "RJ" "Rio de Janeiro"
      "Av. Erasmo Braga, 115";
    InsertJurisdiction.mk "Vara Trabalhista" "MG" "Belo Horizonte"
      "Av. Augusto de Lima, 1234";
    InsertJurisdiction.mk "Vara Federal" "DF" "Brasília"
      "SAUS Quadra 2, Bloco G";
    InsertJurisdiction.mk "Vara Cível" "RS" "Porto Alegre"
      "Rua Manoelito de Ornellas, 50" ].

Definition seedProfessionals : list InsertProfessional.t :=
  [ InsertProfessional.mk "Dr. Carlos Mendes" "carlos@juriscrm.com"
      "11987654321" "lawyer" "Civil" ["SP"; "RJ"] None None;
    InsertProfessional.mk "Dra. Mariana Costa" "mariana@juriscrm.com"
      "21987654321" "lawyer" "Criminal" ["RJ"; "SP"] None None;
    InsertProfessional.mk "Dr. Rafael Almeida" "rafael@juriscrm.com"
      "31987654321" "lawyer" "Labor" ["MG"; "SP"] None None;
    InsertProfessional.mk "Dra. Patrícia Lima" "patricia@juriscrm.com"
      "61987654321" "court_official" "Civil" ["DF"; "SP"] None None;
    InsertProfessional.mk "Dr. Eduardo Santos" "eduardo@juriscrm.com"
      "51987654321" "court_official" "Criminal" ["RS"; "RJ"] None None ].

Definition seedHearings (today tomorrow : string) : list InsertHearing.t :=
  [ InsertHearing.mk "2023.0123.4567" 1 today "14:30" "Instruction" "Civil"
      (Some 1) (Some "assigned") None;
    InsertHearing.mk "2023.7654.3210" 2 tomorrow "10:00" "Conciliation"
      "Criminal" (Some 2) (Some "assigned") None;
    InsertHearing.mk "2023.9876.5432" 3 tomorrow "09:15" "Judgment" "Labor"
      None (Some "pending") None ].

Definition seedTasks : list InsertTask.t :=
  [ InsertTask.mk "Upload de Ata Pendente"
      "Proc. 2023.0001.2345 - Audiência realizada em 10/06" (Some "pending")
      "upload_minutes" (Some 1) None;
    InsertTask.mk "Designar Advogado"
      "Proc. 2023.9876.5432 - Audiência em 14/06" (Some "pending")
      "assign_professional" (Some 3) None;
    InsertTask.mk "Pagamento Pendente"
      "Dr. Rafael Almeida - 3 audiências concluídas" (Some "pending")
      "payment" (Some 3) None ].

(** [list.forEach(x => this.create(x))] *)
Definition forEach {A B : Type} (create : A -> store -> store * B)
  (l : list A) (this : store) : store :=
  fold_left (fun s x => fst (create x s)) l this.

Definition seedData (today tomorrow : string) (now : Z) (this : store)
  : store :=
  let this := fst (createUser seedUser this) in
  let this := forEach createJurisdiction seedJurisdictions this in
  let this := forEach createProfessional seedProfessionals this in
  let this :=
    forEach (fun h => createHearing h now) (seedHearings today tomorrow)
      this in
  forEach (fun t => createTask t now) seedTasks this.

(** [new MemStorage()] *)
Definition newMemStorage (today tomorrow : string) (now : Z) : store :=
  seedData today tomorrow now MemStorage.empty.

(** ** The composite handlers of [server/routes.ts] *)

Inductive Response (A : Type) : Type :=
| json (status : Z) (body : A)
| error (status : Z) (message : string).

Arguments json {A} status body.
Arguments error {A} status message.

(** [tasks.find(t => t.type === type && t.relatedId === id
                     && t.status === "pending")] *)
Definition isPendingTask (type : string) (id : Z) (t : Task.t) : bool :=
  String.eqb (Task.type t) type
  && match Task.relatedId t with Some r => r =? id | None => false end
  && same_string (Task.status t) (Some "pending").

Definition completed : PartialTask.t :=
  PartialTask.mk None None None (Some (Some "completed")) None None None None.

(** [POST /api/hearings/:id/minutes].  [id] is the outcome of
    [parseInt(req.params.id)], [None] for [NaN]; [file] is the stored name of
    the uploaded file ([req.file.filename]), [None] when there is no file. *)
Definition postHearingMinutes (id : option Z) (file : option string)
  (this : store) : store * Response Hearing.t :=
  match id with
  | None => (this, error 400 "Invalid ID")
  | Some id =>
      match file with
      | None => (this, error 400 "No file uploaded")
      | Some filename =>
          match getHearing id this with
          | None => (this, error 404 "Hearing not found")
          | Some hearing =>
              let minutesUrl := String.append "/uploads/" filename in
              let (this1, updatedHearing) :=
                updateHearing id
                  (PartialHearing.mk None None None None None None None None
                     (Some (Some "completed")) None (Some true)
                     (Some (Some minutesUrl)) None None None)
                  this in
              match updatedHearing with
              | None => (this1, error 500 "Failed to update hearing")
              | Some updatedHearing =>
                  let tasks := getTasks this1 in
                  let minutesTask :=
                    find (isPendingTask "upload_minutes" id) tasks in
                  let this2 :=
                    match minutesTask with
                    | Some minutesTask =>
                        fst (updateTask (Task.id minutesTask) completed this1)
                    | None => this1
                    end in
                  (this2, json 200 updatedHearing)
              end
          end
      end
  end.

(** [POST /api/payments].  [body] is the outcome of
    [insertPaymentSchema.safeParse(req.body)]: the error message or the
    parsed data. *)
Definition postPayment (body : string + InsertPayment.t) (now : Z)
  (this : store) : store * Response Payment.t :=
  match body with
  | inl errorMessage => (this, error 400 errorMessage)
  | inr data =>
      let (this1, payment) := createPayment data now this in
      let tasks := getTasks this1 in
      let paymentTask :=
        find (isPendingTask "payment" (InsertPayment.hearingId data)) tasks in
      let this2 :=
        match paymentTask with
        | Some paymentTask =>
            fst (updateTask (Task.id paymentTask) completed this1)
        | None => this1
        end in
      (this2, json 201 payment)
  end.

(** [PUT /api/payments/:id] *)
Definition putPayment (id : option Z) (body : string + PartialPayment.t)
  (this : store) : store * Response Payment.t :=
  match id with
  | None => (this, error 400 "Invalid ID")
  | Some id =>
      match body with
      | inl errorMessage => (this, error 400 errorMessage)
      | inr data =>
          let (this1, payment) := updatePayment id data this in
          match payment with
          | None => (this1, error 404 "Payment not found")
          | Some payment => (this1, json 200 payment)
          end
      end
  end.

(** ** The eligibility filter of the hearing form

    [professionals] and [jurisdictions] are the two query results, [None]
    while a query has no data yet. *)

Definition getJurisdictionState (jurisdictions : option (list Jurisdiction.t))
  (id : Z) : option string :=
  match jurisdictions with
  | None => None
  | Some jurisdictions =>
      match find (fun j => Jurisdiction.id j =? id) jurisdictions with
      | Some jurisdiction =>
          if truthy (Some (Jurisdiction.state jurisdiction))
          then Some (Jurisdiction.state jurisdiction)
          else None
      | None => None
      end
  end.

(** [list.includes(x)] *)
Definition includes (l : list string) (x : string) : bool :=
  existsb (String.eqb x) l.

Definition eligibleProfessionals
  (professionals : option (list Professional.t))
  (jurisdictions : option (list Jurisdiction.t))
  (selectedJurisdictionId : Z) (selectedArea : string)
  : list Professional.t :=
  match professionals with
  | None => []
  | Some professionals =>
      filter
        (fun professional =>
           if (selectedJurisdictionId =? 0) || String.eqb selectedArea ""
           then false
           else
             match
               getJurisdictionState jurisdictions selectedJurisdictionId
             with
             | None => false
             | Some jurisdictionState =>
                 if negb (truthy (Some jurisdictionState)) then false
                 else
                   match Professional.active professional with
                   | Some true =>
                       includes (Professional.jurisdictions professional)
                         jurisdictionState
                       && String.eqb
                            (Professional.specialization professional)
                            selectedArea
                   | _ => false
                   end
             end)
        professionals
  end.

(** ** Sequences of calls to the store *)

Inductive Kind : Type :=
| KUser | KProfessional | KJurisdiction | KHearing | KPayment | KTask.

Definition Kind_eqb (a b : Kind) : bool :=
  match a, b with
  | KUser, KUser | KProfessional, KProfessional
  | KJurisdiction, KJurisdiction | KHearing, KHearing
  | KPayment, KPayment | KTask, KTask => true
  | _, _ => false
  end.

(** One call of a method of [IStorage] that writes; the calls that read
    the clock carry its reading. *)
Inductive Call : Type :=
| CreateUser (user : InsertUser.t)
| CreateProfessional (professional : InsertProfessional.t)
| UpdateProfessional (id : Z) (professional : PartialProfessional.t)
| DeleteProfessional (id : Z)
| CreateJurisdiction (jurisdiction : InsertJurisdiction.t)
| UpdateJurisdiction (id : Z) (jurisdiction : PartialJurisdiction.t)
| DeleteJurisdiction (id : Z)
| CreateHearing (hearing : InsertHearing.t) (now : Z)
| UpdateHearing (id : Z) (hearing : PartialHearing.t)
| DeleteHearing (id : Z)
| CreatePayment (payment : InsertPayment.t) (now : Z)
| UpdatePayment (id : Z) (payment : PartialPayment.t)
| DeletePayment (id : Z)
| CreateTask (task : InsertTask.t) (now : Z)
| UpdateTask (id : Z) (task : PartialTask.t)
| DeleteTask (id : Z).

(** The store after a call, and, for a create, the kind and the id of the
    entity the call returned. *)
Definition perform (c : Call) (this : store) : store * option (Kind * Z) :=
  match c with
  | CreateUser u =>
      let (s, e) := createUser u this in (s, Some (KUser, User.id e))
  | CreateProfessional p =>
      let (s, e) := createProfessional p this in
      (s, Some (KProfessional, Professional.id e))
  | UpdateProfessional id p => (fst (updateProfessional id p this), None)
  | DeleteProfessional id => (fst (deleteProfessional id this), None)
  | CreateJurisdiction j =>
      let (s, e) := createJurisdiction j this in
      (s, Some (KJurisdiction, Jurisdiction.id e))
  | UpdateJurisdiction id j => (fst (updateJurisdiction id j this), None)
  | DeleteJurisdiction id => (fst (deleteJurisdiction id this), None)
  | CreateHearing h now =>
      let (s, e) := createHearing h now this in
      (s, Some (KHearing, Hearing.id e))
  | UpdateHearing id h => (fst (updateHearing id h this), None)
  | DeleteHearing id => (fst (deleteHearing id this), None)
  | CreatePayment p now =>
      let (s, e) := createPayment p now this in
      (s, Some (KPayment, Payment.id e))
  | UpdatePayment id p => (fst (updatePayment id p this), None)
  | DeletePayment id => (fst (deletePayment id this), None)
  | CreateTask t now =>
      let (s, e) := createTask t now this in (s, Some (KTask, Task.id e))
  | UpdateTask id t => (fst (updateTask id t this), None)
  | DeleteTask id => (fst (deleteTask id this), None)
  end.

(** The store after a sequence of calls, with the log of the ids the
    creates returned, oldest first. *)
Fixpoint run (calls : list Call) (this : store) : store * list (Kind * Z) :=
  match calls with
  | [] => (this, [])
  | c :: rest =>
      let (s, r) := perform c this in
      let (s', log) := run rest s in
      (s', match r with Some e => e :: log | None => log end)
  end.

Definition idsOf (k : Kind) (log : list (Kind * Z)) : list Z :=
  map snd (filter (fun e => Kind_eqb (fst e) k) log).

Definition counterOf (k : Kind) (this : store) : Z :=
  match k with
  | KUser => MemStorage.userIdCounter this
  | KProfessional => MemStorage.professionalIdCounter this
  | KJurisdiction => MemStorage.jurisdictionIdCounter this
  | KHearing => MemStorage.hearingIdCounter this
  | KPayment => MemStorage.paymentIdCounter this
  | KTask => MemStorage.taskIdCounter this
  end.

(** [countFrom a n] is [a; a + 1; ...; a + n - 1]. *)
Fixpoint countFrom (a : Z) (n : nat) : list Z :=
  match n with
  | O => []
  | S n' => a :: countFrom (a + 1) n'
  end.

(** An update that leaves the [id] property alone, as every partial object
    the HTTP layer parses does (its schemas have no [id]). *)
Definition keepsId (c : Call) : Prop :=
  match c with
  | UpdateProfessional _ p => PartialProfessional.id p = None
  | UpdateJurisdiction _ j => PartialJurisdiction.id j = None
  | UpdateHearing _ h => PartialHearing.id h = None
  | UpdatePayment _ p => PartialPayment.id p = None
  | UpdateTask _ t => PartialTask.id t = None
  | _ => True
  end.

(** The kind of entity a call creates, if it is a create. *)
Definition created (c : Call) : option Kind :=
  match c with
  | CreateUser _ => Some KUser
  | CreateProfessional _ => Some KProfessional
  | CreateJurisdiction _ => Some KJurisdiction
  | CreateHearing _ _ => Some KHearing
  | CreatePayment _ _ => Some KPayment
  | CreateTask _ _ => Some KTask
  | _ => None
  end.

Definition creates (k : Kind) (c : Call) : bool :=
  match created c with
  | Some k' => Kind_eqb k' k
  | None => false
  end.

Definition numCreated (k : Kind) (calls : list Call) : nat :=
  List.length (filter (creates k) calls).

(** The calls [seedData] makes, in order. *)
Definition seedCalls (today tomorrow : string) (now : Z) : list Call :=
  CreateUser seedUser
  :: map CreateJurisdiction seedJurisdictions
  ++ map CreateProfessional seedProfessionals
  ++ map (fun h => CreateHearing h now) (seedHearings today tomorrow)
  ++ map (fun t => CreateTask t now) seedTasks.

(** ** The representation invariant

    Each map holds every entity once, under the entity's own id, and every
    id in use is at least 1 and below the counter of its map, which is at
    least 1 itself. *)

Definition filed {V : Type} (idOf : V -> Z) (counter : Z) (m : JsMap.t V)
  : Prop :=
  1 <= counter
  /\ NoDup (JsMap.keys m)
  /\ forall k v, In (k, v) m -> idOf v = k /\ 1 <= k < counter.

Definition wellFiled (this : store) : Prop :=
  filed User.id (MemStorage.userIdCounter this) (MemStorage.users this)
  /\ filed Professional.id (MemStorage.professionalIdCounter this)
       (MemStorage.professionals this)
  /\ filed Jurisdiction.id (MemStorage.jurisdictionIdCounter this)
       (MemStorage.jurisdictions this)
  /\ filed Hearing.id (MemStorage.hearingIdCounter this)
       (MemStorage.hearings this)
  /\ filed Payment.id (MemStorage.paymentIdCounter this)
       (MemStorage.payments this)
  /\ filed Task.id (MemStorage.taskIdCounter this) (MemStorage.tasks this).

(** The invariant as a test that runs. *)

Fixpoint distinct (l : list Z) : bool :=
  match l with
  | [] => true
  | k :: rest => negb (existsb (Z.eqb k) rest) && distinct rest
  end.

Definition filedb {V : Type} (idOf : V -> Z) (counter : Z) (m : JsMap.t V)
  : bool :=
  (1 <=? counter)
  && distinct (JsMap.keys m)
  && forallb
       (fun e => (idOf (snd e) =? fst e) && (1 <=? fst e) && (fst e <? counter))
       m.

Definition wellFiledb (this : store) : bool :=
  filedb User.id (MemStorage.userIdCounter this) (MemStorage.users this)
  && filedb Professional.id (MemStorage.professionalIdCounter this)
       (MemStorage.professionals this)
  && filedb Jurisdiction.id (MemStorage.jurisdictionIdCounter this)
       (MemStorage.jurisdictions this)
  && filedb Hearing.id (MemStorage.hearingIdCounter this)
       (MemStorage.hearings this)
  && filedb Payment.id (MemStorage.paymentIdCounter this)
       (MemStorage.payments this)
  && filedb Task.id (MemStorage.taskIdCounter this) (MemStorage.tasks this).

(** ** What the operations owe their callers *)

(** [update id partial], for a method [update] of the store whose entities
    are read with [get] and merged with [merge]: on an id that is absent,
    the store comes back as it was with no entity; on an id that is present,
    the merge of the stored entity and [partial] is returned and stored under
    [id], and the entities under the other ids of that map stay. *)
Definition updateContract {E P : Type} (get : Z -> store -> option E)
  (update : Z -> P -> store -> store * option E) (merge : E -> P -> E)
  : Prop :=
  forall (id : Z) (partial : P) (this : store),
    match get id this with
    | None => update id partial this = (this, None)
    | Some existing =>
        snd (update id partial this) = Some (merge existing partial)
        /\ get id (fst (update id partial this))
           = Some (merge existing partial)
        /\ forall id', id' <> id ->
             get id' (fst (update id partial this)) = get id' this
    end.

(** A task that waits for an action of type [type] on entity [id]. *)
Definition pendingTask (type : string) (id : Z) (t : Task.t) : Prop :=
  Task.type t = type
  /\ Task.relatedId t = Some id
  /\ Task.status t = Some "pending".

(** A task marked completed, all else as it was. *)
Definition completedTask (t : Task.t) : Task.t :=
  Task.mk (Task.id t) (Task.title t) (Task.description t) (Some "completed")
    (Task.type t) (Task.relatedId t) (Task.dueDate t) (Task.createdAt t).

(** A hearing after its minutes were stored under [minutesUrl]. *)
Definition withMinutes (hearing : Hearing.t) (minutesUrl : string)
  : Hearing.t :=
  Hearing.mk (Hearing.id hearing) (Hearing.processNumber hearing)
    (Hearing.jurisdictionId hearing) (Hearing.date hearing)
    (Hearing.time hearing) (Hearing.type hearing) (Hearing.area hearing)
    (Hearing.professionalId hearing) (Some "completed")
    (Hearing.notes hearing) true (Some minutesUrl)
    (Hearing.paymentStatus hearing) (Hearing.paymentAmount hearing)
    (Hearing.createdAt hearing).

(** ** Worked stores

    The store as the constructor leaves it on 10 June 2023, 12:00 UTC, and
    the same store after a pending payment of 300 for hearing 1 to
    professional 1. *)

Definition demoNow : Z := 1686398400000.

Definition demoStore : store := newMemStorage "2023-06-10" "2023-06-11" demoNow.

Definition demoInsertPayment : InsertPayment.t :=
  InsertPayment.mk 1 1 300%float (Some "pending") None None.

Definition demoPayment : Payment.t :=
  Payment.mk 1 1 1 300%float (Some "pending") None None demoNow.

Definition demoStoreWithPayment : store :=
  fst (createPayment demoInsertPayment demoNow demoStore).

Definition demoPaidPayment : InsertPayment.t :=
  InsertPayment.mk 1 1 300%float (Some "paid") None None.

(** Hearing 1 of [demoStore], and of [demoStoreWithPayment]. *)
Definition demoHearing : Hearing.t :=
  Hearing.mk 1 "2023.0123.4567" 1 "2023-06-10" "14:30" "Instruction" "Civil"
    (Some 1) (Some "assigned") None false None (Some "pending") None demoNow.

Definition demoHearingWithPayment : Hearing.t :=
  Hearing.mk 1 "2023.0123.4567" 1 "2023-06-10" "14:30" "Instruction" "Civil"
    (Some 1) (Some "assigned") None false None (Some "pending")
    (Some 300%float) demoNow.

(** The tasks of [demoStore]: the pending upload task for hearing 1, and
    the two tasks after it. *)
Definition demoUploadTask : Task.t :=
  Task.mk 1 "Upload de Ata Pendente"
    "Proc. 2023.0001.2345 - Audiência realizada em 10/06" (Some "pending")
    "upload_minutes" (Some 1) None demoNow.

Definition demoOtherTasks : list Task.t :=
  [ Task.mk 2 "Designar Advogado" "Proc. 2023.9876.5432 - Audiência em 14/06"
      (Some "pending") "assign_professional" (Some 3) None demoNow;
    Task.mk 3 "Pagamento Pendente"
      "Dr. Rafael Almeida - 3 audiências concluídas" (Some "pending")
      "payment" (Some 3) None demoNow ].

(** A partial payment that carries a status and nothing else, and one that
    carries a hearing id as well. *)
Definition statusOnly (s : string) : PartialPayment.t :=
  PartialPayment.mk None None None None (Some (Some s)) None None None.

Definition hearingAndStatus (h : Z) (s : string) : PartialPayment.t :=
  PartialPayment.mk None (Some h) None None (Some (Some s)) None None None.

(** A partial hearing that carries notes and nothing else. *)
Definition notesOnly (s : string) : PartialHearing.t :=
  PartialHearing.mk None None None None None None None None None
    (Some (Some s)) None None None None None.

(** A payment that is created, deleted, and followed by another one. *)
Definition createDeleteCreate : list Call :=
  [ CreatePayment demoInsertPayment demoNow;
    DeletePayment 1;
    CreatePayment demoPaidPayment demoNow ].

(** The scenario of the specification: one jurisdiction in SP, one active
    Civil professional who practises in SP. *)
Definition scenarioStore : store :=
  let this :=
    fst (createJurisdiction
           (InsertJurisdiction.mk "Foro Central Civil" "SP" "São Paulo"
              "Praça João Mendes, s/n")
           MemStorage.empty) in
  fst (createProfessional
         (InsertProfessional.mk "Dr. Carlos Mendes" "carlos@juriscrm.com"
            "11987654321" "lawyer" "Civil" ["SP"] None (Some true))
         this).

Definition scenarioProfessional : Professional.t :=
  Professional.mk 1 "Dr. Carlos Mendes" "carlos@juriscrm.com" "11987654321"
    "lawyer" "Civil" ["SP"] None (Some true).

(** A store with one jurisdiction whose state is the empty string and one
    active professional who lists the empty string among the states. *)
Definition blankStateStore : store :=
  let this :=
    fst (createJurisdiction
           (InsertJurisdiction.mk "Foro" "" "Curitiba" "Rua A, 1")
           MemStorage.empty) in
  fst (createProfessional
         (InsertProfessional.mk "Dra. Ana" "ana@juriscrm.com" "41987654321"
            "lawyer" "Civil" [""] None (Some true))
         this).

Definition blankStateJurisdiction : Jurisdiction.t :=
  Jurisdiction.mk 1 "Foro" "" "Curitiba" "Rua A, 1".

Definition blankStateProfessional : Professional.t :=
  Professional.mk 1 "Dra. Ana" "ana@juriscrm.com" "41987654321" "lawyer"
    "Civil" [""] None (Some true).

(** Three payments for the window of the financial summary: created ten
    days, two days and no time before [demoNow]. *)
Definition tenDaysOld : Payment.t :=
  Payment.mk 1 1 1 100%float (Some "paid") None None
    (demoNow - 10 * msPerDay).

Definition twoDaysOld : Payment.t :=
  Payment.mk 2 2 2 250.5%float (Some "pending") None None
    (demoNow - 2 * msPerDay).

Definition justCreated : Payment.t :=
  Payment.mk 3 3 3 40%float (Some "paid") None None demoNow.

Definition windowStore : store :=
  let this :=
    fst (createPayment
           (InsertPayment.mk 1 1 100%float (Some "paid") None None)
           (demoNow - 10 * msPerDay) demoStore) in
  let this :=
    fst (createPayment
           (InsertPayment.mk 2 2 250.5%float (Some "pending") None None)
           (demoNow - 2 * msPerDay) this) in
  fst (createPayment (InsertPayment.mk 3 3 40%float (Some "paid") None None)
         demoNow this).

(** ** The by-field queries of [MemStorage] *)

Definition getUserByUsername (username : string) (this : store)
  : option User.t :=
  find (fun user => String.eqb (User.username user) username)
    (JsMap.values (MemStorage.users this)).

Definition getProfessionalsByJurisdiction (jurisdiction : string)
  (this : store) : list Professional.t :=
  filter (fun p => includes (Professional.jurisdictions p) jurisdiction)
    (JsMap.values (MemStorage.professionals this)).

Definition getProfessionalsByType (type : string) (this : store)
  : list Professional.t :=
  filter (fun p => String.eqb (Professional.type p) type)
    (JsMap.values (MemStorage.professionals this)).

(** [s.split('T')[0]]: what stands before the first [T]. *)
Fixpoint beforeT (s : string) : string :=
  match s with
  | EmptyString => EmptyString
  | String c rest =>
      if Ascii.eqb c "T"%char then EmptyString else String c (beforeT rest)
  end.

Definition getHearingsByDate (date : string) (this : store)
  : list Hearing.t :=
  filter (fun h => String.eqb (beforeT (Hearing.date h)) date)
    (JsMap.values (MemStorage.hearings this)).

(** [x === id] for a numeric property that may be absent. *)
Definition same_id (x : option Z) (id : Z) : bool :=
  match x with
  | Some v => v =? id
  | None => false
  end.

Definition getHearingsByProfessional (professionalId : Z) (this : store)
  : list Hearing.t :=
  filter (fun h => same_id (Hearing.professionalId h) professionalId)
    (JsMap.values (MemStorage.hearings this)).

Definition getHearingsByJurisdiction (jurisdictionId : Z) (this : store)
  : list Hearing.t :=
  filter (fun h => Hearing.jurisdictionId h =? jurisdictionId)
    (JsMap.values (MemStorage.hearings this)).

Definition getHearingsByStatus (status : string) (this : store)
  : list Hearing.t :=
  filter (fun h => same_string (Hearing.status h) (Some status))
    (JsMap.values (MemStorage.hearings this)).

Definition getPendingAssignmentHearings (this : store) : list Hearing.t :=
  filter (fun h => same_string (Hearing.status h) (Some "pending"))
    (JsMap.values (MemStorage.hearings this)).

Definition getPaymentsByProfessional (professionalId : Z) (this : store)
  : list Payment.t :=
  filter (fun p => Payment.professionalId p =? professionalId)
    (JsMap.values (MemStorage.payments this)).

Definition getPaymentsByStatus (status : string) (this : store)
  : list Payment.t :=
  filter (fun p => same_string (Payment.status p) (Some status))
    (JsMap.values (MemStorage.payments this)).

Definition getTasksByStatus (status : string) (this : store) : list Task.t :=
  filter (fun t => same_string (Task.status t) (Some status))
    (JsMap.values (MemStorage.tasks this)).

Definition getTasksByType (type : string) (this : store) : list Task.t :=
  filter (fun t => String.eqb (Task.type t) type)
    (JsMap.values (MemStorage.tasks this)).

Module HearingStats.
Record t : Type := mk
  { todayCount : Z;
    pendingAssignment : Z;
    pendingMinutes : Z;
    pendingPayments : Z }.
End HearingStats.

(** [list.filter(f).length] *)
Definition countIf {A : Type} (f : A -> bool) (l : list A) : Z :=
  Z.of_nat (List.length (filter f l)).

Definition isCompleted (h : Hearing.t) : bool :=
  same_string (Hearing.status h) (Some "completed").

(** [today] is [new Date().toISOString().split('T')[0]]. *)
Definition getHearingStats (today : string) (this : store) : HearingStats.t :=
  let hearings := JsMap.values (MemStorage.hearings this) in
  let todayCount :=
    countIf (fun h => String.eqb (beforeT (Hearing.date h)) today) hearings in
  let pendingAssignment :=
    countIf (fun h => same_string (Hearing.status h) (Some "pending"))
      hearings in
  let pendingMinutes :=
    countIf (fun h => isCompleted h && negb (Hearing.minutesUploaded h))
      hearings in
  let pendingPayments :=
    countIf
      (fun h =>
         isCompleted h && same_string (Hearing.paymentStatus h) (Some "pending"))
      hearings in
  HearingStats.mk todayCount pendingAssignment pendingMinutes pendingPayments.


(** A partial hearing that carries an id and nothing else. *)
Definition idOnly (id : Z) : PartialHearing.t :=
  PartialHearing.mk (Some id) None None None None None None None None None
    None None None None None.

(** What a delete method owes its caller: on an id that is absent it
    answers [false] and the store comes back as it was; on an id that is
    present it answers [true]; afterwards the id is absent, a second delete
    answers [false], the entities under the other ids stay, and in a
    well-filed store the listing loses exactly the entity with that id. *)
Definition deleteContract {E : Type} (get : Z -> store -> option E)
  (list : store -> list E) (idOf : E -> Z)
  (delete : Z -> store -> store * bool) : Prop :=
  forall (id : Z) (this : store),
    (get id this = None -> delete id this = (this, false))
    /\ (get id this <> None -> snd (delete id this) = true)
    /\ get id (fst (delete id this)) = None
    /\ snd (delete id (fst (delete id this))) = false
    /\ (forall id', id' <> id -> get id' (fst (delete id this)) = get id' this)
    /\ (wellFiled this ->
        list (fst (delete id this))
        = filter (fun e => negb (idOf e =? id)) (list this)).

Definition getUsers (this : store) : list User.t :=
  JsMap.values (MemStorage.users this).


(** What a create method owes its caller in a well-filed store: the new
    entity takes the value of the counter as its id, the counter moves on by
    one, the id was not in use, the entity is stored under it, the entities
    under the other ids stay, and the listing grows by the new entity at its
    end. *)
Definition createContract {I E : Type} (get : Z -> store -> option E)
  (list : store -> list E) (idOf : E -> Z) (counter : store -> Z)
  (create : I -> store -> store * E) : Prop :=
  forall (insert : I) (this : store),
    wellFiled this ->
    let this' := fst (create insert this) in
    let e := snd (create insert this) in
    idOf e = counter this
    /\ counter this' = counter this + 1
    /\ get (idOf e) this = None
    /\ get (idOf e) this' = Some e
    /\ (forall id, id <> idOf e -> get id this' = get id this)
    /\ list this' = list this ++ [e].


(** A hearing insert without a status, for the worked store. *)
Definition demoInsertHearing : InsertHearing.t :=
  InsertHearing.mk "2023.1111.2222" 4 "2023-06-12" "11:00" "Conciliation"
    "Civil" None None None.


(** 1 for [true], 0 for [false]. *)
Definition indicator (b : bool) : Z := if b then 1 else 0.

(** The four tests of [getHearingStats]. *)
Definition isToday (today : string) (h : Hearing.t) : bool :=
  String.eqb (beforeT (Hearing.date h)) today.

Definition isPendingAssignment (h : Hearing.t) : bool :=
  same_string (Hearing.status h) (Some "pending").

Definition lacksMinutes (h : Hearing.t) : bool :=
  isCompleted h && negb (Hearing.minutesUploaded h).

Definition awaitsPayment (h : Hearing.t) : bool :=
  isCompleted h && same_string (Hearing.paymentStatus h) (Some "pending").


(** ** The hearings page

    [getEligibleProfessionals] of [pages/hearings.tsx], the filter behind
    the assignment menu of each listed hearing. *)
Definition getEligibleProfessionals
  (professionals : option (list Professional.t))
  (jurisdictions : option (list Jurisdiction.t)) (hearing : Hearing.t)
  : list Professional.t :=
  match professionals, jurisdictions with
  | Some professionals, Some jurisdictions =>
      match
        find (fun j => Jurisdiction.id j =? Hearing.jurisdictionId hearing)
          jurisdictions
      with
      | None => []
      | Some jurisdiction =>
          filter
            (fun p =>
               match Professional.active p with
               | Some true =>
                   includes (Professional.jurisdictions p)
                     (Jurisdiction.state jurisdiction)
                   && String.eqb (Professional.specialization p)
                        (Hearing.area hearing)
               | _ => false
               end)
            professionals
      end
  | _, _ => []
  end.

(** The body the page sends to [PUT /api/hearings/:id] to assign a
    professional: [{ professionalId, status: "assigned" }]. *)
Definition assignment (professionalId : Z) : PartialHearing.t :=
  PartialHearing.mk None None None None None None None
    (Some (Some professionalId)) (Some (Some "assigned")) None None None None
    None None.

(** [PUT /api/hearings/:id] *)
Definition putHearing (id : option Z) (body : string + PartialHearing.t)
  (this : store) : store * Response Hearing.t :=
  match id with
  | None => (this, error 400 "Invalid ID")
  | Some id =>
      match body with
      | inl errorMessage => (this, error 400 errorMessage)
      | inr data =>
          let (this1, hearing) := updateHearing id data this in
          match hearing with
          | None => (this1, error 404 "Hearing not found")
          | Some hearing => (this1, json 200 hearing)
          end
      end
  end.

(** A hearing after a professional was assigned to it. *)
Definition assignedTo (hearing : Hearing.t) (professionalId : Z)
  : Hearing.t :=
  Hearing.mk (Hearing.id hearing) (Hearing.processNumber hearing)
    (Hearing.jurisdictionId hearing) (Hearing.date hearing)
    (Hearing.time hearing) (Hearing.type hearing) (Hearing.area hearing)
    (Some professionalId) (Some "assigned") (Hearing.notes hearing)
    (Hearing.minutesUploaded hearing) (Hearing.minutesUrl hearing)
    (Hearing.paymentStatus hearing) (Hearing.paymentAmount hearing)
    (Hearing.createdAt hearing).

(** A hearing in jurisdiction 1 and the area Civil, for the store with the
    blank state. *)
Definition blankStateHearing : Hearing.t :=
  Hearing.mk 1 "2023.0000.0001" 1 "2023-06-12" "10:00" "Conciliation" "Civil"
    None (Some "pending") None false None (Some "pending") None demoNow.


(** A partial professional that carries the [active] flag and nothing
    else. *)
Definition activeOnly (b : bool) : PartialProfessional.t :=
  PartialProfessional.mk None None None None None None None None
    (Some (Some b)).


(** The number of days of month [m] (0 to 11) of a year. *)
Definition DaysInMonth (m : Z) (leap : bool) : Z :=
  match m with
  | 1 => if leap then 29 else 28
  | 3 | 5 | 8 | 10 => 30
  | _ => 31
  end.

(** The number of days of the month before the one [t] falls in. *)
Definition daysOfMonthBefore (t : Z) : Z :=
  let m := MonthFromTime t in
  if m =? 0 then 31 else DaysInMonth (m - 1) (InLeapYear (YearFromTime t)).


(** ** Requests

    [parseInt(string)] without a radix, [None] for [NaN]: white space and
    line terminators are skipped, then a sign is read, then [0x] or [0X]
    selects base 16 over base 10, then the longest run of digits is taken.
    Strings are UTF-8, so the white space beyond ASCII stands as two or
    three bytes. *)

Definition code (c : ascii) : Z := Z.of_N (N_of_ascii c).

Definition isWhiteSpace1 (a : ascii) : bool :=
  ((9 <=? code a) && (code a <=? 13)) || (code a =? 32).

Definition isWhiteSpace2 (a b : ascii) : bool :=
  (code a =? 194) && (code b =? 160).

Definition isWhiteSpace3 (a b c : ascii) : bool :=
  ((code a =? 225) && (code b =? 154) && (code c =? 128))
  || ((code a =? 226) && (code b =? 128)
      && (((128 <=? code c) && (code c <=? 138))
          || (code c =? 168) || (code c =? 169) || (code c =? 175)))
  || ((code a =? 226) && (code b =? 129) && (code c =? 159))
  || ((code a =? 227) && (code b =? 128) && (code c =? 128))
  || ((code a =? 239) && (code b =? 187) && (code c =? 191)).

Fixpoint trimStart (s : string) : string :=
  match s with
  | String a rest =>
      if isWhiteSpace1 a then trimStart rest
      else
        match rest with
        | String b rest2 =>
            if isWhiteSpace2 a b then trimStart rest2
            else
              match rest2 with
              | String c rest3 =>
                  if isWhiteSpace3 a b c then trimStart rest3 else s
              | EmptyString => s
              end
        | EmptyString => s
        end
  | EmptyString => s
  end.

Definition digitValue (c : ascii) : option Z :=
  let n := code c in
  if (48 <=? n) && (n <=? 57) then Some (n - 48)
  else if (97 <=? n) && (n <=? 122) then Some (n - 87)
  else if (65 <=? n) && (n <=? 90) then Some (n - 55)
  else None.

(** The value of the longest run of base-[R] digits [s] begins with, after
    the digits read so far; [None] while no digit was read. *)
Fixpoint digits (R : Z) (s : string) (read : option Z) : option Z :=
  match s with
  | String c rest =>
      match digitValue c with
      | Some d =>
          if d <? R then
            digits R rest
              (Some (R * match read with Some n => n | None => 0 end + d))
          else read
      | None => read
      end
  | EmptyString => read
  end.

Definition parseInt (string : string) : option Z :=
  let S := trimStart string in
  let sign :=
    match S with
    | String c _ => if Ascii.eqb c "-" then -1 else 1
    | EmptyString => 1
    end in
  let S :=
    match S with
    | String c rest =>
        if Ascii.eqb c "+" || Ascii.eqb c "-" then rest else S
    | EmptyString => S
    end in
  let (R, S) :=
    match S with
    | String z (String x rest) =>
        if Ascii.eqb z "0" && (Ascii.eqb x "x" || Ascii.eqb x "X")
        then (16, rest) else (10, S)
    | _ => (10, S)
    end in
  option_map (Z.mul sign) (digits R S None).


(** ** Routing

    Express tries the routes in the order of their registration and runs
    the handler of the first whose method and path match; no handler of
    [routes.ts] passes the request on.  A route registered with [app.get]
    also takes HEAD requests.  A path matches segment by segment: a segment
    of the pattern that begins with a colon takes any segment that is not
    empty, any other segment must be equal, up to the case of ASCII letters
    unless the application routes case-sensitively.  One slash at the end of
    the path is overlooked unless the application routes strictly.  The
    application is made outside [routes.ts], so both settings are arguments.
    What a parameter takes is percent-decoded with [decodeURIComponent]
    as soon as the path matches the pattern, before Express looks at the
    method; where that fails Express raises its own error, of status 400,
    and lets no route match the request any more.  The path is the request's
    path as it was sent, without the query. *)

Definition toLowerCase (c : ascii) : ascii :=
  if (65 <=? code c) && (code c <=? 90)
  then ascii_of_N (N_of_ascii c + 32) else c.

Fixpoint lower (s : string) : string :=
  match s with
  | String c rest => String (toLowerCase c) (lower rest)
  | EmptyString => EmptyString
  end.

Definition sameLiteral (caseSensitive : bool) (a b : string) : bool :=
  if caseSensitive then String.eqb a b else String.eqb (lower a) (lower b).

(** [s.split(sep)] *)
Fixpoint splitOn (sep : ascii) (s : string) : list string :=
  match s with
  | EmptyString => [EmptyString]
  | String c rest =>
      if Ascii.eqb c sep then EmptyString :: splitOn sep rest
      else
        match splitOn sep rest with
        | segment :: segments => String c segment :: segments
        | [] => [String c EmptyString]
        end
  end.

Fixpoint dropLastEmpty (l : list string) : list string :=
  match l with
  | [] => []
  | [s] => if String.eqb s "" then [] else [s]
  | s :: rest => s :: dropLastEmpty rest
  end.

Definition segmentsOf (strict : bool) (path : string) : option (list string) :=
  match splitOn "/" path with
  | EmptyString :: segments =>
      Some (if strict then segments else dropLastEmpty segments)
  | _ => None
  end.

(** [decodeURIComponent(s)], [None] where it throws a [URIError].  The
    string is cut into plain characters and escapes [%XX]; an escape below
    128 stands for that character, and a larger one must begin a well-formed
    UTF-8 sequence of two to four escapes, which stands for its bytes. *)
Inductive Token : Type :=
| plain (c : ascii)
| escaped (byte : Z)
| broken.

Fixpoint tokens (s : string) : list Token :=
  match s with
  | String c rest =>
      if Ascii.eqb c "%" then
        match rest with
        | String h1 (String h2 rest') =>
            match digitValue h1, digitValue h2 with
            | Some a, Some b =>
                if (a <? 16) && (b <? 16)
                then escaped (16 * a + b) :: tokens rest'
                else [broken]
            | _, _ => [broken]
            end
        | _ => [broken]
        end
      else plain c :: tokens rest
  | EmptyString => []
  end.

Definition byte (b : Z) : ascii := ascii_of_N (Z.to_N b).

Definition between (lo b hi : Z) : bool := (lo <=? b) && (b <=? hi).

(** The well-formed UTF-8 sequences of two, three and four bytes. *)
Definition wellFormed2 (b1 b2 : Z) : bool :=
  between 194 b1 223 && between 128 b2 191.

Definition wellFormed3 (b1 b2 b3 : Z) : bool :=
  ((b1 =? 224) && between 160 b2 191
   || between 225 b1 236 && between 128 b2 191
   || (b1 =? 237) && between 128 b2 159
   || between 238 b1 239 && between 128 b2 191)
  && between 128 b3 191.

Definition wellFormed4 (b1 b2 b3 b4 : Z) : bool :=
  ((b1 =? 240) && between 144 b2 191
   || between 241 b1 243 && between 128 b2 191
   || (b1 =? 244) && between 128 b2 143)
  && between 128 b3 191 && between 128 b4 191.

Fixpoint decodeTokens (l : list Token) : option string :=
  match l with
  | [] => Some EmptyString
  | plain c :: rest => option_map (String c) (decodeTokens rest)
  | broken :: _ => None
  | escaped b1 :: rest =>
      if b1 <? 128 then option_map (String (byte b1)) (decodeTokens rest)
      else
        match rest with
        | escaped b2 :: rest2 =>
            if wellFormed2 b1 b2 then
              option_map (fun s => String (byte b1) (String (byte b2) s))
                (decodeTokens rest2)
            else
              match rest2 with
              | escaped b3 :: rest3 =>
                  if wellFormed3 b1 b2 b3 then
                    option_map
                      (fun s =>
                         String (byte b1)
                           (String (byte b2) (String (byte b3) s)))
                      (decodeTokens rest3)
                  else
                    match rest3 with
                    | escaped b4 :: rest4 =>
                        if wellFormed4 b1 b2 b3 b4 then
                          option_map
                            (fun s =>
                               String (byte b1)
                                 (String (byte b2)
                                    (String (byte b3)
                                       (String (byte b4) s))))
                            (decodeTokens rest4)
                        else None
                    | _ => None
                    end
              | _ => None
              end
        | _ => None
        end
  end.

Definition decodeURIComponent (s : string) : option string :=
  decodeTokens (tokens s).

(** A path as URLs have them: ASCII only. *)
Definition isAscii (s : string) : bool :=
  forallb (fun c => code c <? 128) (list_ascii_of_string s).

(** What the parameters of a pattern take from a path, as sent; [None]
    when the path does not match the pattern. *)
Fixpoint captures (caseSensitive : bool) (pattern path : list string)
  : option (list (string * string)) :=
  match pattern, path with
  | [], [] => Some []
  | p :: pattern', s :: path' =>
      match p with
      | String ":" name =>
          if String.eqb s "" then None
          else
            option_map (cons (name, s))
              (captures caseSensitive pattern' path')
      | _ =>
          if sameLiteral caseSensitive p s
          then captures caseSensitive pattern' path'
          else None
      end
  | _, _ => None
  end.

(** The outcome of trying one route: no match; a path that matches with a
    parameter that cannot be decoded; or a match with [req.params]. *)
Inductive Matched : Type :=
| noMatch
| undecodable
| matched (params : list (string * string)).

Fixpoint decodeParams (taken : list (string * string))
  : option (list (string * string)) :=
  match taken with
  | [] => Some []
  | (name, value) :: rest =>
      match decodeURIComponent value, decodeParams rest with
      | Some decoded, Some rest' => Some ((name, decoded) :: rest')
      | _, _ => None
      end
  end.

Definition Route : Type := string * string.

(** A route takes the requests of its own method, and a GET route those of
    HEAD too. *)
Definition handles (route : Route) (method : string) : bool :=
  String.eqb (fst route) method
  || (String.eqb (fst route) "GET" && String.eqb method "HEAD").

Definition matchRoute (caseSensitive strict : bool) (method path : string)
  (route : Route) : Matched :=
  match segmentsOf true (snd route), segmentsOf strict path with
  | Some pattern, Some segments =>
      match captures caseSensitive pattern segments with
      | Some taken =>
          match decodeParams taken with
          | Some params =>
              if handles route method then matched params else noMatch
          | None => undecodable
          end
      | None => noMatch
      end
  | _, _ => noMatch
  end.

(** The routes of [registerRoutes], in the order of their registration. *)
Definition routes : list Route :=
  [ ("GET", "/api/health");
    ("GET", "/api/professionals");
    ("GET", "/api/professionals/:id");
    ("GET", "/api/professionals/jurisdiction/:jurisdiction");
    ("GET", "/api/professionals/type/:type");
    ("POST", "/api/professionals");
    ("PUT", "/api/professionals/:id");
    ("DELETE", "/api/professionals/:id");
    ("GET", "/api/jurisdictions");
    ("GET", "/api/jurisdictions/:id");
    ("POST", "/api/jurisdictions");
    ("PUT", "/api/jurisdictions/:id");
    ("DELETE", "/api/jurisdictions/:id");
    ("GET", "/api/hearings");
    ("GET", "/api/hearings/:id");
    ("GET", "/api/hearings/date/:date");
    ("GET", "/api/hearings/professional/:id");
    ("GET", "/api/hearings/jurisdiction/:id");
    ("GET", "/api/hearings/status/:status");
    ("GET", "/api/hearings/upcoming");
    ("GET", "/api/hearings/pending-assignment");
    ("POST", "/api/hearings");
    ("PUT", "/api/hearings/:id");
    ("DELETE", "/api/hearings/:id");
    ("POST", "/api/hearings/:id/minutes");
    ("GET", "/api/payments");
    ("GET", "/api/payments/:id");
    ("GET", "/api/payments/professional/:id");
    ("GET", "/api/payments/status/:status");
    ("POST", "/api/payments");
    ("PUT", "/api/payments/:id");
    ("DELETE", "/api/payments/:id");
    ("GET", "/api/tasks");
    ("GET", "/api/tasks/:id");
    ("GET", "/api/tasks/status/:status");
    ("GET", "/api/tasks/type/:type");
    ("POST", "/api/tasks");
    ("PUT", "/api/tasks/:id");
    ("DELETE", "/api/tasks/:id");
    ("GET", "/api/stats/hearings");
    ("GET", "/api/stats/financial") ].

(** What becomes of a request: no route matches; a parameter cannot be
    decoded, so that Express raises its error of status 400 and no handler
    of [routes.ts] runs; or the handler of a route runs, with these
    parameters. *)
Inductive Served : Type :=
| noHandler
| paramError
| handledBy (route : Route) (params : list (string * string)).

Fixpoint firstMatch (caseSensitive strict : bool) (method path : string)
  (l : list Route) : Served :=
  match l with
  | [] => noHandler
  | route :: rest =>
      match matchRoute caseSensitive strict method path route with
      | matched params => handledBy route params
      | undecodable => paramError
      | noMatch => firstMatch caseSensitive strict method path rest
      end
  end.

Definition dispatch (caseSensitive strict : bool) (method path : string)
  : Served :=
  firstMatch caseSensitive strict method path routes.

(** [GET /api/hearings/:id]; [id] is [req.params.id]. *)
Definition getHearingById (id : string) (this : store)
  : Response Hearing.t :=
  match parseInt id with
  | None => error 400 "Invalid ID"
  | Some id =>
      match getHearing id this with
      | None => error 404 "Hearing not found"
      | Some hearing => json 200 hearing
      end
  end.


(** ** The financial summary of the dashboard

    [filterPaymentsByPeriod] of the dashboard's [FinancialSummary] card.
    [payments] is the result of the payments query, [None] while it has no
    data; a payment's [createdAt] comes back from JSON as the same instant;
    [tz] is the browser's time zone. *)

Definition cutoffDate (tz : TimeZone.t) (period : string) (now : Z) : Z :=
  if String.eqb period "week" then setDate tz now (getDate tz now - 7)
  else if String.eqb period "month" then
    setMonth tz now (getMonth tz now - 1)
  else setFullYear tz now (getFullYear tz now - 1).

(** [list.sort((a, b) => dateB.getTime() - dateA.getTime())]: the newer
    payment first and, the sort being stable, payments of one instant in the
    order they had.  [newerFirst p sorted] puts [p], which stood before all
    of [sorted], in its place. *)
Fixpoint newerFirst (p : Payment.t) (sorted : list Payment.t)
  : list Payment.t :=
  match sorted with
  | [] => [p]
  | q :: rest =>
      if Payment.createdAt q <=? Payment.createdAt p then p :: q :: rest
      else q :: newerFirst p rest
  end.

(** [a] was created no earlier than [b]. *)
Definition newerOrSame (a b : Payment.t) : Prop :=
  Payment.createdAt b <= Payment.createdAt a.

Definition sortNewerFirst (l : list Payment.t) : list Payment.t :=
  fold_right newerFirst [] l.

Definition filterPaymentsByPeriod (tz : TimeZone.t)
  (payments : option (list Payment.t)) (period : string) (now : Z)
  : list Payment.t :=
  match payments with
  | None => []
  | Some payments =>
      firstn 5
        (sortNewerFirst
           (filter (fun payment => cutoffDate tz period now
                                   <=? Payment.createdAt payment)
              payments))
  end.


(** ** The calendar page

    [navigateToPrev] and [navigateToNext] of [CalendarPage]; each returns
    the date handed to [setCurrentDate]; [tz] is the browser's time zone. *)

Definition navigateToPrev (tz : TimeZone.t) (view : string)
  (currentDate : Z) : Z :=
  if String.eqb view "month" then
    setMonth tz currentDate (getMonth tz currentDate - 1)
  else if String.eqb view "week" then
    setDate tz currentDate (getDate tz currentDate - 7)
  else setDate tz currentDate (getDate tz currentDate - 1).

Definition navigateToNext (tz : TimeZone.t) (view : string)
  (currentDate : Z) : Z :=
  if String.eqb view "month" then
    setMonth tz currentDate (getMonth tz currentDate + 1)
  else if String.eqb view "week" then
    setDate tz currentDate (getDate tz currentDate + 7)
  else setDate tz currentDate (getDate tz currentDate + 1).

(** A zone that keeps one offset, and the zone of Lisbon in 2023: an hour
    ahead of UTC from 26 March, 01:00 UTC, until 29 October, 01:00 UTC; a
    local time value that the change skips is read with the offset before
    the change, and one that it repeats with the earlier of its two
    offsets. *)
Definition fixedZone (offset : Z) : TimeZone.t :=
  TimeZone.mk (fun _ => offset) (fun _ => offset).

Definition msPerHour : Z := 3600000.

Definition lisbon2023 : TimeZone.t :=
  TimeZone.mk
    (fun t =>
       if (1679792400000 <=? t) && (t <? 1698541200000) then msPerHour
       else 0)
    (fun local =>
       if (1679792400000 + msPerHour <=? local)
          && (local <? 1698541200000 + msPerHour)
       then msPerHour else 0).

(** The zone's offsets never exceed [bound] either way. *)
Definition offsetsWithin (bound : Z) (tz : TimeZone.t) : Prop :=
  forall t,
    - bound <= TimeZone.utcOffset tz t <= bound
    /\ - bound <= TimeZone.localOffset tz t <= bound.

(** The zone reads the local time value [local] with the offset it has at
    the instant [t]. *)
Definition sameOffset (tz : TimeZone.t) (t local : Z) : Prop :=
  TimeZone.localOffset tz local = TimeZone.utcOffset tz t.

(** The number of days of the month after the one [t] falls in. *)
Definition daysOfMonthAfter (t : Z) : Z :=
  let m := MonthFromTime t in
  if m =? 11 then 31 else DaysInMonth (m + 1) (InLeapYear (YearFromTime t)).

(** Months counted from January of the year 0: the month [t] falls in, the
    day number of a month's first day, and a month's length. *)
Definition monthIndex (t : Z) : Z := 12 * YearFromTime t + MonthFromTime t.

Definition firstDay (M : Z) : Z := MakeDay 0 M 1.

Definition monthLength (M : Z) : Z :=
  DaysInMonth (M mod 12) (InLeapYear (M / 12)).


(** ** The payments page

    [calculateTotals] of [PaymentsPage]; [payments] is the result of the
    payments query, [None] while it has no data. *)

Module Totals.
Record t : Type := mk
  { total : float;
    pending : float;
    processing : float;
    paid : float }.
End Totals.

Definition calculateTotals (payments : option (list Payment.t)) : Totals.t :=
  match payments with
  | None => Totals.mk 0%float 0%float 0%float 0%float
  | Some payments =>
      let total := sumAmounts payments in
      let pending := sumAmounts (filter (hasStatus "pending") payments) in
      let processing :=
        sumAmounts (filter (hasStatus "processing") payments) in
      let paid := sumAmounts (filter (hasStatus "paid") payments) in
      Totals.mk total pending processing paid
  end.

(** ** The reports page

    [prepareProfessionalActivityData] and [prepareJurisdictionActivityData]
    of the reports page; each argument is the result of a query, [None]
    while it has no data. *)

Module ProfessionalActivity.
Record t : Type := mk
  { id : Z;
    name : string;
    completed : Z;
    assigned : Z;
    total : Z }.
End ProfessionalActivity.

Module JurisdictionActivity.
Record t : Type := mk
  { id : Z;
    name : string;
    location : string;
    count : Z }.
End JurisdictionActivity.

(** [rows.sort((a, b) => key(b) - key(a))]: the larger key first and, the
    sort being stable, rows of one key in the order they had.
    [insertDescending key x sorted] puts [x], which stood before all of
    [sorted], in its place. *)
Fixpoint insertDescending {A : Type} (key : A -> Z) (x : A) (sorted : list A)
  : list A :=
  match sorted with
  | [] => [x]
  | y :: rest =>
      if key y <=? key x then x :: y :: rest
      else y :: insertDescending key x rest
  end.

Definition sortDescending {A : Type} (key : A -> Z) (l : list A) : list A :=
  fold_right (insertDescending key) [] l.

(** [a] stands before [b] in a descending order of the key. *)
Definition descending {A : Type} (key : A -> Z) (a b : A) : Prop :=
  key b <= key a.

Definition worksOn (pro : Professional.t) (status : string) (h : Hearing.t)
  : bool :=
  same_id (Hearing.professionalId h) (Professional.id pro)
  && same_string (Hearing.status h) (Some status).

Definition professionalActivity (hearings : list Hearing.t)
  (pro : Professional.t) : ProfessionalActivity.t :=
  let completed := countIf (worksOn pro "completed") hearings in
  let assigned := countIf (worksOn pro "assigned") hearings in
  ProfessionalActivity.mk (Professional.id pro) (Professional.name pro)
    completed assigned (completed + assigned).

Definition prepareProfessionalActivityData
  (hearings : option (list Hearing.t))
  (professionals : option (list Professional.t))
  : list ProfessionalActivity.t :=
  match hearings, professionals with
  | Some hearings, Some professionals =>
      let professionalHearings :=
        map (professionalActivity hearings) professionals in
      firstn 10
        (sortDescending ProfessionalActivity.total professionalHearings)
  | _, _ => []
  end.

Definition heldIn (jur : Jurisdiction.t) (h : Hearing.t) : bool :=
  Hearing.jurisdictionId h =? Jurisdiction.id jur.

Definition jurisdictionActivity (hearings : list Hearing.t)
  (jur : Jurisdiction.t) : JurisdictionActivity.t :=
  let count := countIf (heldIn jur) hearings in
  JurisdictionActivity.mk (Jurisdiction.id jur) (Jurisdiction.name jur)
    (String.append (Jurisdiction.city jur)
       (String.append ", " (Jurisdiction.state jur)))
    count.

Definition prepareJurisdictionActivityData
  (hearings : option (list Hearing.t))
  (jurisdictions : option (list Jurisdiction.t))
  : list JurisdictionActivity.t :=
  match hearings, jurisdictions with
  | Some hearings, Some jurisdictions =>
      let jurisdictionCounts :=
        map (jurisdictionActivity hearings) jurisdictions in
      firstn 5 (sortDescending JurisdictionActivity.count jurisdictionCounts)
  | _, _ => []
  end.

(** The sum of a list of counts. *)
Definition sumZ (l : list Z) : Z := fold_right Z.add 0 l.


(** Two worked clocks.  The evening of 31 May 2023 in São Paulo, three
    hours behind UTC (1 June, 01:00 UTC), with payments created on 1 May at
    12:00 UTC, on 2 May at 01:00 UTC and on 25 May at 01:30 UTC; and noon UTC
    of 29 March 2023, three days after Lisbon went an hour ahead, with one
    payment created on 22 March at 12:30 UTC. *)
Definition saoPaulo : TimeZone.t := fixedZone (-3 * msPerHour).

Definition monthEnd : Z := 1685581200000.

Definition monthEndStore : store :=
  let this :=
    fst (createPayment
           (InsertPayment.mk 1 1 100%float (Some "paid") None None)
           1682942400000 demoStore) in
  let this :=
    fst (createPayment
           (InsertPayment.mk 2 2 50%float (Some "pending") None None)
           1682989200000 this) in
  fst (createPayment (InsertPayment.mk 3 3 25%float (Some "pending") None None)
         1684978200000 this).

Definition afterSpringForward : Z := 1680091200000.



(** The zone has the local time value [local]: the instant it is read as
    shows it again.  And the zone reads the local time of the instant [t]
    as [t]. *)
Definition readsBack (tz : TimeZone.t) (local : Z) : Prop :=
  LocalTime tz (UTC tz local) = local.

Definition atHome (tz : TimeZone.t) (t : Z) : Prop :=
  UTC tz (LocalTime tz t) = t.

(** * Facts *)

(** ** Maps *)

Section JsMapFacts.

Variable V : Type.
Implicit Types (m : JsMap.t V) (k : Z) (v : V).

Lemma get_set_same k v m : JsMap.get k (JsMap.set k v m) = Some v.
Proof.
  induction m as [|[k' v'] rest IH]; simpl.
  - now rewrite Z.eqb_refl.
  - destruct (k' =? k) eqn:E; simpl.
    + now rewrite Z.eqb_refl.
    + now rewrite E.
Qed.

Lemma get_set_other k k' v m :
  k' <> k -> JsMap.get k' (JsMap.set k v m) = JsMap.get k' m.
Proof.
  intros Hne.
  induction m as [|[k0 v0] rest IH]; simpl.
  - destruct (k =? k') eqn:E; [apply Z.eqb_eq in E; congruence | reflexivity].
  - destruct (k0 =? k) eqn:E; simpl.
    + apply Z.eqb_eq in E; subst k0.
      destruct (k =? k') eqn:E'; [apply Z.eqb_eq in E'; congruence|].
      reflexivity.
    + now rewrite IH.
Qed.

Lemma get_remove_same k m : JsMap.get k (JsMap.remove k m) = None.
Proof.
  unfold JsMap.remove.
  induction m as [|[k' v'] rest IH]; simpl; [reflexivity|].
  destruct (k' =? k) eqn:E; simpl; [assumption|].
  now rewrite E.
Qed.

Lemma get_remove_other k k' m :
  k' <> k -> JsMap.get k' (JsMap.remove k m) = JsMap.get k' m.
Proof.
  intros Hne. unfold JsMap.remove.
  induction m as [|[k0 v0] rest IH]; simpl; [reflexivity|].
  destruct (k0 =? k) eqn:E; simpl.
  - apply Z.eqb_eq in E; subst k0.
    destruct (k =? k') eqn:E'; [apply Z.eqb_eq in E'; congruence|].
    assumption.
  - now rewrite IH.
Qed.

Lemma has_true_iff k m : JsMap.has k m = true <-> JsMap.get k m <> None.
Proof.
  unfold JsMap.has. destruct (JsMap.get k m); split; congruence.
Qed.

Lemma get_In k v m : JsMap.get k m = Some v -> In (k, v) m.
Proof.
  induction m as [|[k' v'] rest IH]; simpl; [discriminate|].
  destruct (k' =? k) eqn:E.
  - apply Z.eqb_eq in E. intros [= ->]. left. now subst.
  - intros H. right. now apply IH.
Qed.

Lemma get_None_keys k m : JsMap.get k m = None <-> ~ In k (JsMap.keys m).
Proof.
  induction m as [|[k' v'] rest IH]; simpl.
  - tauto.
  - destruct (k' =? k) eqn:E.
    + apply Z.eqb_eq in E. split; [discriminate | tauto].
    + apply Z.eqb_neq in E. rewrite IH. tauto.
Qed.

Lemma In_get k v m :
  NoDup (JsMap.keys m) -> In (k, v) m -> JsMap.get k m = Some v.
Proof.
  induction m as [|[k' v'] rest IH]; simpl; [tauto|].
  intros Hnd [H|H]; inversion Hnd as [|? ? Hnotin Hnd']; subst.
  - injection H as -> ->. now rewrite Z.eqb_refl.
  - destruct (k' =? k) eqn:E.
    + apply Z.eqb_eq in E; subst k'. exfalso. apply Hnotin.
      unfold JsMap.keys. change k with (fst (k, v)). now apply in_map.
    + now apply IH.
Qed.

(** Writing under a key that is present replaces the entry where it
    stands. *)
Lemma set_split k v v0 (l1 l2 : JsMap.t V) :
  ~ In k (JsMap.keys l1) ->
  JsMap.set k v (l1 ++ (k, v0) :: l2) = l1 ++ (k, v) :: l2.
Proof.
  induction l1 as [|[k' v'] rest IH]; simpl; intros Hnotin.
  - now rewrite Z.eqb_refl.
  - destruct (k' =? k) eqn:E.
    + apply Z.eqb_eq in E. tauto.
    + f_equal. apply IH. tauto.
Qed.

(** Writing under a new key appends. *)
Lemma set_absent k v m :
  JsMap.get k m = None -> JsMap.set k v m = m ++ [(k, v)].
Proof.
  induction m as [|[k' v'] rest IH]; simpl; [reflexivity|].
  destruct (k' =? k); [discriminate|].
  intros H. f_equal. now apply IH.
Qed.

Lemma set_present_keys k v m :
  JsMap.get k m <> None -> JsMap.keys (JsMap.set k v m) = JsMap.keys m.
Proof.
  induction m as [|[k' v'] rest IH]; simpl; [congruence|].
  destruct (k' =? k) eqn:E; simpl.
  - apply Z.eqb_eq in E. now subst.
  - intros H. f_equal. now apply IH.
Qed.

(** Writing back what is already there changes nothing. *)
Lemma set_same_value k v m :
  JsMap.get k m = Some v -> JsMap.set k v m = m.
Proof.
  induction m as [|[k' v'] rest IH]; simpl; [discriminate|].
  destruct (k' =? k) eqn:E.
  - apply Z.eqb_eq in E. intros [= ->]. now subst.
  - intros H. f_equal. now apply IH.
Qed.

Lemma set_set k v v' m :
  JsMap.set k v (JsMap.set k v' m) = JsMap.set k v m.
Proof.
  induction m as [|[k0 v0] rest IH]; simpl.
  - now rewrite Z.eqb_refl.
  - destruct (k0 =? k) eqn:E; simpl.
    + now rewrite Z.eqb_refl.
    + rewrite E. now f_equal.
Qed.

Lemma In_set k v m k' v' :
  In (k', v') (JsMap.set k v m) -> (k' = k /\ v' = v) \/ In (k', v') m.
Proof.
  induction m as [|[k0 v0] rest IH]; simpl.
  - intros [[= <- <-]|[]]. now left.
  - destruct (k0 =? k) eqn:E; simpl.
    + intros [[= <- <-]|H]; [now left | now right; right].
    + intros [H|H]; [now right; left|].
      destruct (IH H) as [?|?]; [now left | now right; right].
Qed.

Lemma In_remove k m k' v' :
  In (k', v') (JsMap.remove k m) -> In (k', v') m /\ k' <> k.
Proof.
  unfold JsMap.remove. rewrite filter_In. simpl.
  intros [H E]. split; [assumption|].
  destruct (k' =? k) eqn:E'; [discriminate | now apply Z.eqb_neq].
Qed.

Lemma NoDup_keys_set k v m :
  NoDup (JsMap.keys m) -> NoDup (JsMap.keys (JsMap.set k v m)).
Proof.
  intros Hnd.
  destruct (JsMap.get k m) eqn:G.
  - rewrite set_present_keys; [assumption | congruence].
  - rewrite set_absent by assumption.
    unfold JsMap.keys. rewrite map_app. simpl.
    apply NoDup_app; [assumption | repeat constructor; simpl; tauto |].
    intros x Hx [<-|[]]. now apply get_None_keys in G.
Qed.

Lemma NoDup_keys_remove k m :
  NoDup (JsMap.keys m) -> NoDup (JsMap.keys (JsMap.remove k m)).
Proof.
  unfold JsMap.remove, JsMap.keys.
  induction m as [|[k' v'] rest IH]; simpl; [trivial|].
  intros Hnd. inversion Hnd as [|? ? Hnotin Hnd']; subst.
  destruct (k' =? k); simpl; [now apply IH|].
  constructor; [|now apply IH].
  intros Hin. apply Hnotin.
  apply in_map_iff in Hin as [[k0 v0] [Hk Hin]]. simpl in Hk; subst k0.
  apply filter_In in Hin as [Hin _].
  change k' with (fst (k', v0)). now apply in_map.
Qed.

(** *** The invariant of one map *)

Variable idOf : V -> Z.

Lemma filed_empty c : 1 <= c -> filed idOf c JsMap.empty.
Proof.
  intros H. split; [assumption|]. split; [constructor | intros k v []].
Qed.

Lemma filed_get c m k v :
  filed idOf c m -> JsMap.get k m = Some v -> idOf v = k /\ 1 <= k < c.
Proof. intros (_ & _ & H) G. apply H. now apply get_In. Qed.

Lemma filed_fresh c m : filed idOf c m -> JsMap.get c m = None.
Proof.
  intros F. destruct (JsMap.get c m) eqn:G; [|reflexivity].
  apply (filed_get _ _ _ _ F) in G. lia.
Qed.

(** A create: the new entity goes under the counter, which then moves. *)
Lemma filed_create c m v :
  filed idOf c m -> idOf v = c -> filed idOf (c + 1) (JsMap.set c v m).
Proof.
  intros (Hc & Hnd & F) Hid. split; [lia|]. split.
  - now apply NoDup_keys_set.
  - intros k' v' Hin. apply In_set in Hin as [[-> ->]|Hin].
    + split; [assumption | lia].
    + specialize (F _ _ Hin). lia.
Qed.

(** An update that keeps the id. *)
Lemma filed_update c m k v0 v :
  filed idOf c m -> JsMap.get k m = Some v0 -> idOf v = idOf v0 ->
  filed idOf c (JsMap.set k v m).
Proof.
  intros F G Hid. pose proof (filed_get _ _ _ _ F G) as [Hk Hr].
  destruct F as (Hc & Hnd & F). split; [assumption|]. split.
  - now apply NoDup_keys_set.
  - intros k' v' Hin. apply In_set in Hin as [[-> ->]|Hin].
    + split; [congruence | assumption].
    + exact (F _ _ Hin).
Qed.

Lemma filed_remove c m k : filed idOf c m -> filed idOf c (JsMap.remove k m).
Proof.
  intros (Hc & Hnd & F). split; [assumption|]. split.
  - now apply NoDup_keys_remove.
  - intros k' v' Hin. apply In_remove in Hin as [Hin _].
    exact (F _ _ Hin).
Qed.

(** In a filed map, looking an id up among the values is reading the map:
    [values.find(v => v.id === k)] is [m.get(k)]. *)
Lemma filed_find c m k :
  filed idOf c m ->
  find (fun v => idOf v =? k) (JsMap.values m) = JsMap.get k m.
Proof.
  intros (_ & _ & F). unfold JsMap.values.
  induction m as [|[k' v'] rest IH]; simpl; [reflexivity|].
  assert (Hid : idOf v' = k') by (apply (F k' v'); now left).
  rewrite Hid. destruct (k' =? k); [reflexivity|].
  apply IH. intros k0 v0 Hin. apply F. now right.
Qed.

End JsMapFacts.

(** ** Deleting: no cascade *)

(** C8. [deleteJurisdiction j] answers [true] exactly when a jurisdiction
    was stored under [j]; afterwards [getJurisdiction j] is absent, the other
    jurisdictions are as before, and the hearings (those that refer to [j]
    included) and every other map and counter are untouched. *)
Theorem deleteJurisdiction_leaves_hearings (j : Z) (this : store) :
  let this' := fst (deleteJurisdiction j this) in
  (snd (deleteJurisdiction j this) = true <-> getJurisdiction j this <> None)
  /\ getJurisdiction j this' = None
  /\ (forall j', j' <> j -> getJurisdiction j' this' = getJurisdiction j' this)
  /\ MemStorage.hearings this' = MemStorage.hearings this
  /\ (forall h, getHearing h this' = getHearing h this)
  /\ getHearings this' = getHearings this
  /\ MemStorage.users this' = MemStorage.users this
  /\ MemStorage.professionals this' = MemStorage.professionals this
  /\ MemStorage.payments this' = MemStorage.payments this
  /\ MemStorage.tasks this' = MemStorage.tasks this.
Proof.
  simpl. repeat split; try reflexivity.
  - now apply has_true_iff.
  - now apply has_true_iff.
  - apply get_remove_same.
  - intros j' Hne. now apply get_remove_other.
Qed.

(** C10. [deletePayment id] removes the payment stored under [id] and
    nothing else: every hearing keeps all its fields, [paymentStatus] and
    [paymentAmount] included, and no task or other entity changes. *)
Theorem deletePayment_leaves_hearings (id : Z) (this : store) :
  let this' := fst (deletePayment id this) in
  getPayment id this' = None
  /\ (forall id', id' <> id -> getPayment id' this' = getPayment id' this)
  /\ MemStorage.hearings this' = MemStorage.hearings this
  /\ (forall p h,
        getPayment id this = Some p ->
        getHearing (Payment.hearingId p) this = Some h ->
        getHearing (Payment.hearingId p) this' = Some h)
  /\ MemStorage.tasks this' = MemStorage.tasks this
  /\ MemStorage.users this' = MemStorage.users this
  /\ MemStorage.professionals this' = MemStorage.professionals this
  /\ MemStorage.jurisdictions this' = MemStorage.jurisdictions this.
Proof.
  simpl. repeat split; try reflexivity.
  - apply get_remove_same.
  - intros id' Hne. now apply get_remove_other.
  - intros p h _ H. exact H.
Qed.

(** ** Updating: a shallow merge *)

Lemma spread_present (A : Type) (existing v : A) :
  spread existing (Some v) = v.
Proof. reflexivity. Qed.

Lemma spread_absent (A : Type) (existing : A) : spread existing None = existing.
Proof. reflexivity. Qed.

(** The hearing map after [writeBackHearing], read under the key of the
    hearing that was assigned to. *)
Lemma get_writeBackHearing_key key hearing m :
  JsMap.get key (writeBackHearing key hearing m) = Some hearing.
Proof.
  unfold writeBackHearing.
  destruct (Z.eq_dec key (Hearing.id hearing)) as [<-|Hne].
  - apply get_set_same.
  - rewrite get_set_other by assumption. apply get_set_same.
Qed.

(** When the hearing sits under its own id, writing it back is the
    assignment alone. *)
Lemma writeBackHearing_filed key hearing m :
  Hearing.id hearing = key ->
  writeBackHearing key hearing m = JsMap.set key hearing m.
Proof. unfold writeBackHearing. intros ->. apply set_set. Qed.

Lemma updatePayment_payments id payment this existing :
  getPayment id this = Some existing ->
  MemStorage.payments (fst (updatePayment id payment this))
  = JsMap.set id (spreadPayment existing payment) (MemStorage.payments this).
Proof.
  unfold getPayment, updatePayment. intros ->. simpl.
  destruct (truthy _ && _); [|reflexivity].
  destruct (JsMap.get _ _); reflexivity.
Qed.

(** C5. Every update method of the store ([updateProfessional],
    [updateJurisdiction], [updateHearing], [updatePayment], [updateTask]):
    on an id that is not stored it returns the absent value and the whole
    store is as before; on a stored id it returns, and stores under the same
    id, the existing entity with the properties that the partial object
    carries overwritten and every other property as it was: property by
    property, for each of the five entity types, the merged entity has the
    partial object's value where it carries one and the existing entity's
    value where it carries none. *)
Theorem update_is_shallow_merge :
  updateContract getProfessional updateProfessional spreadProfessional
  /\ updateContract getJurisdiction updateJurisdiction spreadJurisdiction
  /\ updateContract getHearing updateHearing spreadHearing
  /\ updateContract getPayment updatePayment spreadPayment
  /\ updateContract getTask updateTask spreadTask
  /\ (forall (A : Type) (existing v : A),
        spread existing (Some v) = v /\ spread existing None = existing)
  /\ (forall existing hearing,
        let merged := spreadHearing existing hearing in
        Hearing.id merged
        = spread (Hearing.id existing) (PartialHearing.id hearing)
        /\ Hearing.processNumber merged
           = spread (Hearing.processNumber existing)
               (PartialHearing.processNumber hearing)
        /\ Hearing.jurisdictionId merged
           = spread (Hearing.jurisdictionId existing)
               (PartialHearing.jurisdictionId hearing)
        /\ Hearing.date merged
           = spread (Hearing.date existing) (PartialHearing.date hearing)
        /\ Hearing.time merged
           = spread (Hearing.time existing) (PartialHearing.time hearing)
        /\ Hearing.type merged
           = spread (Hearing.type existing) (PartialHearing.type hearing)
        /\ Hearing.area merged
           = spread (Hearing.area existing) (PartialHearing.area hearing)
        /\ Hearing.professionalId merged
           = spread (Hearing.professionalId existing)
               (PartialHearing.professionalId hearing)
        /\ Hearing.status merged
           = spread (Hearing.status existing) (PartialHearing.status hearing)
        /\ Hearing.notes merged
           = spread (Hearing.notes existing) (PartialHearing.notes hearing)
        /\ Hearing.minutesUploaded merged
           = spread (Hearing.minutesUploaded existing)
               (PartialHearing.minutesUploaded hearing)
        /\ Hearing.minutesUrl merged
           = spread (Hearing.minutesUrl existing)
               (PartialHearing.minutesUrl hearing)
        /\ Hearing.paymentStatus merged
           = spread (Hearing.paymentStatus existing)
               (PartialHearing.paymentStatus hearing)
        /\ Hearing.paymentAmount merged
           = spread (Hearing.paymentAmount existing)
               (PartialHearing.paymentAmount hearing)
        /\ Hearing.createdAt merged
           = spread (Hearing.createdAt existing)
               (PartialHearing.createdAt hearing))
  /\ (forall existing professional,
        let merged := spreadProfessional existing professional in
        Professional.id merged
           = spread (Professional.id existing)
               (PartialProfessional.id professional)
        /\ Professional.name merged
           = spread (Professional.name existing)
               (PartialProfessional.name professional)
        /\ Professional.email merged
           = spread (Professional.email existing)
               (PartialProfessional.email professional)
        /\ Professional.phone merged
           = spread (Professional.phone existing)
               (PartialProfessional.phone professional)
        /\ Professional.type merged
           = spread (Professional.type existing)
               (PartialProfessional.type professional)
        /\ Professional.specialization merged
           = spread (Professional.specialization existing)
               (PartialProfessional.specialization professional)
        /\ Professional.jurisdictions merged
           = spread (Professional.jurisdictions existing)
               (PartialProfessional.jurisdictions professional)
        /\ Professional.userId merged
           = spread (Professional.userId existing)
               (PartialProfessional.userId professional)
        /\ Professional.active merged
           = spread (Professional.active existing)
               (PartialProfessional.active professional))
  /\ (forall existing jurisdiction,
        let merged := spreadJurisdiction existing jurisdiction in
        Jurisdiction.id merged
           = spread (Jurisdiction.id existing)
               (PartialJurisdiction.id jurisdiction)
        /\ Jurisdiction.name merged
           = spread (Jurisdiction.name existing)
               (PartialJurisdiction.name jurisdiction)
        /\ Jurisdiction.state merged
           = spread (Jurisdiction.state existing)
               (PartialJurisdiction.state jurisdiction)
        /\ Jurisdiction.city merged
           = spread (Jurisdiction.city existing)
               (PartialJurisdiction.city jurisdiction)
        /\ Jurisdiction.address merged
           = spread (Jurisdiction.address existing)
               (PartialJurisdiction.address jurisdiction))
  /\ (forall existing payment,
        let merged := spreadPayment existing payment in
        Payment.id merged
           = spread (Payment.id existing) (PartialPayment.id payment)
        /\ Payment.hearingId merged
           = spread (Payment.hearingId existing)
               (PartialPayment.hearingId payment)
        /\ Payment.professionalId merged
           = spread (Payment.professionalId existing)
               (PartialPayment.professionalId payment)
        /\ Payment.amount merged
           = spread (Payment.amount existing) (PartialPayment.amount payment)
        /\ Payment.status merged
           = spread (Payment.status existing) (PartialPayment.status payment)
        /\ Payment.paymentDate merged
           = spread (Payment.paymentDate existing)
               (PartialPayment.paymentDate payment)
        /\ Payment.notes merged
           = spread (Payment.notes existing) (PartialPayment.notes payment)
        /\ Payment.createdAt merged
           = spread (Payment.createdAt existing)
               (PartialPayment.createdAt payment))
  /\ (forall existing task,
        let merged := spreadTask existing task in
        Task.id merged
           = spread (Task.id existing) (PartialTask.id task)
        /\ Task.title merged
           = spread (Task.title existing) (PartialTask.title task)
        /\ Task.description merged
           = spread (Task.description existing) (PartialTask.description task)
        /\ Task.status merged
           = spread (Task.status existing) (PartialTask.status task)
        /\ Task.type merged
           = spread (Task.type existing) (PartialTask.type task)
        /\ Task.relatedId merged
           = spread (Task.relatedId existing) (PartialTask.relatedId task)
        /\ Task.dueDate merged
           = spread (Task.dueDate existing) (PartialTask.dueDate task)
        /\ Task.createdAt merged
           = spread (Task.createdAt existing) (PartialTask.createdAt task)).
Proof.
  repeat apply conj.
  - intros id p this. unfold getProfessional, updateProfessional.
    destruct (JsMap.get id (MemStorage.professionals this)) eqn:G;
      [|reflexivity].
    simpl. repeat split.
    + apply get_set_same.
    + intros id' Hne. now apply get_set_other.
  - intros id p this. unfold getJurisdiction, updateJurisdiction.
    destruct (JsMap.get id (MemStorage.jurisdictions this)) eqn:G;
      [|reflexivity].
    simpl. repeat split.
    + apply get_set_same.
    + intros id' Hne. now apply get_set_other.
  - intros id p this. unfold getHearing, updateHearing.
    destruct (JsMap.get id (MemStorage.hearings this)) eqn:G; [|reflexivity].
    simpl. repeat split.
    + apply get_set_same.
    + intros id' Hne. now apply get_set_other.
  - intros id p this.
    destruct (getPayment id this) as [existing|] eqn:G.
    + unfold getPayment at 1 2.
      rewrite (updatePayment_payments _ _ _ _ G).
      repeat split.
      * unfold updatePayment. unfold getPayment in G. now rewrite G.
      * apply get_set_same.
      * intros id' Hne. now apply get_set_other.
    + unfold updatePayment. unfold getPayment in G. now rewrite G.
  - intros id p this. unfold getTask, updateTask.
    destruct (JsMap.get id (MemStorage.tasks this)) eqn:G; [|reflexivity].
    simpl. repeat split.
    + apply get_set_same.
    + intros id' Hne. now apply get_set_other.
  - intros A existing v. split; reflexivity.
  - intros existing hearing. simpl. repeat split.
  - intros existing professional. simpl. repeat split.
  - intros existing jurisdiction. simpl. repeat split.
  - intros existing payment. simpl. repeat split.
  - intros existing task. simpl. repeat split.
Qed.

(** ** Creating a payment *)

(** C2. [createPayment] stores the new payment under the value of the
    payment counter, stamped with the clock, whether or not the hearing it
    names exists; in a well-filed store that id is not in use.  When the
    hearing exists it afterwards carries the payment's status and amount,
    with every other field as before; when it does not, no hearing
    changes. *)
Theorem createPayment_syncs_hearing
  (payment : InsertPayment.t) (now : Z) (this : store) :
  let id := MemStorage.paymentIdCounter this in
  let this' := fst (createPayment payment now this) in
  let newPayment :=
    Payment.mk id (InsertPayment.hearingId payment)
      (InsertPayment.professionalId payment) (InsertPayment.amount payment)
      (InsertPayment.status payment) (InsertPayment.paymentDate payment)
      (InsertPayment.notes payment) now in
  snd (createPayment payment now this) = newPayment
  /\ getPayment id this' = Some newPayment
  /\ (forall id', id' <> id -> getPayment id' this' = getPayment id' this)
  /\ MemStorage.paymentIdCounter this' = id + 1
  /\ (wellFiled this ->
      getPayment id this = None
      /\ forall id' p, getPayment id' this = Some p -> id' < id)
  /\ (forall hearing,
        getHearing (InsertPayment.hearingId payment) this = Some hearing ->
        getHearing (InsertPayment.hearingId payment) this'
        = Some
            (Hearing.mk (Hearing.id hearing) (Hearing.processNumber hearing)
               (Hearing.jurisdictionId hearing) (Hearing.date hearing)
               (Hearing.time hearing) (Hearing.type hearing)
               (Hearing.area hearing) (Hearing.professionalId hearing)
               (Hearing.status hearing) (Hearing.notes hearing)
               (Hearing.minutesUploaded hearing) (Hearing.minutesUrl hearing)
               (InsertPayment.status payment)
               (Some (InsertPayment.amount payment))
               (Hearing.createdAt hearing)))
  /\ (getHearing (InsertPayment.hearingId payment) this = None ->
      MemStorage.hearings this' = MemStorage.hearings this).
Proof.
  unfold getPayment, getHearing, createPayment. simpl.
  set (h := InsertPayment.hearingId payment).
  assert (Hp : forall s,
             MemStorage.payments
               match JsMap.get h (MemStorage.hearings this) with
               | Some hearing =>
                   MemStorage.set_hearings s
                     (writeBackHearing h
                        (assign_paymentAmount
                           (assign_paymentStatus hearing
                              (InsertPayment.status payment))
                           (Some (InsertPayment.amount payment)))
                        (MemStorage.hearings this))
                     (MemStorage.hearingIdCounter this)
               | None => s
               end = MemStorage.payments s).
  { intros s. destruct (JsMap.get h (MemStorage.hearings this)); reflexivity. }
  repeat split.
  - rewrite Hp. simpl. apply get_set_same.
  - intros id' Hne. rewrite Hp. simpl. now apply get_set_other.
  - destruct (JsMap.get h (MemStorage.hearings this)); reflexivity.
  - destruct H as (_ & _ & _ & _ & F & _). now apply filed_fresh in F.
  - intros id' p G. destruct H as (_ & _ & _ & _ & F & _).
    apply (filed_get _ _ _ _ _ _ F) in G. lia.
  - intros hearing G. rewrite G. simpl. apply get_writeBackHearing_key.
  - intros G. now rewrite G.
Qed.

(** ** Updating a payment *)

Lemma updatePayment_unfold id payment this existing :
  getPayment id this = Some existing ->
  let this1 :=
    MemStorage.set_payments this
      (JsMap.set id (spreadPayment existing payment)
         (MemStorage.payments this))
      (MemStorage.paymentIdCounter this) in
  let status := prop (PartialPayment.status payment) in
  fst (updatePayment id payment this)
  = if truthy status && negb (same_string (Payment.status existing) status)
    then
      match getHearing (Payment.hearingId existing) this with
      | Some hearing =>
          MemStorage.set_hearings this1
            (writeBackHearing (Payment.hearingId existing)
               (assign_paymentStatus hearing status)
               (MemStorage.hearings this))
            (MemStorage.hearingIdCounter this)
      | None => this1
      end
    else this1.
Proof.
  unfold getPayment, getHearing, updatePayment. intros ->. simpl.
  destruct (truthy _ && _); reflexivity.
Qed.

Lemma same_string_true a b : same_string a b = true <-> a = b.
Proof.
  destruct a as [x|], b as [y|]; simpl; try (split; congruence).
  rewrite String.eqb_eq. split; congruence.
Qed.

Lemma truthy_Some s : truthy (Some s) = true <-> s <> "".
Proof.
  simpl. rewrite negb_true_iff. split.
  - intros E ->. discriminate.
  - intros H. destruct (String.eqb s "") eqn:E; [|reflexivity].
    apply String.eqb_eq in E. contradiction.
Qed.

(** The test of [updatePayment]: the partial object carries a non-empty
    status that differs from the stored one. *)
Lemma status_changes existing s :
  s <> "" -> Some s <> Payment.status existing ->
  truthy (Some s) && negb (same_string (Payment.status existing) (Some s))
  = true.
Proof.
  intros Hs Hne. apply andb_true_intro. split.
  - now apply truthy_Some.
  - apply negb_true_iff.
    destruct (same_string (Payment.status existing) (Some s)) eqn:E;
      [|reflexivity].
    apply same_string_true in E. congruence.
Qed.

Lemma putPayment_store id payment this :
  fst (putPayment (Some id) (inr payment) this)
  = fst (updatePayment id payment this).
Proof.
  unfold putPayment.
  destruct (updatePayment id payment this) as [s [p|]]; reflexivity.
Qed.

(** C6, as the code has it.  For a stored payment and a partial update:
    a status that is carried, is not the empty string and differs from the
    stored one is written to the [paymentStatus] of the hearing the stored
    payment names, when that hearing exists, and that hearing's other fields,
    [paymentAmount] included, stay; with no status (the property absent or
    undefined) or with the stored status, the hearing map is untouched; in a
    well-filed store no hearing's [paymentAmount] changes; and the tasks are
    never touched, by the method or by the [PUT /api/payments/:id] handler,
    which does nothing more than call the method. *)
Theorem updatePayment_propagates_status
  (id : Z) (payment : PartialPayment.t) (this : store) (existing : Payment.t) :
  getPayment id this = Some existing ->
  let this' := fst (updatePayment id payment this) in
  let h := Payment.hearingId existing in
  (forall s hearing,
      PartialPayment.status payment = Some (Some s) ->
      s <> "" ->
      Some s <> Payment.status existing ->
      getHearing h this = Some hearing ->
      getHearing h this'
      = Some
          (Hearing.mk (Hearing.id hearing) (Hearing.processNumber hearing)
             (Hearing.jurisdictionId hearing) (Hearing.date hearing)
             (Hearing.time hearing) (Hearing.type hearing)
             (Hearing.area hearing) (Hearing.professionalId hearing)
             (Hearing.status hearing) (Hearing.notes hearing)
             (Hearing.minutesUploaded hearing) (Hearing.minutesUrl hearing)
             (Some s) (Hearing.paymentAmount hearing)
             (Hearing.createdAt hearing)))
  /\ (getHearing h this = None ->
      MemStorage.hearings this' = MemStorage.hearings this)
  /\ (PartialPayment.status payment = None
      \/ PartialPayment.status payment = Some None
      \/ PartialPayment.status payment = Some (Payment.status existing) ->
      MemStorage.hearings this' = MemStorage.hearings this)
  /\ (forall hearing,
        getHearing h this = Some hearing ->
        option_map Hearing.paymentAmount (getHearing h this')
        = Some (Hearing.paymentAmount hearing))
  /\ (wellFiled this ->
      forall k,
        option_map Hearing.paymentAmount (getHearing k this')
        = option_map Hearing.paymentAmount (getHearing k this))
  /\ MemStorage.tasks this' = MemStorage.tasks this
  /\ fst (putPayment (Some id) (inr payment) this) = this'.
Proof.
  intros G. cbv zeta. rewrite putPayment_store.
  rewrite (updatePayment_unfold _ payment _ _ G). cbv zeta.
  set (status := prop (PartialPayment.status payment)).
  set (h := Payment.hearingId existing).
  repeat split.
  - intros s hearing Hs Hne Hdiff Gh.
    unfold status. rewrite Hs. simpl prop.
    rewrite (status_changes _ _ Hne Hdiff), Gh.
    unfold getHearing. simpl. apply get_writeBackHearing_key.
  - intros Gh. rewrite Gh. destruct (truthy status && _); reflexivity.
  - intros [Hs|[Hs|Hs]]; unfold status; rewrite Hs; simpl prop.
    + reflexivity.
    + reflexivity.
    + replace (same_string (Payment.status existing) (Payment.status existing))
        with true by (symmetry; now apply same_string_true).
      rewrite andb_false_r. reflexivity.
  - intros hearing Gh. rewrite Gh.
    destruct (truthy status && _).
    + unfold getHearing. simpl. now rewrite get_writeBackHearing_key.
    + unfold getHearing in *. simpl. now rewrite Gh.
  - intros W k. destruct W as (_ & _ & _ & F & _).
    destruct (truthy status && _); [|reflexivity].
    destruct (getHearing h this) as [hearing|] eqn:Gh; [|reflexivity].
    unfold getHearing in *. simpl.
    rewrite writeBackHearing_filed
      by (simpl; apply (filed_get _ _ _ _ _ _ F Gh)).
    destruct (Z.eq_dec k h) as [->|Hne].
    + now rewrite get_set_same, Gh.
    + now rewrite get_set_other.
  - destruct (truthy status && _); [|reflexivity].
    destruct (getHearing h this); reflexivity.
Qed.

(** C9, as the code has it.  An update of a stored payment that names
    another hearing and carries a status that is not the empty string and
    differs from the stored one writes that status to the hearing the payment
    named before the update, when it exists, and, in a well-filed store,
    leaves the hearing the payment names afterwards as it was. *)
Theorem updatePayment_targets_stored_hearing
  (id : Z) (payment : PartialPayment.t) (this : store) (existing : Payment.t)
  (newHearingId : Z) (s : string) :
  getPayment id this = Some existing ->
  PartialPayment.hearingId payment = Some newHearingId ->
  newHearingId <> Payment.hearingId existing ->
  PartialPayment.status payment = Some (Some s) ->
  s <> "" ->
  Some s <> Payment.status existing ->
  let this' := fst (updatePayment id payment this) in
  option_map Payment.hearingId (getPayment id this') = Some newHearingId
  /\ option_map Payment.status (getPayment id this') = Some (Some s)
  /\ getHearing (Payment.hearingId existing) this'
     = option_map
         (fun hearing =>
            Hearing.mk (Hearing.id hearing) (Hearing.processNumber hearing)
              (Hearing.jurisdictionId hearing) (Hearing.date hearing)
              (Hearing.time hearing) (Hearing.type hearing)
              (Hearing.area hearing) (Hearing.professionalId hearing)
              (Hearing.status hearing) (Hearing.notes hearing)
              (Hearing.minutesUploaded hearing) (Hearing.minutesUrl hearing)
              (Some s) (Hearing.paymentAmount hearing)
              (Hearing.createdAt hearing))
         (getHearing (Payment.hearingId existing) this)
  /\ (wellFiled this ->
      getHearing newHearingId this' = getHearing newHearingId this).
Proof.
  intros G Hh Hne Hs Hs' Hdiff. cbv zeta.
  unfold getPayment at 1 2.
  rewrite (updatePayment_payments _ payment _ _ G), get_set_same.
  rewrite (updatePayment_unfold _ payment _ _ G). cbv zeta.
  rewrite Hs. simpl prop. rewrite (status_changes _ _ Hs' Hdiff).
  repeat split.
  - simpl. now rewrite Hh.
  - simpl. now rewrite Hs.
  - destruct (getHearing (Payment.hearingId existing) this)
      as [hearing|] eqn:Gh.
    + unfold getHearing. simpl. apply get_writeBackHearing_key.
    + unfold getHearing in *. simpl. exact Gh.
  - intros W.
    destruct (getHearing (Payment.hearingId existing) this)
      as [hearing|] eqn:Gh; [|reflexivity].
    destruct W as (_ & _ & _ & F & _).
    unfold getHearing in *. simpl.
    rewrite writeBackHearing_filed
      by (simpl; apply (filed_get _ _ _ _ _ _ F Gh)).
    now apply get_set_other.
Qed.

(** ** The invariant, tested *)

Lemma distinct_NoDup l : distinct l = true -> NoDup l.
Proof.
  induction l as [|k rest IH]; simpl; [constructor|].
  intros H. apply andb_prop in H as [Hk Hrest]. constructor; [|auto].
  intros Hin. apply negb_true_iff in Hk.
  assert (E : existsb (Z.eqb k) rest = true)
    by (apply existsb_exists; exists k; split; [assumption | apply Z.eqb_refl]).
  congruence.
Qed.

Lemma filedb_sound (V : Type) (idOf : V -> Z) c (m : JsMap.t V) :
  filedb idOf c m = true -> filed idOf c m.
Proof.
  unfold filedb. intros H. apply andb_prop in H as [Hd Hf].
  apply andb_prop in Hd as [Hc Hd]. apply Z.leb_le in Hc.
  split; [assumption|]. split.
  - now apply distinct_NoDup.
  - intros k v Hin. rewrite forallb_forall in Hf. specialize (Hf _ Hin).
    simpl in Hf. apply andb_prop in Hf as [Hf Hlt].
    apply andb_prop in Hf as [Hid Hle].
    apply Z.eqb_eq in Hid. apply Z.leb_le in Hle. apply Z.ltb_lt in Hlt.
    lia.
Qed.

Lemma wellFiledb_sound this : wellFiledb this = true -> wellFiled this.
Proof.
  unfold wellFiledb, wellFiled. intros H.
  apply andb_prop in H as [H Ht]. apply andb_prop in H as [H Hp].
  apply andb_prop in H as [H Hh]. apply andb_prop in H as [H Hj].
  apply andb_prop in H as [Hu Hpr].
  refine (conj _ (conj _ (conj _ (conj _ (conj _ _)))));
    now apply filedb_sound.
Qed.

(** ** The worked store *)

Lemma demoStore_wellFiled : wellFiled demoStore.
Proof. apply wellFiledb_sound. vm_compute. reflexivity. Qed.

Lemma demoStoreWithPayment_wellFiled : wellFiled demoStoreWithPayment.
Proof. apply wellFiledb_sound. vm_compute. reflexivity. Qed.

(** C2 on the worked store: hearing 1 starts with a pending payment status
    and no amount; a paid payment of 300 gets the unused id 1, and the
    hearing then shows ["paid"] and 300. *)
Lemma createPayment_syncs_hearing_witness :
  wellFiled demoStore
  /\ getHearing 1 demoStore = Some demoHearing
  /\ getPayment 1 demoStore = None
  /\ getHearing 1 (fst (createPayment demoPaidPayment demoNow demoStore))
     = Some
         (Hearing.mk 1 "2023.0123.4567" 1 "2023-06-10" "14:30" "Instruction"
            "Civil" (Some 1) (Some "assigned") None false None (Some "paid")
            (Some 300%float) demoNow).
Proof.
  pose proof (createPayment_syncs_hearing demoPaidPayment demoNow demoStore)
    as (_ & _ & _ & _ & Hfresh & Hsync & _).
  assert (G : getHearing 1 demoStore = Some demoHearing)
    by (vm_compute; reflexivity).
  split; [exact demoStore_wellFiled|].
  split; [exact G|].
  split; [exact (proj1 (Hfresh demoStore_wellFiled))|].
  exact (Hsync demoHearing G).
Defined.

(** C6 on the worked store: turning payment 1 from pending to paid turns
    hearing 1 to paid and keeps its amount. *)
Lemma updatePayment_propagates_status_witness :
  getPayment 1 demoStoreWithPayment = Some demoPayment
  /\ getHearing 1
       (fst (updatePayment 1 (statusOnly "paid") demoStoreWithPayment))
     = Some
         (Hearing.mk 1 "2023.0123.4567" 1 "2023-06-10" "14:30" "Instruction"
            "Civil" (Some 1) (Some "assigned") None false None (Some "paid")
            (Some 300%float) demoNow).
Proof.
  assert (G : getPayment 1 demoStoreWithPayment = Some demoPayment)
    by (vm_compute; reflexivity).
  split; [exact G|].
  pose proof (updatePayment_propagates_status 1 (statusOnly "paid")
                demoStoreWithPayment demoPayment G) as (Hset & _).
  apply (Hset "paid" demoHearingWithPayment).
  - reflexivity.
  - discriminate.
  - discriminate.
  - vm_compute. reflexivity.
Defined.

(** C6 as stated fails on the empty status: payment 1 is pending and names
    hearing 1, whose payment status is pending; the update carries the
    status [""], which differs from the stored one; afterwards the payment's
    status is [""] and the hearing's is still ["pending"]. *)
Lemma updatePayment_empty_status_stays_behind :
  getPayment 1 demoStoreWithPayment = Some demoPayment
  /\ Payment.hearingId demoPayment = 1
  /\ Payment.status demoPayment = Some "pending"
  /\ PartialPayment.status (statusOnly "") = Some (Some "")
  /\ getHearing 1 demoStoreWithPayment = Some demoHearingWithPayment
  /\ option_map Payment.status
       (getPayment 1
          (fst (updatePayment 1 (statusOnly "") demoStoreWithPayment)))
     = Some (Some "")
  /\ option_map Hearing.paymentStatus
       (getHearing 1
          (fst (updatePayment 1 (statusOnly "") demoStoreWithPayment)))
     = Some (Some "pending")
  /\ Some (Some "pending") <> Some (Some "").
Proof. repeat split; try (vm_compute; reflexivity). discriminate. Qed.

(** C9 on the worked store: payment 1 moves from hearing 1 to hearing 2 and
    from pending to paid; hearing 1 turns to paid, hearing 2 stays. *)
Lemma updatePayment_targets_stored_hearing_witness :
  wellFiled demoStoreWithPayment
  /\ getPayment 1 demoStoreWithPayment = Some demoPayment
  /\ option_map Hearing.paymentStatus
       (getHearing 1
          (fst (updatePayment 1 (hearingAndStatus 2 "paid")
                  demoStoreWithPayment)))
     = Some (Some "paid")
  /\ getHearing 2
       (fst (updatePayment 1 (hearingAndStatus 2 "paid") demoStoreWithPayment))
     = getHearing 2 demoStoreWithPayment.
Proof.
  assert (G : getPayment 1 demoStoreWithPayment = Some demoPayment)
    by (vm_compute; reflexivity).
  split; [exact demoStoreWithPayment_wellFiled|].
  split; [exact G|].
  assert (Hne : 2 <> Payment.hearingId demoPayment) by (simpl; lia).
  assert (Hs : "paid" <> "") by discriminate.
  assert (Hd : Some "paid" <> Payment.status demoPayment) by discriminate.
  pose proof (updatePayment_targets_stored_hearing 1
                (hearingAndStatus 2 "paid") demoStoreWithPayment demoPayment
                2 "paid" G eq_refl Hne eq_refl Hs Hd)
    as (_ & _ & Hold & Hnew).
  split; [|exact (Hnew demoStoreWithPayment_wellFiled)].
  simpl Payment.hearingId in Hold. rewrite Hold.
  vm_compute. reflexivity.
Defined.

(** C9 as stated fails on the empty status: the update names hearing 2 and
    carries the status [""], both different from what payment 1 holds;
    afterwards the payment names hearing 2 with status [""], and hearing 1,
    which the payment named before, still shows ["pending"]. *)
Lemma updatePayment_empty_status_skips_stored_hearing :
  getPayment 1 demoStoreWithPayment = Some demoPayment
  /\ Payment.hearingId demoPayment = 1
  /\ Payment.status demoPayment = Some "pending"
  /\ PartialPayment.hearingId (hearingAndStatus 2 "") = Some 2
  /\ PartialPayment.status (hearingAndStatus 2 "") = Some (Some "")
  /\ getHearing 1 demoStoreWithPayment = Some demoHearingWithPayment
  /\ option_map (fun p => (Payment.hearingId p, Payment.status p))
       (getPayment 1
          (fst (updatePayment 1 (hearingAndStatus 2 "") demoStoreWithPayment)))
     = Some (2, Some "")
  /\ option_map Hearing.paymentStatus
       (getHearing 1
          (fst (updatePayment 1 (hearingAndStatus 2 "") demoStoreWithPayment)))
     = Some (Some "pending")
  /\ Some (Some "pending") <> Some (Some "").
Proof. repeat split; try (vm_compute; reflexivity). discriminate. Qed.

(** C10 on the worked store: deleting payment 1 leaves hearing 1 with the
    status and the amount it took from that payment. *)
Lemma deletePayment_leaves_hearings_witness :
  getPayment 1 demoStoreWithPayment = Some demoPayment
  /\ getPayment 1 (fst (deletePayment 1 demoStoreWithPayment)) = None
  /\ getHearing 1 (fst (deletePayment 1 demoStoreWithPayment))
     = Some demoHearingWithPayment.
Proof.
  assert (G : getPayment 1 demoStoreWithPayment = Some demoPayment)
    by (vm_compute; reflexivity).
  pose proof (deletePayment_leaves_hearings 1 demoStoreWithPayment)
    as (Hgone & _ & _ & Hkeep & _).
  split; [exact G|]. split; [exact Hgone|].
  apply (Hkeep demoPayment demoHearingWithPayment G).
  vm_compute. reflexivity.
Defined.

(** ** Uploading minutes *)

Lemma isPendingTask_true type id t :
  isPendingTask type id t = true <-> pendingTask type id t.
Proof.
  unfold isPendingTask, pendingTask.
  rewrite !andb_true_iff, String.eqb_eq, same_string_true.
  destruct (Task.relatedId t) as [r|].
  - rewrite Z.eqb_eq. intuition congruence.
  - intuition congruence.
Qed.

Lemma isPendingTask_false type id t :
  isPendingTask type id t = false <-> ~ pendingTask type id t.
Proof.
  rewrite <- isPendingTask_true.
  destruct (isPendingTask type id t); split; congruence.
Qed.

(** [Array.find] returns the first element that passes the test, and
    nothing when no element passes. *)
Lemma find_first (A : Type) (f : A -> bool) (before : list A) (x : A)
  (after : list A) :
  (forall y, In y before -> f y = false) ->
  f x = true ->
  find f (before ++ x :: after) = Some x.
Proof.
  induction before as [|a rest IH]; simpl; intros Hb Hx.
  - now rewrite Hx.
  - rewrite (Hb a) by now left. apply IH; [|assumption].
    intros y Hy. apply Hb. now right.
Qed.

Lemma find_nothing (A : Type) (f : A -> bool) (l : list A) :
  (forall y, In y l -> f y = false) -> find f l = None.
Proof.
  induction l as [|a rest IH]; simpl; intros H; [reflexivity|].
  rewrite (H a) by now left. apply IH. intros y Hy. apply H. now right.
Qed.

(** Completing a task of a filed task map changes that task where it
    stands among the values. *)
Lemma complete_task_in_place c (m : JsMap.t Task.t) before task after :
  filed Task.id c m ->
  JsMap.values m = before ++ task :: after ->
  JsMap.get (Task.id task) m = Some task
  /\ JsMap.values (JsMap.set (Task.id task) (spreadTask task completed) m)
     = before ++ completedTask task :: after.
Proof.
  intros F Hsplit. unfold JsMap.values in Hsplit.
  apply map_eq_app in Hsplit as (e1 & e2' & -> & <- & Hrest).
  apply map_eq_cons in Hrest as ([k t] & e2 & -> & Ht & <-).
  simpl in Ht. subst t.
  assert (Hin : In (k, task) (e1 ++ (k, task) :: e2))
    by (apply in_or_app; right; now left).
  assert (Hk : Task.id task = k) by apply (proj2 (proj2 F) k task Hin).
  subst k.
  assert (Hnotin : ~ In (Task.id task) (JsMap.keys e1)).
  { destruct F as (_ & Hnd & _). unfold JsMap.keys in *.
    rewrite map_app in Hnd. simpl in Hnd. apply NoDup_remove_2 in Hnd.
    intros Hin'. apply Hnd. apply in_or_app. now left. }
  split.
  - apply In_get; [apply (proj2 F) | assumption].
  - rewrite set_split by assumption.
    unfold JsMap.values. now rewrite map_app.
Qed.

(** [updateTask] touches the tasks only. *)
Lemma updateTask_frame id task this :
  let this' := fst (updateTask id task this) in
  MemStorage.hearings this' = MemStorage.hearings this
  /\ MemStorage.users this' = MemStorage.users this
  /\ MemStorage.professionals this' = MemStorage.professionals this
  /\ MemStorage.jurisdictions this' = MemStorage.jurisdictions this
  /\ MemStorage.payments this' = MemStorage.payments this.
Proof.
  unfold updateTask.
  destruct (JsMap.get id (MemStorage.tasks this)); simpl; repeat split.
Qed.

(** C3, as the code has it.  Recording a minutes upload for hearing [h].
    Without a file the handler answers 400 ("No file uploaded"), and with a
    file but no such hearing 404 ("Hearing not found"); in both cases the
    store is as before.  Otherwise the hearing is stored with
    [minutesUploaded] true, [minutesUrl] the stored reference and [status]
    completed, and the other hearings and every map but the tasks stay.  If
    no task is a pending [upload_minutes] task for [h], the tasks stay too;
    and, in a well-filed store, if [task] is the first such task, then it is
    marked completed where it stands and every other task stays. *)
Theorem postHearingMinutes_completes_first_task
  (h : Z) (file : option string) (this : store) :
  let this' := fst (postHearingMinutes (Some h) file this) in
  let response := snd (postHearingMinutes (Some h) file this) in
  match file, getHearing h this with
  | None, _ => response = error 400 "No file uploaded" /\ this' = this
  | Some _, None => response = error 404 "Hearing not found" /\ this' = this
  | Some filename, Some hearing =>
      let updated :=
        withMinutes hearing (String.append "/uploads/" filename) in
      response = json 200 updated
      /\ getHearing h this' = Some updated
      /\ (forall h', h' <> h -> getHearing h' this' = getHearing h' this)
      /\ ((forall t, In t (getTasks this) ->
             ~ pendingTask "upload_minutes" h t) ->
          MemStorage.tasks this' = MemStorage.tasks this)
      /\ (wellFiled this ->
          forall before task after,
            getTasks this = before ++ task :: after ->
            (forall t, In t before -> ~ pendingTask "upload_minutes" h t) ->
            pendingTask "upload_minutes" h task ->
            getTasks this' = before ++ completedTask task :: after)
      /\ MemStorage.users this' = MemStorage.users this
      /\ MemStorage.professionals this' = MemStorage.professionals this
      /\ MemStorage.jurisdictions this' = MemStorage.jurisdictions this
      /\ MemStorage.payments this' = MemStorage.payments this
  end.
Proof.
  cbv zeta. unfold postHearingMinutes.
  destruct file as [filename|]; [|split; reflexivity].
  destruct (getHearing h this) as [hearing|] eqn:Gh; [|split; reflexivity].
  unfold updateHearing. unfold getHearing in Gh. rewrite Gh.
  cbv beta iota zeta. cbn [fst snd].
  set (this1 := MemStorage.set_hearings this _ _).
  assert (Ht1 : MemStorage.tasks this1 = MemStorage.tasks this) by reflexivity.
  assert (Hh : forall s,
             MemStorage.hearings
               match find (isPendingTask "upload_minutes" h) (getTasks this1)
               with
               | Some minutesTask =>
                   fst (updateTask (Task.id minutesTask) completed s)
               | None => s
               end = MemStorage.hearings s).
  { intros s. destruct (find _ _); [|reflexivity].
    apply updateTask_frame. }
  split; [reflexivity|].
  split; [unfold getHearing; rewrite Hh; exact (get_set_same _ h _ _)|].
  split; [intros h' Hne; unfold getHearing; rewrite Hh;
          now apply get_set_other|].
  split.
  { intros Hnone. unfold getTasks at 1. rewrite Ht1.
    rewrite find_nothing; [reflexivity|].
    intros t Hin. apply isPendingTask_false. now apply Hnone. }
  split.
  { intros W before task after Hsplit Hbefore Htask.
    destruct W as (_ & _ & _ & _ & _ & F).
    unfold getTasks in *. rewrite Ht1, Hsplit.
    rewrite find_first;
      [|intros t Hin; apply isPendingTask_false; now apply Hbefore
       |now apply isPendingTask_true].
    destruct (complete_task_in_place _ _ _ _ _ F Hsplit) as [Hget Hset].
    unfold updateTask. rewrite Ht1, Hget. exact Hset. }
  destruct (find _ _) as [task|]; [|repeat split].
  destruct (updateTask_frame (Task.id task) completed this1)
    as (_ & Hu & Hpr & Hj & Hp).
  rewrite Hu, Hpr, Hj, Hp. repeat split.
Qed.

(** C3 on the worked store: minutes for hearing 1 complete task 1, the
    pending [upload_minutes] task for that hearing, and leave tasks 2 and 3
    pending. *)
Lemma postHearingMinutes_completes_first_task_witness :
  wellFiled demoStore
  /\ getHearing 1 demoStore = Some demoHearing
  /\ snd (postHearingMinutes (Some 1) (Some "minutes-1.pdf") demoStore)
     = json 200 (withMinutes demoHearing "/uploads/minutes-1.pdf")
  /\ map (fun t => (Task.id t, Task.status t))
       (getTasks
          (fst (postHearingMinutes (Some 1) (Some "minutes-1.pdf") demoStore)))
     = [(1, Some "completed"); (2, Some "pending"); (3, Some "pending")].
Proof.
  pose proof (postHearingMinutes_completes_first_task 1 (Some "minutes-1.pdf")
                demoStore) as H.
  assert (G : getHearing 1 demoStore = Some demoHearing)
    by (vm_compute; reflexivity).
  cbv zeta in H. rewrite G in H. destruct H as (Hresp & _ & _ & _ & Htask & _).
  split; [exact demoStore_wellFiled|].
  split; [exact G|].
  split; [exact Hresp|].
  assert (Hsplit : getTasks demoStore = [] ++ demoUploadTask :: demoOtherTasks)
    by (vm_compute; reflexivity).
  rewrite (Htask demoStore_wellFiled [] demoUploadTask demoOtherTasks Hsplit).
  - vm_compute. reflexivity.
  - intros t [].
  - repeat split.
Defined.

(** C3 as stated fails where no file was supplied: hearing 1 exists, and
    the handler answers 400 "No file uploaded", which is not the not-found
    answer (404) it gives for a hearing that does not exist. *)
Lemma postHearingMinutes_no_file_is_400 :
  getHearing 1 demoStore = Some demoHearing
  /\ snd (postHearingMinutes (Some 1) None demoStore)
     = error 400 "No file uploaded"
  /\ snd (postHearingMinutes (Some 99) (Some "minutes-1.pdf") demoStore)
     = error 404 "Hearing not found"
  /\ snd (postHearingMinutes (Some 1) None demoStore)
     <> snd (postHearingMinutes (Some 99) (Some "minutes-1.pdf") demoStore).
Proof.
  repeat split; try (vm_compute; reflexivity).
  vm_compute. discriminate.
Qed.

(** ** Eligible professionals *)

Lemma includes_In l x : includes l x = true <-> In x l.
Proof.
  unfold includes. rewrite existsb_exists. split.
  - intros (y & Hin & E). apply String.eqb_eq in E. now subst.
  - intros Hin. exists x. split; [assumption | apply String.eqb_refl].
Qed.

Lemma filter_nothing (A : Type) (f : A -> bool) (l : list A) :
  (forall x, In x l -> f x = false) -> filter f l = [].
Proof.
  induction l as [|a rest IH]; simpl; [reflexivity|].
  intros H. rewrite (H a) by now left. apply IH. intros x Hx. apply H.
  now right.
Qed.

(** In a filed map of jurisdictions the form reads the state of the stored
    jurisdiction, unless that state is empty. *)
Lemma getJurisdictionState_filed this id :
  wellFiled this ->
  getJurisdictionState (Some (getJurisdictions this)) id
  = match getJurisdiction id this with
    | Some J =>
        if String.eqb (Jurisdiction.state J) "" then None
        else Some (Jurisdiction.state J)
    | None => None
    end.
Proof.
  intros (_ & _ & F & _). unfold getJurisdictionState, getJurisdictions.
  rewrite (filed_find _ _ _ _ _ F). unfold getJurisdiction.
  destruct (JsMap.get id (MemStorage.jurisdictions this)) as [J|];
    [|reflexivity].
  simpl. destruct (String.eqb (Jurisdiction.state J) ""); reflexivity.
Qed.

(** C1, as the code has it.  In a well-filed store, for a selection of a
    jurisdiction id and an area in the hearing form: the result is empty
    when no jurisdiction (id 0) or no area (the empty string) is selected or
    no jurisdiction is stored under the id; and a professional is in the
    result exactly when it is in the store, an area is selected, it is
    active, its specialization is the selected area, and the jurisdiction
    stored under the selected id has a state that is not the empty string
    and is among the professional's jurisdictions. *)
Theorem eligibleProfessionals_iff
  (this : store) (selectedJurisdictionId : Z) (selectedArea : string) :
  wellFiled this ->
  let result :=
    eligibleProfessionals (Some (getProfessionals this))
      (Some (getJurisdictions this)) selectedJurisdictionId selectedArea in
  (selectedJurisdictionId = 0 \/ selectedArea = ""
   \/ getJurisdiction selectedJurisdictionId this = None ->
   result = [])
  /\ forall P,
       In P result <->
       In P (getProfessionals this)
       /\ selectedArea <> ""
       /\ Professional.active P = Some true
       /\ Professional.specialization P = selectedArea
       /\ exists J,
            getJurisdiction selectedJurisdictionId this = Some J
            /\ Jurisdiction.state J <> ""
            /\ In (Jurisdiction.state J) (Professional.jurisdictions P).
Proof.
  intros W. cbv zeta. unfold eligibleProfessionals.
  rewrite (getJurisdictionState_filed _ _ W).
  assert (H0 : selectedJurisdictionId = 0 ->
               getJurisdiction selectedJurisdictionId this = None).
  { intros ->. destruct W as (_ & _ & F & _).
    unfold getJurisdiction.
    destruct (JsMap.get 0 (MemStorage.jurisdictions this)) eqn:G;
      [|reflexivity].
    apply (filed_get _ _ _ _ _ _ F) in G. lia. }
  split.
  - intros Hsel. apply filter_nothing. intros P _.
    destruct (selectedJurisdictionId =? 0) eqn:E0; [reflexivity|].
    destruct (String.eqb selectedArea "") eqn:Ea; [reflexivity|].
    simpl.
    destruct Hsel as [Hsel|[Hsel|Hsel]].
    + apply Z.eqb_neq in E0. contradiction.
    + apply String.eqb_neq in Ea. contradiction.
    + now rewrite Hsel.
  - intros P. rewrite filter_In.
    destruct (String.eqb selectedArea "") eqn:Ea.
    { apply String.eqb_eq in Ea. rewrite orb_true_r.
      split; [intros [_ ?]; discriminate | intros (_ & ? & _); contradiction]. }
    apply String.eqb_neq in Ea.
    destruct (selectedJurisdictionId =? 0) eqn:E0.
    { apply Z.eqb_eq in E0. rewrite (H0 E0). simpl.
      split; [intros [_ ?]; discriminate|].
      intros (_ & _ & _ & _ & J & ? & _). discriminate. }
    simpl.
    destruct (getJurisdiction selectedJurisdictionId this) as [J|].
    2:{ split; [intros [_ ?]; discriminate|].
        intros (_ & _ & _ & _ & J & ? & _). discriminate. }
    destruct (String.eqb (Jurisdiction.state J) "") eqn:Es.
    { apply String.eqb_eq in Es.
      split; [intros [_ ?]; discriminate|].
      intros (_ & _ & _ & _ & J' & [= <-] & ? & _). contradiction. }
    simpl. rewrite Es. simpl. apply String.eqb_neq in Es.
    split.
    + intros [Hin Hp]. split; [assumption|]. split; [assumption|].
      destruct (Professional.active P) as [[|]|]; try discriminate.
      apply andb_prop in Hp as [Hinc Hspec].
      apply includes_In in Hinc. apply String.eqb_eq in Hspec.
      repeat split; try assumption. exists J. repeat split; assumption.
    + intros (Hin & _ & Hact & Hspec & J' & [= <-] & _ & Hst).
      split; [assumption|]. rewrite Hact.
      apply andb_true_intro. split.
      * now apply includes_In.
      * now apply String.eqb_eq.
Qed.

(** C1 on the scenario of the specification: with jurisdiction 1 and the
    area Civil selected, the result is exactly the one professional. *)
Lemma eligibleProfessionals_iff_witness :
  wellFiled scenarioStore
  /\ In scenarioProfessional
       (eligibleProfessionals (Some (getProfessionals scenarioStore))
          (Some (getJurisdictions scenarioStore)) 1 "Civil")
  /\ eligibleProfessionals (Some (getProfessionals scenarioStore))
       (Some (getJurisdictions scenarioStore)) 1 "Civil"
     = [scenarioProfessional].
Proof.
  assert (W : wellFiled scenarioStore)
    by (apply wellFiledb_sound; vm_compute; reflexivity).
  split; [exact W|]. split; [|vm_compute; reflexivity].
  apply (proj2 (eligibleProfessionals_iff scenarioStore 1 "Civil" W)).
  split; [vm_compute; now left|].
  split; [discriminate|].
  split; [reflexivity|].
  split; [reflexivity|].
  exists (Jurisdiction.mk 1 "Foro Central Civil" "SP" "São Paulo"
            "Praça João Mendes, s/n").
  split; [vm_compute; reflexivity|].
  split; [discriminate | now left].
Defined.

(** C1 as stated fails on a jurisdiction whose state is the empty string:
    the professional is stored, active, specialised in the selected area,
    and the state of the selected jurisdiction is among its jurisdictions,
    yet the result is empty. *)
Lemma eligibleProfessionals_blank_state :
  getJurisdiction 1 blankStateStore = Some blankStateJurisdiction
  /\ In blankStateProfessional (getProfessionals blankStateStore)
  /\ Professional.active blankStateProfessional = Some true
  /\ Professional.specialization blankStateProfessional = "Civil"
  /\ In (Jurisdiction.state blankStateJurisdiction)
       (Professional.jurisdictions blankStateProfessional)
  /\ eligibleProfessionals (Some (getProfessionals blankStateStore))
       (Some (getJurisdictions blankStateStore)) 1 "Civil"
     = [].
Proof.
  repeat split; try (vm_compute; reflexivity); vm_compute; now left.
Qed.

(** ** The financial summary *)

Lemma MonthFromTime_range t : 0 <= MonthFromTime t <= 11.
Proof.
  unfold MonthFromTime.
  generalize (DayWithinYear t), (InLeapYear (YearFromTime t)).
  intros d leap. cbv zeta. cbv beta iota.
  repeat match goal with
         | |- context [if ?c then _ else _] => destruct c
         end; lia.
Qed.

(** With a month between 0 and 11, [MakeDay] adds the date to the first
    day of that month. *)
Lemma MakeDay_in_year year month date :
  0 <= month <= 11 ->
  MakeDay year month date
  = DayFromYear year + monthStart month (InLeapYear year) + date - 1.
Proof.
  intros H. unfold MakeDay. cbv zeta.
  rewrite Z.div_small, Z.mod_small by lia.
  now rewrite Z.add_0_r.
Qed.

(** A year has 365 days, and one more when it is a leap year. *)
Lemma DayFromYear_next y :
  DayFromYear (y + 1)
  = DayFromYear y + 365 + (if InLeapYear y then 1 else 0).
Proof.
  assert (H4 : (y + 1 - 1969) / 4
               = (y - 1969) / 4 + (if y mod 4 =? 0 then 1 else 0))
    by (destruct (Z.eqb_spec (y mod 4) 0); Z.div_mod_to_equations; lia).
  assert (H100 : (y + 1 - 1901) / 100
                 = (y - 1901) / 100 + (if y mod 100 =? 0 then 1 else 0))
    by (destruct (Z.eqb_spec (y mod 100) 0); Z.div_mod_to_equations; lia).
  assert (H400 : (y + 1 - 1601) / 400
                 = (y - 1601) / 400 + (if y mod 400 =? 0 then 1 else 0))
    by (destruct (Z.eqb_spec (y mod 400) 0); Z.div_mod_to_equations; lia).
  assert (Ha : y mod 400 = 0 -> y mod 100 = 0) by (Z.div_mod_to_equations; lia).
  assert (Hb : y mod 100 = 0 -> y mod 4 = 0) by (Z.div_mod_to_equations; lia).
  unfold DayFromYear, InLeapYear. rewrite H4, H100, H400.
  destruct (Z.eqb_spec (y mod 4) 0), (Z.eqb_spec (y mod 100) 0),
    (Z.eqb_spec (y mod 400) 0); cbn [andb orb negb]; lia.
Qed.

(** [YearFromTime] is the year the day falls in. *)
Lemma YearFromDay_spec day :
  DayFromYear (YearFromDay day) <= day < DayFromYear (YearFromDay day + 1).
Proof.
  unfold YearFromDay. cbv zeta.
  set (e := 1970 + day * 400 / 146097).
  assert (He : DayFromYear (e - 1) <= day < DayFromYear (e + 2)).
  { unfold DayFromYear, e. Z.div_mod_to_equations. lia. }
  destruct (Z.leb_spec (DayFromYear (e + 1)) day).
  - replace (e + 1 + 1) with (e + 2) by lia. lia.
  - destruct (Z.ltb_spec day (DayFromYear e)).
    + replace (e - 1 + 1) with e by lia. lia.
    + lia.
Qed.

Lemma DayWithinYear_range t :
  0 <= DayWithinYear t
  < 365 + (if InLeapYear (YearFromTime t) then 1 else 0).
Proof.
  unfold DayWithinYear, YearFromTime.
  pose proof (YearFromDay_spec (Day t)) as H.
  rewrite DayFromYear_next in H. lia.
Qed.

(** [MonthFromTime] and [DateFromTime] are the month the day falls in and
    its place in that month. *)
Lemma DateFromTime_range t :
  1 <= DateFromTime t
  <= DaysInMonth (MonthFromTime t) (InLeapYear (YearFromTime t)).
Proof.
  pose proof (DayWithinYear_range t) as Hd.
  unfold DateFromTime, MonthFromTime.
  revert Hd.
  generalize (DayWithinYear t), (InLeapYear (YearFromTime t)).
  intros d leap Hd. cbv zeta. cbv beta iota.
  destruct leap;
    repeat match goal with
           | |- context [if ?c <? ?x then _ else _] =>
               destruct (Z.ltb_spec c x)
           end; simpl in *; lia.
Qed.

Lemma MakeDay_by_index year month date :
  MakeDay year month date = firstDay (12 * year + month) + date - 1.
Proof.
  unfold firstDay, MakeDay. cbv zeta.
  replace ((12 * year + month) / 12) with (year + month / 12)
    by (Z.div_mod_to_equations; lia).
  replace ((12 * year + month) mod 12) with (month mod 12)
    by (Z.div_mod_to_equations; lia).
  replace (0 + (year + month / 12)) with (year + month / 12) by lia.
  lia.
Qed.

Lemma firstDay_next M : firstDay (M + 1) = firstDay M + monthLength M.
Proof.
  unfold firstDay, monthLength, MakeDay. cbv zeta.
  assert (Hm : 0 <= M mod 12 < 12) by (apply Z.mod_pos_bound; lia).
  destruct (Z.eq_dec (M mod 12) 11) as [E|E].
  - replace ((M + 1) / 12) with (M / 12 + 1)
      by (Z.div_mod_to_equations; lia).
    replace ((M + 1) mod 12) with 0 by (Z.div_mod_to_equations; lia).
    rewrite E. replace (0 + (M / 12 + 1)) with (M / 12 + 1) by lia.
    replace (0 + M / 12) with (M / 12) by lia.
    rewrite DayFromYear_next.
    destruct (InLeapYear (M / 12)), (InLeapYear (M / 12 + 1)); simpl; lia.
  - replace ((M + 1) / 12) with (M / 12)
      by (Z.div_mod_to_equations; lia).
    replace ((M + 1) mod 12) with (M mod 12 + 1)
      by (Z.div_mod_to_equations; lia).
    rewrite !Z.add_0_l.
    set (m := M mod 12) in *.
    assert (Hcases : m = 0 \/ m = 1 \/ m = 2 \/ m = 3 \/ m = 4 \/ m = 5
                     \/ m = 6 \/ m = 7 \/ m = 8 \/ m = 9 \/ m = 10) by lia.
    destruct (InLeapYear (M / 12));
      repeat (destruct Hcases as [->|Hcases]; [simpl; lia|]);
      rewrite Hcases; simpl; lia.
Qed.

Lemma monthLength_range M : 28 <= monthLength M <= 31.
Proof.
  unfold monthLength.
  assert (Hm : 0 <= M mod 12 < 12) by (apply Z.mod_pos_bound; lia).
  set (m := M mod 12) in *.
  assert (Hcases : m = 0 \/ m = 1 \/ m = 2 \/ m = 3 \/ m = 4 \/ m = 5
                   \/ m = 6 \/ m = 7 \/ m = 8 \/ m = 9 \/ m = 10 \/ m = 11)
    by lia.
  destruct (InLeapYear (M / 12));
    repeat (destruct Hcases as [->|Hcases]; [simpl; lia|]);
    rewrite Hcases; simpl; lia.
Qed.

Lemma firstDay_mono M k : 0 <= k -> firstDay M <= firstDay (M + k).
Proof.
  intros Hk. revert k Hk.
  apply (natlike_ind (fun k => firstDay M <= firstDay (M + k))).
  - rewrite Z.add_0_r. lia.
  - intros k Hk IH. replace (M + Z.succ k) with (M + k + 1) by lia.
    rewrite firstDay_next. pose proof (monthLength_range (M + k)). lia.
Qed.

(** Every instant lies in its month, and in no other. *)
Lemma Day_in_month t :
  Day t = firstDay (monthIndex t) + DateFromTime t - 1
  /\ 1 <= DateFromTime t <= monthLength (monthIndex t).
Proof.
  pose proof (MonthFromTime_range t) as Hm.
  pose proof (DateFromTime_range t) as Hd.
  split.
  - unfold monthIndex. rewrite <- MakeDay_by_index.
    rewrite MakeDay_in_year by assumption.
    unfold DateFromTime, DayWithinYear. lia.
  - unfold monthLength, monthIndex.
    replace ((12 * YearFromTime t + MonthFromTime t) mod 12)
      with (MonthFromTime t) by (Z.div_mod_to_equations; lia).
    replace ((12 * YearFromTime t + MonthFromTime t) / 12)
      with (YearFromTime t) by (Z.div_mod_to_equations; lia).
    exact Hd.
Qed.

Lemma month_of_Day t M D :
  Day t = firstDay M + D - 1 -> 1 <= D <= monthLength M ->
  monthIndex t = M /\ DateFromTime t = D.
Proof.
  intros Hday HD. destruct (Day_in_month t) as [Hday0 HD0].
  assert (HM : monthIndex t = M).
  { destruct (Z.lt_trichotomy (monthIndex t) M) as [Hlt|[Heq|Hgt]];
      [|assumption|].
    - pose proof (firstDay_mono (monthIndex t + 1) (M - monthIndex t - 1))
        as Hmono.
      replace (monthIndex t + 1 + (M - monthIndex t - 1)) with M in Hmono
        by lia.
      rewrite firstDay_next in Hmono. lia.
    - pose proof (firstDay_mono (M + 1) (monthIndex t - M - 1)) as Hmono.
      replace (M + 1 + (monthIndex t - M - 1)) with (monthIndex t) in Hmono
        by lia.
      rewrite firstDay_next in Hmono. lia. }
  split; [assumption|]. rewrite HM in Hday0. lia.
Qed.

Lemma TimeWithinDay_range t : 0 <= TimeWithinDay t < msPerDay.
Proof. unfold TimeWithinDay. apply Z.mod_pos_bound. reflexivity. Qed.

Lemma MakeDate_Day t : MakeDate (Day t) (TimeWithinDay t) = t.
Proof.
  unfold MakeDate, Day, TimeWithinDay.
  pose proof (Z.div_mod t msPerDay) as E.
  assert (msPerDay <> 0) by (unfold msPerDay; lia).
  specialize (E H). lia.
Qed.

Lemma Day_MakeDate day time :
  0 <= time < msPerDay ->
  Day (MakeDate day time) = day /\ TimeWithinDay (MakeDate day time) = time.
Proof.
  intros H. unfold Day, TimeWithinDay, MakeDate.
  assert (E : day * msPerDay + time = time + day * msPerDay) by lia.
  rewrite E. split.
  - rewrite Z.div_add by (unfold msPerDay; lia).
    rewrite Z.div_small by assumption. lia.
  - rewrite Z.mod_add by (unfold msPerDay; lia).
    now apply Z.mod_small.
Qed.

Lemma MakeDate_shift t k :
  MakeDate (Day t + k) (TimeWithinDay t) = t + k * msPerDay.
Proof.
  pose proof (MakeDate_Day t) as H. unfold MakeDate in *. lia.
Qed.

(** [d.withDate(d.getDate() + k)] moves the time value by [k] days. *)
Lemma withDate_shift t k :
  withDate t (DateFromTime t + k) = t + k * msPerDay.
Proof.
  unfold withDate. rewrite MakeDay_by_index.
  destruct (Day_in_month t) as [Hday _]. fold (monthIndex t).
  replace (firstDay (monthIndex t) + (DateFromTime t + k) - 1)
    with (Day t + k) by lia.
  apply MakeDate_shift.
Qed.

(** [d.withMonth(d.getMonth() + k)] keeps the day of the month and the time
    of day, and counts the day from the first of the month it names. *)
Lemma withMonth_shift t k :
  withMonth t (MonthFromTime t + k)
  = MakeDate (firstDay (monthIndex t + k) + DateFromTime t - 1)
      (TimeWithinDay t).
Proof.
  unfold withMonth. rewrite MakeDay_by_index. unfold monthIndex.
  now rewrite Z.add_assoc.
Qed.

(** [d.withMonth(d.getMonth() - 1)] moves the time value back by the length
    of the month before. *)
Lemma withMonth_month_back now :
  withMonth now (MonthFromTime now - 1)
  = now - daysOfMonthBefore now * msPerDay.
Proof.
  assert (Hday : forall k,
             MakeDate (Day now - k) (TimeWithinDay now) = now - k * msPerDay).
  { intros k. unfold MakeDate, TimeWithinDay, Day.
    pose proof (Z.div_mod now msPerDay) as E.
    assert (msPerDay <> 0) by (unfold msPerDay; lia).
    specialize (E H). lia. }
  rewrite <- Hday. unfold withMonth. f_equal.
  unfold daysOfMonthBefore, DateFromTime, DayWithinYear. cbv zeta.
  pose proof (MonthFromTime_range now) as Hm.
  set (m := MonthFromTime now) in *.
  set (y := YearFromTime now).
  destruct (Z.eqb_spec m 0) as [E|E].
  - rewrite E. unfold MakeDay. cbv zeta.
    change ((0 - 1) / 12) with (-1). change ((0 - 1) mod 12) with 11.
    pose proof (DayFromYear_next (y + -1)) as Hy.
    replace (y + -1 + 1) with y in Hy by lia.
    rewrite Hy. simpl monthStart.
    destruct (InLeapYear (y + -1)); lia.
  - rewrite MakeDay_in_year by lia.
    assert (Hcases : m = 1 \/ m = 2 \/ m = 3 \/ m = 4 \/ m = 5 \/ m = 6
                     \/ m = 7 \/ m = 8 \/ m = 9 \/ m = 10 \/ m = 11) by lia.
    destruct (InLeapYear y);
      repeat (destruct Hcases as [->|Hcases]; [simpl; lia|]);
      rewrite Hcases; simpl; lia.
Qed.

Lemma daysOfMonthBefore_range now : 28 <= daysOfMonthBefore now <= 31.
Proof.
  unfold daysOfMonthBefore. cbv zeta.
  pose proof (MonthFromTime_range now) as Hm.
  set (m := MonthFromTime now) in *.
  destruct (Z.eqb_spec m 0) as [E|E]; [lia|].
  assert (Hcases : m = 1 \/ m = 2 \/ m = 3 \/ m = 4 \/ m = 5 \/ m = 6
                   \/ m = 7 \/ m = 8 \/ m = 9 \/ m = 10 \/ m = 11) by lia.
  destruct (InLeapYear (YearFromTime now));
    repeat (destruct Hcases as [->|Hcases]; [simpl; lia|]);
    rewrite Hcases; simpl; lia.
Qed.

Lemma monthLength_before t :
  monthLength (monthIndex t - 1) = daysOfMonthBefore t.
Proof.
  unfold monthLength, monthIndex, daysOfMonthBefore. cbv zeta.
  pose proof (MonthFromTime_range t) as Hm.
  destruct (Z.eqb_spec (MonthFromTime t) 0) as [E|E].
  - rewrite E.
    replace ((12 * YearFromTime t + 0 - 1) mod 12) with 11
      by (Z.div_mod_to_equations; lia).
    reflexivity.
  - replace ((12 * YearFromTime t + MonthFromTime t - 1) mod 12)
      with (MonthFromTime t - 1) by (Z.div_mod_to_equations; lia).
    replace ((12 * YearFromTime t + MonthFromTime t - 1) / 12)
      with (YearFromTime t) by (Z.div_mod_to_equations; lia).
    reflexivity.
Qed.

Lemma monthLength_after t :
  monthLength (monthIndex t + 1) = daysOfMonthAfter t.
Proof.
  unfold monthLength, monthIndex, daysOfMonthAfter. cbv zeta.
  pose proof (MonthFromTime_range t) as Hm.
  destruct (Z.eqb_spec (MonthFromTime t) 11) as [E|E].
  - rewrite E.
    replace ((12 * YearFromTime t + 11 + 1) mod 12) with 0
      by (Z.div_mod_to_equations; lia).
    reflexivity.
  - replace ((12 * YearFromTime t + MonthFromTime t + 1) mod 12)
      with (MonthFromTime t + 1) by (Z.div_mod_to_equations; lia).
    replace ((12 * YearFromTime t + MonthFromTime t + 1) / 12)
      with (YearFromTime t) by (Z.div_mod_to_equations; lia).
    reflexivity.
Qed.

Lemma monthLength_here t :
  monthLength (monthIndex t)
  = DaysInMonth (MonthFromTime t) (InLeapYear (YearFromTime t)).
Proof.
  unfold monthLength, monthIndex.
  pose proof (MonthFromTime_range t) as Hm.
  replace ((12 * YearFromTime t + MonthFromTime t) mod 12)
    with (MonthFromTime t) by (Z.div_mod_to_equations; lia).
  replace ((12 * YearFromTime t + MonthFromTime t) / 12)
    with (YearFromTime t) by (Z.div_mod_to_equations; lia).
  reflexivity.
Qed.

(** A step of [k] months and a step of [-k] months back, for [k] one or
    minus one: the date comes back exactly when the month stepped to has the
    day of the month. *)
Lemma withMonth_there_and_back t k :
  k = 1 \/ k = -1 ->
  let t1 := withMonth t (MonthFromTime t + k) in
  withMonth t1 (MonthFromTime t1 - k) = t
  <-> DateFromTime t <= monthLength (monthIndex t + k).
Proof.
  intros Hk. cbv zeta.
  destruct (Day_in_month t) as [Hday HD].
  pose proof (TimeWithinDay_range t) as Htime.
  set (M := monthIndex t) in *. set (D := DateFromTime t) in *.
  set (t1 := withMonth t (MonthFromTime t + k)).
  assert (Ht1 : t1 = MakeDate (firstDay (M + k) + D - 1) (TimeWithinDay t))
    by apply withMonth_shift.
  destruct (Day_MakeDate (firstDay (M + k) + D - 1) (TimeWithinDay t) Htime)
    as [Hday1 Htime1].
  rewrite <- Ht1 in Hday1, Htime1.
  pose proof (monthLength_range (M + k)) as Hlen.
  pose proof (monthLength_range M) as HlenM.
  replace (MonthFromTime t1 - k) with (MonthFromTime t1 + - k) by lia.
  rewrite withMonth_shift, Htime1.
  destruct (Z.le_gt_cases D (monthLength (M + k))) as [Hfits|Hover].
  - destruct (month_of_Day t1 (M + k) D Hday1) as [HM1 HD1]; [lia|].
    rewrite HM1, HD1. replace (M + k + - k) with M by lia.
    rewrite <- Hday. rewrite MakeDate_Day. tauto.
  - pose proof (firstDay_next (M + k)) as Hnext.
    pose proof (monthLength_range (M + k + 1)) as Hlen1.
    assert (Hday1' : Day t1
                     = firstDay (M + k + 1) + (D - monthLength (M + k)) - 1)
      by lia.
    destruct (month_of_Day t1 (M + k + 1) (D - monthLength (M + k)) Hday1')
      as [HM1 HD1]; [lia|].
    rewrite HM1, HD1. replace (M + k + 1 + - k) with (M + 1) by lia.
    rewrite firstDay_next.
    split; [|lia]. intros Hback. exfalso.
    assert (Hd : Day
                   (MakeDate
                      (firstDay M + monthLength M
                       + (D - monthLength (M + k)) - 1)
                      (TimeWithinDay t))
                 = Day t) by (now rewrite Hback).
    destruct (Day_MakeDate
                (firstDay M + monthLength M + (D - monthLength (M + k)) - 1)
                (TimeWithinDay t) Htime) as [Hd' _].
    rewrite Hd' in Hd. lia.
Qed.

(** [d.withFullYear(d.getFullYear() - 1)] moves the time value back by 365
    or 366 days. *)
Lemma withFullYear_year_back now :
  now - 366 * msPerDay <= withFullYear now (YearFromTime now - 1)
  <= now - 365 * msPerDay.
Proof.
  assert (Hday : forall k,
             MakeDate (Day now - k) (TimeWithinDay now) = now - k * msPerDay).
  { intros k. unfold MakeDate, TimeWithinDay, Day.
    pose proof (Z.div_mod now msPerDay) as E.
    assert (msPerDay <> 0) by (unfold msPerDay; lia).
    specialize (E H). lia. }
  rewrite <- !Hday. unfold withFullYear, MakeDate.
  assert (Hd : Day now - 366
               <= MakeDay (YearFromTime now - 1) (MonthFromTime now)
                    (DateFromTime now)
               <= Day now - 365); [|unfold msPerDay; lia].
  rewrite MakeDay_in_year by apply MonthFromTime_range.
  unfold DateFromTime, DayWithinYear.
  pose proof (MonthFromTime_range now) as Hm.
  set (m := MonthFromTime now) in *.
  set (y := YearFromTime now).
  pose proof (DayFromYear_next (y - 1)) as Hy.
  replace (y - 1 + 1) with y in Hy by lia.
  assert (Hcases : m = 0 \/ m = 1 \/ m = 2 \/ m = 3 \/ m = 4 \/ m = 5
                   \/ m = 6 \/ m = 7 \/ m = 8 \/ m = 9 \/ m = 10 \/ m = 11)
    by lia.
  destruct (InLeapYear y), (InLeapYear (y - 1));
    repeat (destruct Hcases as [->|Hcases]; [simpl monthStart; lia|]);
    rewrite Hcases; simpl monthStart; lia.
Qed.

Lemma sumAmounts_fold l :
  sumAmounts l = fold_left PrimFloat.add (map Payment.amount l) 0%float.
Proof.
  unfold sumAmounts. generalize 0%float.
  induction l as [|p rest IH]; simpl; [reflexivity|].
  intros acc. apply IH.
Qed.


(** The two windows of [getFinancialSummary], on the server's calendar. *)
Lemma filteredPayments_week tz now this :
  filteredPayments (Some "week") tz now this
  = filter
      (fun p =>
         UTC tz (LocalTime tz now - 7 * msPerDay) <=? Payment.createdAt p)
      (getPayments this).
Proof.
  unfold filteredPayments, setDate, getDate.
  change (String.eqb "week" "week") with true. cbv iota.
  replace (DateFromTime (LocalTime tz now) - 7)
    with (DateFromTime (LocalTime tz now) + -7) by lia.
  rewrite withDate_shift.
  replace (LocalTime tz now + -7 * msPerDay)
    with (LocalTime tz now - 7 * msPerDay) by lia.
  reflexivity.
Qed.

Lemma filteredPayments_month tz now this :
  filteredPayments (Some "month") tz now this
  = filter
      (fun p =>
         UTC tz
           (LocalTime tz now
            - daysOfMonthBefore (LocalTime tz now) * msPerDay)
         <=? Payment.createdAt p)
      (getPayments this).
Proof.
  assert (E : filteredPayments (Some "month") tz now this
              = filter
                  (fun p =>
                     setMonth tz now (getMonth tz now - 1)
                     <=? Payment.createdAt p)
                  (getPayments this)) by reflexivity.
  rewrite E. unfold setMonth, getMonth. now rewrite withMonth_month_back.
Qed.

(** A filter whose test implies another's can be run after the other. *)
Lemma filter_nested (A : Type) (f g : A -> bool) (l : list A) :
  (forall x, f x = true -> g x = true) ->
  filter f l = filter f (filter g l).
Proof.
  intros H. induction l as [|x rest IH]; [reflexivity|].
  cbn [filter]. destruct (f x) eqn:Ef.
  - rewrite (H x Ef). cbn [filter]. rewrite Ef. now f_equal.
  - destruct (g x); cbn [filter]; rewrite ?Ef; exact IH.
Qed.





(** ** Identifiers *)

Lemma Kind_eqb_eq a b : Kind_eqb a b = true <-> a = b.
Proof. destruct a, b; simpl; split; congruence. Qed.

(** A create returns the entity under the value its counter had. *)
Lemma perform_log c this :
  snd (perform c this)
  = option_map (fun k => (k, counterOf k this)) (created c).
Proof. destruct c; reflexivity. Qed.

Lemma createPayment_counters payment now this k :
  counterOf k (fst (createPayment payment now this))
  = counterOf k this + if Kind_eqb KPayment k then 1 else 0.
Proof.
  unfold createPayment. simpl.
  destruct (JsMap.get _ _); destruct k; simpl; lia.
Qed.

Lemma updatePayment_counters id payment this k :
  counterOf k (fst (updatePayment id payment this)) = counterOf k this.
Proof.
  unfold updatePayment.
  destruct (JsMap.get id (MemStorage.payments this)); [|reflexivity].
  simpl. destruct (truthy _ && _); [|now destruct k].
  destruct (JsMap.get _ _); now destruct k.
Qed.

(** Only a create moves a counter, and only its own, by one. *)
Lemma perform_counter c this k :
  counterOf k (fst (perform c this))
  = counterOf k this + if creates k c then 1 else 0.
Proof.
  destruct c; unfold creates; simpl created;
    try (destruct k; simpl; lia).
  - unfold perform, updateProfessional.
    destruct (JsMap.get _ _); destruct k; simpl; lia.
  - unfold perform, updateJurisdiction.
    destruct (JsMap.get _ _); destruct k; simpl; lia.
  - unfold perform, updateHearing.
    destruct (JsMap.get _ _); destruct k; simpl; lia.
  - unfold perform.
    destruct (createPayment payment now this) as [s e] eqn:E.
    change s with (fst (s, e)). rewrite <- E. apply createPayment_counters.
  - unfold perform. cbn [fst]. rewrite updatePayment_counters. lia.
  - unfold perform, updateTask.
    destruct (JsMap.get _ _); destruct k; simpl; lia.
Qed.

Lemma run_cons c rest this :
  run (c :: rest) this
  = (fst (run rest (fst (perform c this))),
     match snd (perform c this) with
     | Some e => e :: snd (run rest (fst (perform c this)))
     | None => snd (run rest (fst (perform c this)))
     end).
Proof.
  cbn [run]. destruct (perform c this) as [s r]. cbn [fst snd].
  destruct (run rest s) as [s' log]. reflexivity.
Qed.

Lemma run_app calls1 calls2 this :
  run (calls1 ++ calls2) this
  = (fst (run calls2 (fst (run calls1 this))),
     snd (run calls1 this) ++ snd (run calls2 (fst (run calls1 this)))).
Proof.
  revert this. induction calls1 as [|c rest IH]; intros this.
  - simpl. now destruct (run calls2 this).
  - rewrite <- app_comm_cons, !run_cons, IH. simpl.
    destruct (snd (perform c this)); reflexivity.
Qed.

(** The ids a run hands out for one kind count up from that kind's
    counter. *)
Lemma run_ids calls this k :
  idsOf k (snd (run calls this))
  = countFrom (counterOf k this) (numCreated k calls)
  /\ counterOf k (fst (run calls this))
     = counterOf k this + Z.of_nat (numCreated k calls).
Proof.
  revert this. induction calls as [|c rest IH]; intros this.
  - simpl. split; [reflexivity | lia].
  - rewrite run_cons. cbn [fst snd].
    destruct (IH (fst (perform c this))) as [IHids IHc].
    rewrite IHc. clear IHc.
    pose proof (perform_counter c this k) as Hc.
    pose proof (perform_log c this) as Hlog.
    assert (Hn : numCreated k (c :: rest)
                 = if creates k c then S (numCreated k rest)
                   else numCreated k rest).
    { unfold numCreated. cbn [filter]. now destruct (creates k c). }
    rewrite Hn, Hlog. clear Hn Hlog.
    unfold creates in *.
    destruct (created c) as [k'|]; cbn [option_map].
    + unfold idsOf in *. cbn [filter fst].
      destruct (Kind_eqb k' k) eqn:Ek.
      * apply Kind_eqb_eq in Ek. subst k'.
        cbn [map snd countFrom]. rewrite IHids, Hc.
        split; [reflexivity | lia].
      * rewrite IHids, Hc, Z.add_0_r. split; [reflexivity | lia].
    + rewrite IHids, Hc, Z.add_0_r. split; [reflexivity | lia].
Qed.

Lemma countFrom_In a n i : In i (countFrom a n) -> a <= i < a + Z.of_nat n.
Proof.
  revert a. induction n as [|n IH]; intros a; simpl; [tauto|].
  intros [<-|H]; [lia|]. apply IH in H. lia.
Qed.

(** In a run of consecutive numbers every element is above all that
    precede it. *)
Lemma countFrom_split a n before i after :
  countFrom a n = before ++ i :: after ->
  a <= i /\ (forall j, In j before -> j < i) /\ ~ In i before /\ ~ In i after.
Proof.
  revert a before. induction n as [|n IH]; intros a before; simpl.
  - destruct before; discriminate.
  - destruct before as [|b before]; simpl; intros [= E1 E2].
    + subst i. repeat split; try tauto; try lia.
      rewrite <- E2. intros H. apply countFrom_In in H. lia.
    + subst b. destruct (IH _ _ E2) as (Hle & Hlt & Hnb & Hna).
      repeat split.
      * lia.
      * intros j [<-|Hj]; [lia | now apply Hlt].
      * intros [->|Hj]; [lia | contradiction].
      * assumption.
Qed.

(** C4. For every kind of entity and every sequence of creates, updates and
    deletes, started from any store: the ids the creates return are the
    consecutive numbers from the kind's counter on, which the constructor
    sets to 1 before any entity exists; so each new id is greater than every
    id returned before for that kind, and no id is returned twice, whatever
    was deleted in between. *)
Theorem ids_count_up (calls : list Call) (k : Kind) :
  counterOf k MemStorage.empty = 1
  /\ idsOf k (snd (run calls MemStorage.empty))
     = countFrom 1 (numCreated k calls)
  /\ forall this,
       let ids := idsOf k (snd (run calls this)) in
       ids = countFrom (counterOf k this) (numCreated k calls)
       /\ counterOf k (fst (run calls this))
          = counterOf k this + Z.of_nat (numCreated k calls)
       /\ forall before id after,
            ids = before ++ id :: after ->
            counterOf k this <= id
            /\ (forall id', In id' before -> id' < id)
            /\ ~ In id before
            /\ ~ In id after.
Proof.
  split; [now destruct k|].
  split.
  - rewrite (proj1 (run_ids calls MemStorage.empty k)). now destruct k.
  - intros this. cbv zeta.
    destruct (run_ids calls this k) as [Hids Hc].
    split; [assumption|]. split; [assumption|].
    intros before id after E. rewrite Hids in E.
    exact (countFrom_split _ _ _ _ _ E).
Qed.

(** ** The invariant holds in every store the calls can build *)

Ltac split6 := refine (conj _ (conj _ (conj _ (conj _ (conj _ _))))).

Lemma empty_wellFiled : wellFiled MemStorage.empty.
Proof.
  unfold wellFiled. simpl.
  split6;
    apply filed_empty; lia.
Qed.

Lemma filed_writeBack c m key hearing0 hearing :
  filed Hearing.id c m ->
  JsMap.get key m = Some hearing0 ->
  Hearing.id hearing = Hearing.id hearing0 ->
  filed Hearing.id c (writeBackHearing key hearing m).
Proof.
  intros F G Hid.
  pose proof (filed_get _ _ _ _ _ _ F G) as [Hk _].
  rewrite writeBackHearing_filed by congruence.
  now apply (filed_update _ _ _ _ _ hearing0).
Qed.

Lemma createPayment_wellFiled payment now this :
  wellFiled this -> wellFiled (fst (createPayment payment now this)).
Proof.
  intros (Fu & Fpr & Fj & Fh & Fp & Ft). unfold createPayment. simpl.
  destruct (JsMap.get (InsertPayment.hearingId payment)
              (MemStorage.hearings this)) as [hearing|] eqn:G; simpl;
    split6; try assumption.
  - now apply (filed_writeBack _ _ _ hearing).
  - now apply filed_create.
  - now apply filed_create.
Qed.

Lemma updatePayment_wellFiled id payment this :
  wellFiled this ->
  PartialPayment.id payment = None ->
  wellFiled (fst (updatePayment id payment this)).
Proof.
  intros (Fu & Fpr & Fj & Fh & Fp & Ft) Hid. unfold updatePayment.
  destruct (JsMap.get id (MemStorage.payments this)) as [existing|] eqn:G;
    [|cbn [fst]; split6; assumption].
  assert (Fp' : filed Payment.id (MemStorage.paymentIdCounter this)
                  (JsMap.set id (spreadPayment existing payment)
                     (MemStorage.payments this))).
  { apply (filed_update _ _ _ _ _ existing); try assumption.
    simpl. now rewrite Hid. }
  simpl. destruct (truthy _ && _); simpl.
  - destruct (JsMap.get (Payment.hearingId existing)
                (MemStorage.hearings this)) as [hearing|] eqn:Gh; simpl;
      split6; try assumption.
    now apply (filed_writeBack _ _ _ hearing).
  - split6; assumption.
Qed.

Lemma updateHearing_wellFiled id hearing this :
  wellFiled this ->
  PartialHearing.id hearing = None ->
  wellFiled (fst (updateHearing id hearing this)).
Proof.
  intros (Fu & Fpr & Fj & Fh & Fp & Ft) Hid. unfold updateHearing.
  destruct (JsMap.get id (MemStorage.hearings this)) as [existing|] eqn:G;
    [|cbn [fst]; split6; assumption].
  simpl. split6;
    try assumption.
  apply (filed_update _ _ _ _ _ existing); try assumption.
  simpl. now rewrite Hid.
Qed.

Lemma updateTask_wellFiled id task this :
  wellFiled this ->
  PartialTask.id task = None ->
  wellFiled (fst (updateTask id task this)).
Proof.
  intros (Fu & Fpr & Fj & Fh & Fp & Ft) Hid. unfold updateTask.
  destruct (JsMap.get id (MemStorage.tasks this)) as [existing|] eqn:G;
    [|cbn [fst]; split6; assumption].
  simpl. split6;
    try assumption.
  apply (filed_update _ _ _ _ _ existing); try assumption.
  simpl. now rewrite Hid.
Qed.

(** Every call preserves the invariant, an update provided it leaves the
    [id] property alone. *)
Lemma perform_wellFiled c this :
  wellFiled this -> keepsId c -> wellFiled (fst (perform c this)).
Proof.
  intros W K. destruct c; simpl in K; unfold perform.
  - destruct W as (Fu & Fpr & Fj & Fh & Fp & Ft). simpl.
    split6; try assumption.
    now apply filed_create.
  - destruct W as (Fu & Fpr & Fj & Fh & Fp & Ft). simpl.
    split6; try assumption.
    now apply filed_create.
  - destruct W as (Fu & Fpr & Fj & Fh & Fp & Ft).
    unfold updateProfessional.
    destruct (JsMap.get id (MemStorage.professionals this))
      as [existing|] eqn:G; [|cbn [fst]; split6; assumption].
    simpl. split6;
      try assumption.
    apply (filed_update _ _ _ _ _ existing); try assumption.
    simpl. now rewrite K.
  - destruct W as (Fu & Fpr & Fj & Fh & Fp & Ft). simpl.
    split6; try assumption.
    now apply filed_remove.
  - destruct W as (Fu & Fpr & Fj & Fh & Fp & Ft). simpl.
    split6; try assumption.
    now apply filed_create.
  - destruct W as (Fu & Fpr & Fj & Fh & Fp & Ft).
    unfold updateJurisdiction.
    destruct (JsMap.get id (MemStorage.jurisdictions this))
      as [existing|] eqn:G; [|cbn [fst]; split6; assumption].
    simpl. split6;
      try assumption.
    apply (filed_update _ _ _ _ _ existing); try assumption.
    simpl. now rewrite K.
  - destruct W as (Fu & Fpr & Fj & Fh & Fp & Ft). simpl.
    split6; try assumption.
    now apply filed_remove.
  - destruct W as (Fu & Fpr & Fj & Fh & Fp & Ft). simpl.
    split6; try assumption.
    now apply filed_create.
  - cbn [fst]. now apply updateHearing_wellFiled.
  - destruct W as (Fu & Fpr & Fj & Fh & Fp & Ft). simpl.
    split6; try assumption.
    now apply filed_remove.
  - destruct (createPayment payment now this) as [s e] eqn:E.
    change s with (fst (s, e)). rewrite <- E.
    now apply createPayment_wellFiled.
  - cbn [fst]. now apply updatePayment_wellFiled.
  - destruct W as (Fu & Fpr & Fj & Fh & Fp & Ft). simpl.
    split6; try assumption.
    now apply filed_remove.
  - destruct W as (Fu & Fpr & Fj & Fh & Fp & Ft). simpl.
    split6; try assumption.
    now apply filed_create.
  - cbn [fst]. now apply updateTask_wellFiled.
  - destruct W as (Fu & Fpr & Fj & Fh & Fp & Ft). simpl.
    split6; try assumption.
    now apply filed_remove.
Qed.

Lemma run_wellFiled calls this :
  wellFiled this -> Forall keepsId calls -> wellFiled (fst (run calls this)).
Proof.
  revert this. induction calls as [|c rest IH]; intros this W K.
  - exact W.
  - rewrite run_cons. cbn [fst]. inversion K as [|? ? Kc Krest]; subst.
    apply IH; [now apply perform_wellFiled | assumption].
Qed.

(** The constructor is a run of creates from the empty store. *)
Lemma newMemStorage_run today tomorrow now :
  newMemStorage today tomorrow now
  = fst (run (seedCalls today tomorrow now) MemStorage.empty).
Proof. vm_compute. reflexivity. Qed.

Lemma seedCalls_keepId today tomorrow now :
  Forall keepsId (seedCalls today tomorrow now).
Proof.
  unfold seedCalls, seedJurisdictions, seedProfessionals, seedHearings,
    seedTasks.
  cbn [map app]. repeat (apply Forall_cons; [exact I|]). apply Forall_nil.
Qed.

Lemma newMemStorage_wellFiled today tomorrow now :
  wellFiled (newMemStorage today tomorrow now).
Proof.
  rewrite newMemStorage_run.
  apply run_wellFiled; [apply empty_wellFiled | apply seedCalls_keepId].
Qed.

(** The three handlers preserve the invariant as well. *)
Lemma postHearingMinutes_wellFiled id file this :
  wellFiled this -> wellFiled (fst (postHearingMinutes id file this)).
Proof.
  intros W. unfold postHearingMinutes.
  destruct id as [id|]; [|exact W].
  destruct file as [filename|]; [|exact W].
  destruct (getHearing id this) as [hearing|]; [|exact W].
  match goal with
  | |- context [updateHearing id ?p this] =>
      pose proof (updateHearing_wellFiled id p this W eq_refl) as W1;
      destruct (updateHearing id p this) as [this1 [updated|]]
  end; cbn [fst] in *; [|exact W1].
  destruct (find _ _) as [task|]; [|exact W1].
  now apply updateTask_wellFiled.
Qed.

Lemma postPayment_wellFiled body now this :
  wellFiled this -> wellFiled (fst (postPayment body now this)).
Proof.
  intros W. unfold postPayment. destruct body as [msg|data]; [exact W|].
  pose proof (createPayment_wellFiled data now this W) as W1.
  destruct (createPayment data now this) as [this1 payment]. cbn [fst] in *.
  destruct (find _ _) as [task|]; [|exact W1].
  now apply updateTask_wellFiled.
Qed.

Lemma putPayment_wellFiled id data this :
  wellFiled this ->
  PartialPayment.id data = None ->
  wellFiled (fst (putPayment (Some id) (inr data) this)).
Proof.
  intros W K. rewrite putPayment_store. now apply updatePayment_wellFiled.
Qed.

(** ** The remaining checks on the worked store *)

(** C4 on a payment that is created and deleted before the next one is
    created: the ids returned are 1 and 2, id 1 is free again when the second
    payment is created, and it is not handed out again. *)
Lemma ids_count_up_witness :
  idsOf KPayment (snd (run createDeleteCreate demoStore)) = [1; 2]
  /\ getPayment 1 (fst (run createDeleteCreate demoStore)) = None
  /\ forall id', In id' [1] -> id' < 2.
Proof.
  assert (E : idsOf KPayment (snd (run createDeleteCreate demoStore))
              = [1] ++ 2 :: [])
    by (vm_compute; reflexivity).
  pose proof (ids_count_up createDeleteCreate KPayment) as (_ & _ & H).
  destruct (H demoStore) as (_ & _ & Hsplit).
  destruct (Hsplit [1] 2 [] E) as (_ & Hlt & _).
  split; [exact E|]. split; [vm_compute; reflexivity | exact Hlt].
Defined.

(** C5 on the worked store, once for each entity type.  An update of
    hearing 1 that carries notes returns and stores the hearing with those
    notes and all else as before, and hearing 2 stays; an update of hearing
    99, which does not exist, returns nothing and leaves the store alone.  An
    update of professional 1 that carries a phone number, of jurisdiction 1
    that carries a city and an address, of payment 1 that carries notes and
    of task 1 that carries a title returns the entity with those properties
    new and all others as stored. *)
Lemma update_is_shallow_merge_witness :
  getHearing 1 demoStore = Some demoHearing
  /\ snd (updateHearing 1 (notesOnly "adiada") demoStore)
     = Some
         (Hearing.mk 1 "2023.0123.4567" 1 "2023-06-10" "14:30" "Instruction"
            "Civil" (Some 1) (Some "assigned") (Some "adiada") false None
            (Some "pending") None demoNow)
  /\ getHearing 2 (fst (updateHearing 1 (notesOnly "adiada") demoStore))
     = getHearing 2 demoStore
  /\ updateHearing 99 (notesOnly "adiada") demoStore = (demoStore, None)
  /\ snd (updateProfessional 1
            (PartialProfessional.mk None None None (Some "11900000000") None
               None None None None)
            demoStore)
     = Some
         (Professional.mk 1 "Dr. Carlos Mendes" "carlos@juriscrm.com"
            "11900000000" "lawyer" "Civil" ["SP"; "RJ"] None None)
  /\ snd (updateJurisdiction 1
            (PartialJurisdiction.mk None None None (Some "Campinas")
               (Some "Av. Francisco Xavier, 1"))
            demoStore)
     = Some
         (Jurisdiction.mk 1 "Foro Central Civil" "SP" "Campinas"
            "Av. Francisco Xavier, 1")
  /\ snd (updatePayment 1
            (PartialPayment.mk None None None None None None
               (Some (Some "recibo 12")) None)
            demoStoreWithPayment)
     = Some
         (Payment.mk 1 1 1 300%float (Some "pending") None
            (Some "recibo 12") demoNow)
  /\ snd (updateTask 1
            (PartialTask.mk None (Some "Ata recebida") None None None None
               None None)
            demoStore)
     = Some
         (Task.mk 1 "Ata recebida"
            "Proc. 2023.0001.2345 - Audiência realizada em 10/06"
            (Some "pending") "upload_minutes" (Some 1) None demoNow).
Proof.
  assert (G : getHearing 1 demoStore = Some demoHearing)
    by (vm_compute; reflexivity).
  assert (G' : getHearing 99 demoStore = None) by (vm_compute; reflexivity).
  pose proof update_is_shallow_merge as (Hpro & Hjur & H & Hpay & Htask & _).
  pose proof (H 1 (notesOnly "adiada") demoStore) as H1.
  pose proof (H 99 (notesOnly "adiada") demoStore) as H99.
  rewrite G in H1. rewrite G' in H99. destruct H1 as (Hret & _ & Hother).
  split; [exact G|]. split; [exact Hret|].
  split; [apply Hother; lia|]. split; [exact H99|].
  split.
  { match goal with
    | |- snd (updateProfessional ?i ?p ?s) = _ =>
        pose proof (Hpro i p s) as Hp
    end.
    destruct (getProfessional 1 demoStore) as [existing|] eqn:Gp;
      [|vm_compute in Gp; discriminate].
    destruct Hp as (-> & _). vm_compute in Gp. injection Gp as <-.
    reflexivity. }
  split.
  { match goal with
    | |- snd (updateJurisdiction ?i ?p ?s) = _ =>
        pose proof (Hjur i p s) as Hj
    end.
    destruct (getJurisdiction 1 demoStore) as [existing|] eqn:Gj;
      [|vm_compute in Gj; discriminate].
    destruct Hj as (-> & _). vm_compute in Gj. injection Gj as <-.
    reflexivity. }
  split.
  { match goal with
    | |- snd (updatePayment ?i ?p ?s) = _ =>
        pose proof (Hpay i p s) as Hp
    end.
    destruct (getPayment 1 demoStoreWithPayment) as [existing|] eqn:Gp;
      [|vm_compute in Gp; discriminate].
    destruct Hp as (-> & _). vm_compute in Gp. injection Gp as <-.
    vm_compute. reflexivity. }
  match goal with
  | |- snd (updateTask ?i ?p ?s) = _ => pose proof (Htask i p s) as Ht
  end.
  destruct (getTask 1 demoStore) as [existing|] eqn:Gt;
    [|vm_compute in Gt; discriminate].
  destruct Ht as (-> & _). vm_compute in Gt. injection Gt as <-.
  reflexivity.
Defined.

(** C8 on the worked store: deleting jurisdiction 1 answers [true], the
    jurisdiction is gone, jurisdiction 2 stays, and hearing 1 still names
    jurisdiction 1. *)
Lemma deleteJurisdiction_leaves_hearings_witness :
  snd (deleteJurisdiction 1 demoStore) = true
  /\ getJurisdiction 1 (fst (deleteJurisdiction 1 demoStore)) = None
  /\ getJurisdiction 2 (fst (deleteJurisdiction 1 demoStore))
     = getJurisdiction 2 demoStore
  /\ getHearing 1 (fst (deleteJurisdiction 1 demoStore)) = Some demoHearing
  /\ Hearing.jurisdictionId demoHearing = 1.
Proof.
  pose proof (deleteJurisdiction_leaves_hearings 1 demoStore)
    as (Hret & Hgone & Hother & _ & Hh & _).
  split; [apply Hret; vm_compute; discriminate|].
  split; [exact Hgone|].
  split; [apply Hother; lia|].
  split; [rewrite Hh; vm_compute; reflexivity | reflexivity].
Defined.

(** Creating a payment through [POST /api/payments] completes the first
    pending payment task for the hearing: in the worked store, task 3 for
    hearing 3. *)
Lemma postPayment_completes_task :
  map (fun t => (Task.id t, Task.status t))
    (getTasks
       (fst (postPayment
               (inr (InsertPayment.mk 3 3 300%float (Some "paid") None None))
               demoNow demoStore)))
  = [(1, Some "pending"); (2, Some "pending"); (3, Some "completed")].
Proof. vm_compute. reflexivity. Qed.

(** * Further facts about the store *)

(** ** More on maps *)

Lemma remove_absent (V : Type) k (m : JsMap.t V) :
  JsMap.get k m = None -> JsMap.remove k m = m.
Proof.
  unfold JsMap.remove.
  induction m as [|[k' v'] rest IH]; simpl; [reflexivity|].
  destruct (k' =? k); [discriminate|]. simpl. intros H. f_equal. now apply IH.
Qed.

Lemma values_set_absent (V : Type) k (v : V) m :
  JsMap.get k m = None -> JsMap.values (JsMap.set k v m) = JsMap.values m ++ [v].
Proof.
  intros H. rewrite set_absent by assumption.
  unfold JsMap.values. now rewrite map_app.
Qed.

(** Writing under a key that is present changes the value where it stands
    among the values. *)
Lemma values_set_present (V : Type) k (v0 v : V) m :
  JsMap.get k m = Some v0 ->
  exists before after,
    JsMap.values m = before ++ v0 :: after
    /\ JsMap.values (JsMap.set k v m) = before ++ v :: after.
Proof.
  unfold JsMap.values.
  induction m as [|[k' v'] rest IH]; simpl; [discriminate|].
  destruct (k' =? k) eqn:E.
  - intros [= ->]. exists [], (map snd rest). split; reflexivity.
  - intros H. destruct (IH H) as (before & after & H1 & H2).
    exists (v' :: before), after. simpl. now rewrite H1, H2.
Qed.

Lemma values_remove (V : Type) (idOf : V -> Z) c k (m : JsMap.t V) :
  filed idOf c m ->
  JsMap.values (JsMap.remove k m)
  = filter (fun e => negb (idOf e =? k)) (JsMap.values m).
Proof.
  intros (_ & _ & F). unfold JsMap.values, JsMap.remove.
  induction m as [|[k' v'] rest IH]; simpl; [reflexivity|].
  assert (Hid : idOf v' = k') by (apply (F k' v'); now left).
  rewrite Hid.
  assert (IH' : map snd (filter (fun e => negb (fst e =? k)) rest)
                = filter (fun e => negb (idOf e =? k)) (map snd rest)).
  { apply IH. intros k0 v0 Hin. apply F. now right. }
  destruct (k' =? k); simpl; now rewrite IH'.
Qed.

(** ** X1: the filing invariant is kept *)

Lemma misfiled_breaks_invariant :
  ~ wellFiled (fst (updateHearing 1 (idOnly 2) demoStore)).
Proof.
  intros (_ & _ & _ & F & _).
  assert (G : getHearing 1 (fst (updateHearing 1 (idOnly 2) demoStore))
              = Some (spreadHearing demoHearing (idOnly 2)))
    by (vm_compute; reflexivity).
  apply (filed_get _ _ _ _ _ _ F) in G. simpl in G. lia.
Qed.

(** X1. The store keeps its filing invariant: the constructor leaves every
    map with each entity once, under its own id, and every id at least 1 and
    below the map's counter; every sequence of creates, deletes and updates
    that leave the [id] property alone preserves this, and so do the three
    composite handlers.  An update that rewrites an id does not: filing
    hearing 1 with id 2 breaks the invariant. *)
Theorem wellFiled_is_kept :
  (forall today tomorrow now, wellFiled (newMemStorage today tomorrow now))
  /\ (forall calls this,
        wellFiled this -> Forall keepsId calls ->
        wellFiled (fst (run calls this)))
  /\ (forall id file this,
        wellFiled this -> wellFiled (fst (postHearingMinutes id file this)))
  /\ (forall body now this,
        wellFiled this -> wellFiled (fst (postPayment body now this)))
  /\ (forall id data this,
        wellFiled this -> PartialPayment.id data = None ->
        wellFiled (fst (putPayment (Some id) (inr data) this)))
  /\ ~ wellFiled (fst (run [UpdateHearing 1 (idOnly 2)] demoStore)).
Proof.
  split; [exact newMemStorage_wellFiled|].
  split; [exact run_wellFiled|].
  split; [exact postHearingMinutes_wellFiled|].
  split; [exact postPayment_wellFiled|].
  split; [exact putPayment_wellFiled|].
  exact misfiled_breaks_invariant.
Qed.

(** X1 on the worked store: after a payment is created, deleted and
    followed by another one, and minutes are uploaded for hearing 1, the
    store is still well filed. *)
Lemma wellFiled_is_kept_witness :
  wellFiled demoStore
  /\ Forall keepsId createDeleteCreate
  /\ wellFiled
       (fst (postHearingMinutes (Some 1) (Some "minutes-1.pdf")
               (fst (run createDeleteCreate demoStore)))).
Proof.
  assert (K : Forall keepsId createDeleteCreate)
    by (repeat (apply Forall_cons; [exact I|]); apply Forall_nil).
  destruct wellFiled_is_kept as (Hnew & Hrun & Hmin & _).
  split; [apply Hnew|]. split; [exact K|].
  apply Hmin. apply Hrun; [apply Hnew | exact K].
Defined.

(** ** X2, X3: creating and deleting *)

Lemma createPayment_payments payment now this :
  MemStorage.payments (fst (createPayment payment now this))
  = JsMap.set (MemStorage.paymentIdCounter this)
      (snd (createPayment payment now this)) (MemStorage.payments this)
  /\ MemStorage.paymentIdCounter (fst (createPayment payment now this))
     = MemStorage.paymentIdCounter this + 1.
Proof.
  unfold createPayment. simpl.
  destruct (JsMap.get _ (MemStorage.hearings this)); split; reflexivity.
Qed.

(** A create on one map of a filed store, in terms of that map. *)
Lemma filed_create_contract (V : Type) (idOf : V -> Z) c (m : JsMap.t V) v :
  filed idOf c m ->
  JsMap.get c m = None
  /\ JsMap.get c (JsMap.set c v m) = Some v
  /\ (forall id, id <> c -> JsMap.get id (JsMap.set c v m) = JsMap.get id m)
  /\ JsMap.values (JsMap.set c v m) = JsMap.values m ++ [v].
Proof.
  intros F. pose proof (filed_fresh _ _ _ _ F) as G.
  split; [assumption|]. split; [apply get_set_same|].
  split; [intros id Hne; now apply get_set_other|].
  now apply values_set_absent.
Qed.

(** X2. In a well-filed store each of the six create methods gives the new
    entity the counter's value as id, moves the counter by one, stores the
    entity under that id, which was free, keeps the entities under the other
    ids and puts the new entity last in the listing.  A new hearing has no
    minutes, a pending payment status, no payment amount and the clock as
    creation time, and takes its status from the insert as it is: none when
    the insert has none. *)
Theorem create_appends :
  createContract getUser getUsers User.id MemStorage.userIdCounter createUser
  /\ createContract getProfessional getProfessionals Professional.id
       MemStorage.professionalIdCounter createProfessional
  /\ createContract getJurisdiction getJurisdictions Jurisdiction.id
       MemStorage.jurisdictionIdCounter createJurisdiction
  /\ createContract getHearing getHearings Hearing.id
       MemStorage.hearingIdCounter
       (fun i => createHearing (fst i) (snd i))
  /\ createContract getPayment getPayments Payment.id
       MemStorage.paymentIdCounter
       (fun i => createPayment (fst i) (snd i))
  /\ createContract getTask getTasks Task.id MemStorage.taskIdCounter
       (fun i => createTask (fst i) (snd i))
  /\ (forall hearing now this,
        let h := snd (createHearing hearing now this) in
        Hearing.minutesUploaded h = false
        /\ Hearing.minutesUrl h = None
        /\ Hearing.paymentStatus h = Some "pending"
        /\ Hearing.paymentAmount h = None
        /\ Hearing.createdAt h = now
        /\ Hearing.status h = InsertHearing.status hearing).
Proof.
  split.
  { intros insert this (F & _). cbv zeta. simpl.
    destruct (filed_create_contract _ _ _ _ (snd (createUser insert this)) F)
      as (H1 & H2 & H3 & H4).
    repeat split; assumption. }
  split.
  { intros insert this (_ & F & _). cbv zeta. simpl.
    destruct (filed_create_contract _ _ _ _
                (snd (createProfessional insert this)) F)
      as (H1 & H2 & H3 & H4).
    repeat split; assumption. }
  split.
  { intros insert this (_ & _ & F & _). cbv zeta. simpl.
    destruct (filed_create_contract _ _ _ _
                (snd (createJurisdiction insert this)) F)
      as (H1 & H2 & H3 & H4).
    repeat split; assumption. }
  split.
  { intros [insert now] this (_ & _ & _ & F & _). cbv zeta. simpl.
    destruct (filed_create_contract _ _ _ _
                (snd (createHearing insert now this)) F)
      as (H1 & H2 & H3 & H4).
    repeat split; assumption. }
  split.
  { intros [insert now] this (_ & _ & _ & _ & F & _). cbv zeta.
    cbn [fst snd].
    destruct (createPayment_payments insert now this) as [Hp Hc].
    destruct (filed_create_contract _ _ _ _
                (snd (createPayment insert now this)) F)
      as (H1 & H2 & H3 & H4).
    unfold getPayment, getPayments. rewrite Hp, Hc.
    repeat split; assumption. }
  split.
  { intros [insert now] this (_ & _ & _ & _ & _ & F). cbv zeta. simpl.
    destruct (filed_create_contract _ _ _ _
                (snd (createTask insert now this)) F)
      as (H1 & H2 & H3 & H4).
    repeat split; assumption. }
  intros hearing now this. simpl. repeat split.
Qed.

(** X2 on the worked store: a hearing created without a status gets id 4,
    is listed last, and has no status. *)
Lemma create_appends_witness :
  wellFiled demoStore
  /\ Hearing.id (snd (createHearing demoInsertHearing demoNow demoStore)) = 4
  /\ getHearings (fst (createHearing demoInsertHearing demoNow demoStore))
     = getHearings demoStore
       ++ [snd (createHearing demoInsertHearing demoNow demoStore)]
  /\ Hearing.status (snd (createHearing demoInsertHearing demoNow demoStore))
     = None.
Proof.
  destruct create_appends as (_ & _ & _ & Hh & _ & _ & Hd).
  destruct (Hh (demoInsertHearing, demoNow) demoStore demoStore_wellFiled)
    as (Hid & _ & _ & _ & _ & Hlist).
  destruct (Hd demoInsertHearing demoNow demoStore) as (_ & _ & _ & _ & _ & Hs).
  split; [exact demoStore_wellFiled|].
  split; [exact Hid|]. split; [exact Hlist | exact Hs].
Defined.

Lemma set_professionals_same this :
  MemStorage.set_professionals this (MemStorage.professionals this)
    (MemStorage.professionalIdCounter this) = this.
Proof. now destruct this. Qed.

Lemma set_jurisdictions_same this :
  MemStorage.set_jurisdictions this (MemStorage.jurisdictions this)
    (MemStorage.jurisdictionIdCounter this) = this.
Proof. now destruct this. Qed.

Lemma set_hearings_same this :
  MemStorage.set_hearings this (MemStorage.hearings this)
    (MemStorage.hearingIdCounter this) = this.
Proof. now destruct this. Qed.

Lemma set_payments_same this :
  MemStorage.set_payments this (MemStorage.payments this)
    (MemStorage.paymentIdCounter this) = this.
Proof. now destruct this. Qed.

Lemma set_tasks_same this :
  MemStorage.set_tasks this (MemStorage.tasks this)
    (MemStorage.taskIdCounter this) = this.
Proof. now destruct this. Qed.

(** A delete on one map, in terms of that map. *)
Lemma remove_contract (V : Type) (idOf : V -> Z) (m : JsMap.t V) id :
  (JsMap.get id m = None -> JsMap.remove id m = m /\ JsMap.has id m = false)
  /\ (JsMap.get id m <> None -> JsMap.has id m = true)
  /\ JsMap.get id (JsMap.remove id m) = None
  /\ JsMap.has id (JsMap.remove id m) = false
  /\ (forall id', id' <> id ->
        JsMap.get id' (JsMap.remove id m) = JsMap.get id' m)
  /\ (forall c, filed idOf c m ->
        JsMap.values (JsMap.remove id m)
        = filter (fun e => negb (idOf e =? id)) (JsMap.values m)).
Proof.
  split.
  { intros G. split; [now apply remove_absent|]. unfold JsMap.has.
    now rewrite G. }
  split; [now apply has_true_iff|].
  split; [apply get_remove_same|].
  split; [unfold JsMap.has; now rewrite get_remove_same|].
  split; [intros id' Hne; now apply get_remove_other|].
  intros c F. now apply (values_remove _ _ c).
Qed.

(** X3. Each of the five delete methods, on an id that is not stored,
    answers [false] and leaves the whole store as it was; on a stored id it
    answers [true]; afterwards the id is absent and a second delete answers
    [false]; the entities under the other ids stay; and in a well-filed store
    the listing loses exactly the entity with that id, the others keeping
    their order. *)
Theorem delete_removes_one :
  deleteContract getProfessional getProfessionals Professional.id
    deleteProfessional
  /\ deleteContract getJurisdiction getJurisdictions Jurisdiction.id
       deleteJurisdiction
  /\ deleteContract getHearing getHearings Hearing.id deleteHearing
  /\ deleteContract getPayment getPayments Payment.id deletePayment
  /\ deleteContract getTask getTasks Task.id deleteTask.
Proof.
  split.
  { intros id this.
    destruct (remove_contract _ Professional.id
                (MemStorage.professionals this) id)
      as (H1 & H2 & H3 & H4 & H5 & H6).
    unfold getProfessional, getProfessionals, deleteProfessional. simpl.
    split.
    { intros G. destruct (H1 G) as [-> ->].
      now rewrite set_professionals_same. }
    repeat split; try assumption.
    intros (_ & F & _). now apply (H6 _ F). }
  split.
  { intros id this.
    destruct (remove_contract _ Jurisdiction.id
                (MemStorage.jurisdictions this) id)
      as (H1 & H2 & H3 & H4 & H5 & H6).
    unfold getJurisdiction, getJurisdictions, deleteJurisdiction. simpl.
    split.
    { intros G. destruct (H1 G) as [-> ->].
      now rewrite set_jurisdictions_same. }
    repeat split; try assumption.
    intros (_ & _ & F & _). now apply (H6 _ F). }
  split.
  { intros id this.
    destruct (remove_contract _ Hearing.id (MemStorage.hearings this) id)
      as (H1 & H2 & H3 & H4 & H5 & H6).
    unfold getHearing, getHearings, deleteHearing. simpl.
    split.
    { intros G. destruct (H1 G) as [-> ->]. now rewrite set_hearings_same. }
    repeat split; try assumption.
    intros (_ & _ & _ & F & _). now apply (H6 _ F). }
  split.
  { intros id this.
    destruct (remove_contract _ Payment.id (MemStorage.payments this) id)
      as (H1 & H2 & H3 & H4 & H5 & H6).
    unfold getPayment, getPayments, deletePayment. simpl.
    split.
    { intros G. destruct (H1 G) as [-> ->]. now rewrite set_payments_same. }
    repeat split; try assumption.
    intros (_ & _ & _ & _ & F & _). now apply (H6 _ F). }
  intros id this.
  destruct (remove_contract _ Task.id (MemStorage.tasks this) id)
    as (H1 & H2 & H3 & H4 & H5 & H6).
  unfold getTask, getTasks, deleteTask. simpl.
  split.
  { intros G. destruct (H1 G) as [-> ->]. now rewrite set_tasks_same. }
  repeat split; try assumption.
  intros (_ & _ & _ & _ & _ & F). now apply (H6 _ F).
Qed.

(** X3 on the worked store: deleting hearing 2 leaves hearings 1 and 3 in
    that order, and deleting hearing 99 changes nothing. *)
Lemma delete_removes_one_witness :
  wellFiled demoStore
  /\ map Hearing.id (getHearings (fst (deleteHearing 2 demoStore))) = [1; 3]
  /\ deleteHearing 99 demoStore = (demoStore, false).
Proof.
  destruct delete_removes_one as (_ & _ & Hh & _).
  destruct (Hh 2 demoStore) as (_ & _ & _ & _ & _ & Hlist).
  destruct (Hh 99 demoStore) as (Habsent & _).
  split; [exact demoStore_wellFiled|].
  split.
  - rewrite (Hlist demoStore_wellFiled). vm_compute. reflexivity.
  - apply Habsent. vm_compute. reflexivity.
Defined.

(** ** X4, X5: the hearing statistics follow the life of a hearing *)

Lemma countIf_app (A : Type) (f : A -> bool) l1 l2 :
  countIf f (l1 ++ l2) = countIf f l1 + countIf f l2.
Proof.
  unfold countIf. rewrite filter_app, length_app. lia.
Qed.

Lemma countIf_cons (A : Type) (f : A -> bool) x l :
  countIf f (x :: l) = indicator (f x) + countIf f l.
Proof.
  unfold countIf, indicator. simpl. destruct (f x); simpl List.length; lia.
Qed.

Lemma countIf_nil (A : Type) (f : A -> bool) : countIf f [] = 0.
Proof. reflexivity. Qed.

Lemma countIf_bounds (A : Type) (f : A -> bool) l :
  0 <= countIf f l <= Z.of_nat (List.length l).
Proof.
  unfold countIf. pose proof (filter_length_le f l). lia.
Qed.

(** Counting after one element was replaced where it stands. *)
Lemma countIf_replace (A : Type) (f : A -> bool) before x y after :
  countIf f (before ++ y :: after)
  = countIf f (before ++ x :: after) - indicator (f x) + indicator (f y).
Proof. rewrite !countIf_app, !countIf_cons. lia. Qed.

Lemma getHearingStats_fields today this :
  getHearingStats today this
  = HearingStats.mk (countIf (isToday today) (getHearings this))
      (countIf isPendingAssignment (getHearings this))
      (countIf lacksMinutes (getHearings this))
      (countIf awaitsPayment (getHearings this)).
Proof. reflexivity. Qed.

(** X4. In a well-filed store, creating a hearing raises [todayCount] by
    one exactly when what stands before the first [T] of its date is
    [today], [pendingAssignment] by one exactly when the insert carries the
    status ["pending"] (an insert without a status is not counted), and
    [pendingMinutes] and [pendingPayments] by one each exactly when the
    insert carries the status ["completed"]; and the counts are the lengths
    of the by-date and pending-assignment listings, the second of which is
    the by-status listing for ["pending"]. *)
Theorem getHearingStats_after_create
  (today : string) (hearing : InsertHearing.t) (now : Z) (this : store) :
  wellFiled this ->
  let before := getHearingStats today this in
  let this' := fst (createHearing hearing now this) in
  let after := getHearingStats today this' in
  HearingStats.todayCount after
  = HearingStats.todayCount before
    + indicator (String.eqb (beforeT (InsertHearing.date hearing)) today)
  /\ HearingStats.pendingAssignment after
     = HearingStats.pendingAssignment before
       + indicator (same_string (InsertHearing.status hearing) (Some "pending"))
  /\ HearingStats.pendingMinutes after
     = HearingStats.pendingMinutes before
       + indicator
           (same_string (InsertHearing.status hearing) (Some "completed"))
  /\ HearingStats.pendingPayments after
     = HearingStats.pendingPayments before
       + indicator
           (same_string (InsertHearing.status hearing) (Some "completed"))
  /\ HearingStats.todayCount before
     = Z.of_nat (List.length (getHearingsByDate today this))
  /\ HearingStats.pendingAssignment before
     = Z.of_nat (List.length (getPendingAssignmentHearings this))
  /\ getPendingAssignmentHearings this = getHearingsByStatus "pending" this.
Proof.
  intros (_ & _ & _ & F & _). cbv zeta.
  rewrite !getHearingStats_fields. cbn [HearingStats.todayCount
    HearingStats.pendingAssignment HearingStats.pendingMinutes
    HearingStats.pendingPayments].
  assert (Hl : getHearings (fst (createHearing hearing now this))
               = getHearings this ++ [snd (createHearing hearing now this)]).
  { unfold getHearings. simpl.
    apply values_set_absent. exact (filed_fresh _ _ _ _ F). }
  rewrite Hl, !countIf_app, !countIf_cons, !countIf_nil.
  unfold isToday, isPendingAssignment, lacksMinutes, awaitsPayment,
    isCompleted.
  simpl. rewrite !andb_true_r.
  repeat split; lia.
Qed.

Lemma postHearingMinutes_hearings h filename this hearing :
  getHearing h this = Some hearing ->
  MemStorage.hearings
    (fst (postHearingMinutes (Some h) (Some filename) this))
  = JsMap.set h (withMinutes hearing (String.append "/uploads/" filename))
      (MemStorage.hearings this).
Proof.
  intros G. unfold postHearingMinutes. rewrite G.
  unfold updateHearing. unfold getHearing in G. rewrite G.
  cbv beta iota zeta. cbn [fst snd].
  destruct (find _ _) as [task|]; [|reflexivity].
  now rewrite (proj1 (updateTask_frame _ _ _)).
Qed.

(** X5. When minutes are uploaded for a stored hearing, [todayCount]
    stays; [pendingAssignment] drops by one exactly when the hearing was
    pending; [pendingMinutes] drops by one exactly when the hearing was
    completed without minutes, and the hearing itself no longer counts there;
    and [pendingPayments] loses the hearing if it counted there and gains it
    back exactly when its payment status is ["pending"]. *)
Theorem getHearingStats_after_minutes
  (today : string) (h : Z) (filename : string) (this : store)
  (hearing : Hearing.t) :
  getHearing h this = Some hearing ->
  let before := getHearingStats today this in
  let this' := fst (postHearingMinutes (Some h) (Some filename) this) in
  let after := getHearingStats today this' in
  HearingStats.todayCount after = HearingStats.todayCount before
  /\ HearingStats.pendingAssignment after
     = HearingStats.pendingAssignment before
       - indicator (same_string (Hearing.status hearing) (Some "pending"))
  /\ HearingStats.pendingMinutes after
     = HearingStats.pendingMinutes before
       - indicator
           (same_string (Hearing.status hearing) (Some "completed")
            && negb (Hearing.minutesUploaded hearing))
  /\ HearingStats.pendingPayments after
     = HearingStats.pendingPayments before
       - indicator
           (same_string (Hearing.status hearing) (Some "completed")
            && same_string (Hearing.paymentStatus hearing) (Some "pending"))
       + indicator
           (same_string (Hearing.paymentStatus hearing) (Some "pending"))
  /\ (forall updated,
        getHearing h this' = Some updated ->
        same_string (Hearing.status updated) (Some "completed") = true
        /\ Hearing.minutesUploaded updated = true).
Proof.
  intros G. cbv zeta.
  rewrite !getHearingStats_fields. cbn [HearingStats.todayCount
    HearingStats.pendingAssignment HearingStats.pendingMinutes
    HearingStats.pendingPayments].
  unfold getHearings, getHearing.
  rewrite (postHearingMinutes_hearings _ filename _ _ G).
  unfold getHearing in G.
  destruct (values_set_present _ h hearing
              (withMinutes hearing (String.append "/uploads/" filename))
              _ G) as (l1 & l2 & H1 & H2).
  rewrite H1, H2.
  rewrite !(countIf_replace _ _ l1 hearing
              (withMinutes hearing (String.append "/uploads/" filename)) l2).
  unfold isToday, isPendingAssignment, lacksMinutes, awaitsPayment,
    isCompleted. simpl.
  split; [lia|]. split; [lia|]. split; [lia|]. split; [lia|].
  intros updated. rewrite get_set_same. intros [= <-]. split; reflexivity.
Qed.

(** X5 on the worked store: hearing 3 is pending; minutes uploaded for it
    take it out of the pending assignments and into the pending payments. *)
Lemma getHearingStats_after_minutes_witness :
  getHearingStats "2023-06-10" demoStore = HearingStats.mk 1 1 0 0
  /\ getHearingStats "2023-06-10"
       (fst (postHearingMinutes (Some 3) (Some "ata.pdf") demoStore))
     = HearingStats.mk 1 0 0 1
  /\ HearingStats.pendingAssignment
       (getHearingStats "2023-06-10"
          (fst (postHearingMinutes (Some 3) (Some "ata.pdf") demoStore)))
     = HearingStats.pendingAssignment (getHearingStats "2023-06-10" demoStore)
       - 1.
Proof.
  assert (G : getHearing 3 demoStore
              = Some
                  (Hearing.mk 3 "2023.9876.5432" 3 "2023-06-11" "09:15"
                     "Judgment" "Labor" None (Some "pending") None false None
                     (Some "pending") None demoNow))
    by (vm_compute; reflexivity).
  destruct (getHearingStats_after_minutes "2023-06-10" 3 "ata.pdf" demoStore
              _ G) as (_ & Hpa & _).
  split; [vm_compute; reflexivity|].
  split; [vm_compute; reflexivity | exact Hpa].
Defined.

(** X4 on the worked store: a hearing for 12 June 2023 created without a
    status raises that day's count by one and leaves the pending assignments
    as they were. *)
Lemma getHearingStats_after_create_witness :
  wellFiled demoStore
  /\ HearingStats.pendingAssignment
       (getHearingStats "2023-06-12"
          (fst (createHearing demoInsertHearing demoNow demoStore)))
     = HearingStats.pendingAssignment (getHearingStats "2023-06-12" demoStore)
  /\ HearingStats.todayCount
       (getHearingStats "2023-06-12"
          (fst (createHearing demoInsertHearing demoNow demoStore)))
     = HearingStats.todayCount (getHearingStats "2023-06-12" demoStore) + 1.
Proof.
  destruct (getHearingStats_after_create "2023-06-12" demoInsertHearing
              demoNow demoStore demoStore_wellFiled)
    as (Ht & Hp & _).
  split; [exact demoStore_wellFiled|].
  split.
  - rewrite Hp. simpl. lia.
  - rewrite Ht. reflexivity.
Defined.

Lemma createPayment_hearings payment now this :
  wellFiled this ->
  MemStorage.hearings (fst (createPayment payment now this))
  = match getHearing (InsertPayment.hearingId payment) this with
    | Some hearing =>
        JsMap.set (InsertPayment.hearingId payment)
          (assign_paymentAmount
             (assign_paymentStatus hearing (InsertPayment.status payment))
             (Some (InsertPayment.amount payment)))
          (MemStorage.hearings this)
    | None => MemStorage.hearings this
    end.
Proof.
  intros (_ & _ & _ & F & _). unfold createPayment, getHearing. simpl.
  destruct (JsMap.get (InsertPayment.hearingId payment)
              (MemStorage.hearings this)) as [hearing|] eqn:G;
    [|reflexivity].
  simpl. apply writeBackHearing_filed. simpl.
  apply (filed_get _ _ _ _ _ _ F G).
Qed.

(** X6. In a well-filed store, creating a payment leaves [todayCount],
    [pendingAssignment] and [pendingMinutes] as they were; when the payment
    names no stored hearing [pendingPayments] stays too, and otherwise the
    hearing leaves that count if it was in it and is counted again exactly
    when it is completed and the new payment's status is ["pending"]. *)
Theorem getHearingStats_after_payment
  (today : string) (payment : InsertPayment.t) (now : Z) (this : store) :
  wellFiled this ->
  let before := getHearingStats today this in
  let this' := fst (createPayment payment now this) in
  let after := getHearingStats today this' in
  HearingStats.todayCount after = HearingStats.todayCount before
  /\ HearingStats.pendingAssignment after
     = HearingStats.pendingAssignment before
  /\ HearingStats.pendingMinutes after = HearingStats.pendingMinutes before
  /\ HearingStats.pendingPayments after
     = match getHearing (InsertPayment.hearingId payment) this with
       | None => HearingStats.pendingPayments before
       | Some hearing =>
           HearingStats.pendingPayments before
           - indicator
               (same_string (Hearing.status hearing) (Some "completed")
                && same_string (Hearing.paymentStatus hearing)
                     (Some "pending"))
           + indicator
               (same_string (Hearing.status hearing) (Some "completed")
                && same_string (InsertPayment.status payment) (Some "pending"))
       end.
Proof.
  intros W. cbv zeta.
  rewrite !getHearingStats_fields. cbn [HearingStats.todayCount
    HearingStats.pendingAssignment HearingStats.pendingMinutes
    HearingStats.pendingPayments].
  unfold getHearings. rewrite (createPayment_hearings _ _ _ W).
  destruct (getHearing (InsertPayment.hearingId payment) this)
    as [hearing|] eqn:G; [|repeat split].
  unfold getHearing in G.
  match goal with
  | |- context [JsMap.set _ ?v _] =>
      destruct (values_set_present _ _ hearing v _ G) as (l1 & l2 & H1 & H2);
      rewrite H1, H2;
      rewrite !(countIf_replace _ _ l1 hearing v l2)
  end.
  unfold isToday, isPendingAssignment, lacksMinutes, awaitsPayment,
    isCompleted. simpl.
  repeat split; lia.
Qed.

(** X6 on the worked store: after minutes for hearing 3, a paid payment
    for it empties the pending payments again. *)
Lemma getHearingStats_after_payment_witness :
  wellFiled (fst (postHearingMinutes (Some 3) (Some "ata.pdf") demoStore))
  /\ HearingStats.pendingPayments
       (getHearingStats "2023-06-10"
          (fst (createPayment
                  (InsertPayment.mk 3 3 300%float (Some "paid") None None)
                  demoNow
                  (fst (postHearingMinutes (Some 3) (Some "ata.pdf")
                          demoStore)))))
     = 0.
Proof.
  assert (W : wellFiled
                (fst (postHearingMinutes (Some 3) (Some "ata.pdf") demoStore)))
    by (apply postHearingMinutes_wellFiled, demoStore_wellFiled).
  split; [exact W|].
  destruct (getHearingStats_after_payment "2023-06-10"
              (InsertPayment.mk 3 3 300%float (Some "paid") None None)
              demoNow _ W) as (_ & _ & _ & Hp).
  rewrite Hp. vm_compute. reflexivity.
Defined.

(** ** X7: looking a user up by name *)

Lemma find_app (A : Type) (f : A -> bool) l1 l2 :
  find f (l1 ++ l2)
  = match find f l1 with
    | Some x => Some x
    | None => find f l2
    end.
Proof.
  induction l1 as [|a rest IH]; simpl; [reflexivity|].
  destruct (f a); [reflexivity | exact IH].
Qed.

(** X7. [getUserByUsername] returns a stored user of that name, and
    [createUser] does not look at names: in a well-filed store, after a user
    is created, a name that already had a user still finds that earlier
    user, the new user's name finds the new user only when nobody had it
    before, and every other name finds what it found. *)
Theorem getUserByUsername_after_create
  (user : InsertUser.t) (this : store) (username : string) :
  wellFiled this ->
  let this' := fst (createUser user this) in
  getUserByUsername username this'
  = match getUserByUsername username this with
    | Some earlier => Some earlier
    | None =>
        if String.eqb (InsertUser.username user) username
        then Some (snd (createUser user this))
        else None
    end
  /\ (forall found,
        getUserByUsername username this = Some found ->
        User.username found = username
        /\ getUser (User.id found) this = Some found).
Proof.
  intros (F & _). cbv zeta. unfold getUserByUsername. simpl. split.
  - rewrite values_set_absent by exact (filed_fresh _ _ _ _ F).
    rewrite find_app. simpl.
    destruct (find _ (JsMap.values (MemStorage.users this))); reflexivity.
  - intros found Hfind. apply find_some in Hfind as [Hin Hname].
    apply String.eqb_eq in Hname. split; [assumption|].
    unfold JsMap.values in Hin.
    apply in_map_iff in Hin as ([k v] & Hv & Hin). simpl in Hv. subst v.
    pose proof (proj2 (proj2 F) k found Hin) as [Hid _]. rewrite Hid.
    unfold getUser. apply In_get; [apply (proj2 F) | assumption].
Qed.

(** X7 on the worked store: a second user named admin is stored under
    id 2, and the name still finds user 1. *)
Lemma getUserByUsername_after_create_witness :
  wellFiled demoStore
  /\ option_map User.id
       (getUser 2
          (fst (createUser
                  (InsertUser.mk "admin" "secret" "Other" "o@juriscrm.com" None)
                  demoStore)))
     = Some 2
  /\ option_map User.id
       (getUserByUsername "admin"
          (fst (createUser
                  (InsertUser.mk "admin" "secret" "Other" "o@juriscrm.com" None)
                  demoStore)))
     = Some 1.
Proof.
  destruct (getUserByUsername_after_create
              (InsertUser.mk "admin" "secret" "Other" "o@juriscrm.com" None)
              demoStore "admin" demoStore_wellFiled) as [H _].
  split; [exact demoStore_wellFiled|].
  split; [vm_compute; reflexivity|].
  rewrite H. vm_compute. reflexivity.
Defined.

(** ** X8, X9: who is offered for a hearing *)

Lemma filter_same (A : Type) (f g : A -> bool) (l : list A) :
  (forall x, f x = g x) -> filter f l = filter g l.
Proof. intros H. apply filter_ext_in. intros x _. apply H. Qed.

(** The test of the hearing form, once a jurisdiction was found. *)
Lemma eligibleProfessionals_found professionals jurisdictions sel area J :
  sel <> 0 -> area <> "" ->
  find (fun j => Jurisdiction.id j =? sel) jurisdictions = Some J ->
  Jurisdiction.state J <> "" ->
  eligibleProfessionals (Some professionals) (Some jurisdictions) sel area
  = filter
      (fun p =>
         match Professional.active p with
         | Some true =>
             includes (Professional.jurisdictions p) (Jurisdiction.state J)
             && String.eqb (Professional.specialization p) area
         | _ => false
         end)
      professionals.
Proof.
  intros Hsel Harea Hfind Hstate. unfold eligibleProfessionals.
  apply filter_same. intros p.
  apply Z.eqb_neq in Hsel. apply String.eqb_neq in Harea.
  rewrite Hsel, Harea. simpl. rewrite Hfind. simpl.
  apply String.eqb_neq in Hstate. rewrite Hstate. simpl.
  now rewrite Hstate.
Qed.

(** X8. The hearings page and the hearing form filter candidates
    differently.  Whoever the form offers for a hearing's jurisdiction and
    area, the page offers too; the two lists are equal when the hearing has a
    jurisdiction id other than 0, an area other than the empty string and a
    jurisdiction whose state is not the empty string; the page offers exactly
    the active professionals with the hearing's area that list the state of
    the first jurisdiction with the hearing's jurisdiction id, and nobody
    while either query is without data; and for a jurisdiction with an empty
    state the page offers a professional that the form leaves out. *)
Theorem page_offers_what_form_offers
  (professionals : list Professional.t) (jurisdictions : list Jurisdiction.t)
  (hearing : Hearing.t) :
  let form :=
    eligibleProfessionals (Some professionals) (Some jurisdictions)
      (Hearing.jurisdictionId hearing) (Hearing.area hearing) in
  let page :=
    getEligibleProfessionals (Some professionals) (Some jurisdictions)
      hearing in
  (forall P, In P form -> In P page)
  /\ (Hearing.jurisdictionId hearing <> 0 ->
      Hearing.area hearing <> "" ->
      (forall J,
          find (fun j => Jurisdiction.id j =? Hearing.jurisdictionId hearing)
            jurisdictions = Some J ->
          Jurisdiction.state J <> "") ->
      form = page)
  /\ (forall P,
        In P page <->
        In P professionals
        /\ Professional.active P = Some true
        /\ Professional.specialization P = Hearing.area hearing
        /\ exists J,
             find
               (fun j => Jurisdiction.id j =? Hearing.jurisdictionId hearing)
               jurisdictions = Some J
             /\ In (Jurisdiction.state J) (Professional.jurisdictions P))
  /\ getEligibleProfessionals None (Some jurisdictions) hearing = []
  /\ getEligibleProfessionals (Some professionals) None hearing = []
  /\ getEligibleProfessionals (Some (getProfessionals blankStateStore))
       (Some (getJurisdictions blankStateStore)) blankStateHearing
     = [blankStateProfessional]
  /\ eligibleProfessionals (Some (getProfessionals blankStateStore))
       (Some (getJurisdictions blankStateStore))
       (Hearing.jurisdictionId blankStateHearing)
       (Hearing.area blankStateHearing)
     = [].
Proof.
  cbv zeta.
  assert (Hpage : forall P,
             In P (getEligibleProfessionals (Some professionals)
                     (Some jurisdictions) hearing) <->
             In P professionals
             /\ Professional.active P = Some true
             /\ Professional.specialization P = Hearing.area hearing
             /\ exists J,
                  find
                    (fun j =>
                       Jurisdiction.id j =? Hearing.jurisdictionId hearing)
                    jurisdictions = Some J
                  /\ In (Jurisdiction.state J) (Professional.jurisdictions P)).
  { intros P. unfold getEligibleProfessionals.
    destruct (find _ jurisdictions) as [J|].
    - rewrite filter_In. split.
      + intros [Hin Hp]. split; [assumption|].
        destruct (Professional.active P) as [[|]|]; try discriminate.
        apply andb_prop in Hp as [Hinc Hspec].
        apply includes_In in Hinc. apply String.eqb_eq in Hspec.
        repeat split; try assumption. exists J. split; [reflexivity|assumption].
      + intros (Hin & Hact & Hspec & J' & [= <-] & Hst).
        split; [assumption|]. rewrite Hact.
        apply andb_true_intro. split.
        * now apply includes_In.
        * now apply String.eqb_eq.
    - split; [intros []|]. intros (_ & _ & _ & J & ? & _). discriminate. }
  assert (Hform : forall P,
             In P (eligibleProfessionals (Some professionals)
                     (Some jurisdictions) (Hearing.jurisdictionId hearing)
                     (Hearing.area hearing)) ->
             In P (getEligibleProfessionals (Some professionals)
                     (Some jurisdictions) hearing)).
  { intros P HP. apply Hpage. unfold eligibleProfessionals in HP.
    apply filter_In in HP as [Hin Hp]. split; [assumption|].
    destruct (Hearing.jurisdictionId hearing =? 0); [discriminate|].
    destruct (String.eqb (Hearing.area hearing) ""); [discriminate|].
    simpl in Hp.
    destruct (find _ jurisdictions) as [J|]; [|discriminate]. simpl in Hp.
    destruct (String.eqb (Jurisdiction.state J) "") eqn:Es;
      simpl in Hp; rewrite ?Es in Hp; simpl in Hp; [discriminate|].
    destruct (Professional.active P) as [[|]|]; try discriminate.
    apply andb_prop in Hp as [Hinc Hspec].
    apply includes_In in Hinc. apply String.eqb_eq in Hspec.
    repeat split; try assumption. exists J. split; [reflexivity|assumption]. }
  split; [exact Hform|].
  split.
  { intros Hsel Harea Hstate. unfold getEligibleProfessionals.
    destruct (find (fun j => Jurisdiction.id j =? Hearing.jurisdictionId hearing)
                jurisdictions) as [J|] eqn:Hfind.
    - now apply eligibleProfessionals_found; [| |assumption|apply Hstate].
    - unfold eligibleProfessionals. apply filter_nothing. intros P _.
      apply Z.eqb_neq in Hsel. apply String.eqb_neq in Harea.
      rewrite Hsel, Harea. simpl. now rewrite Hfind. }
  split; [exact Hpage|].
  repeat split; vm_compute; reflexivity.
Qed.

(** X8 on the scenario store: for a Civil hearing in jurisdiction 1 the
    form and the page offer the same professional. *)
Lemma page_offers_what_form_offers_witness :
  eligibleProfessionals (Some (getProfessionals scenarioStore))
    (Some (getJurisdictions scenarioStore)) 1 "Civil"
  = getEligibleProfessionals (Some (getProfessionals scenarioStore))
      (Some (getJurisdictions scenarioStore)) blankStateHearing
  /\ getEligibleProfessionals (Some (getProfessionals scenarioStore))
       (Some (getJurisdictions scenarioStore)) blankStateHearing
     = [scenarioProfessional].
Proof.
  destruct (page_offers_what_form_offers (getProfessionals scenarioStore)
              (getJurisdictions scenarioStore) blankStateHearing)
    as (_ & Heq & _).
  split; [|vm_compute; reflexivity].
  apply Heq.
  - simpl. lia.
  - discriminate.
  - intros J. vm_compute. intros [= <-]. discriminate.
Defined.

Lemma seeded_professionals_lack_active today tomorrow now p :
  In p (getProfessionals (newMemStorage today tomorrow now)) ->
  Professional.active p <> Some true.
Proof.
  intros Hin. vm_compute in Hin.
  repeat (destruct Hin as [<-|Hin]; [discriminate|]). destruct Hin.
Qed.

(** X9. [createProfessional] applies no default to [active]: a
    professional created from an insert without the flag has none, and
    neither the hearing form nor the hearings page ever offers a professional
    whose flag is not [true].  So in the store as the constructor leaves it,
    whose seed professionals carry no flag, both offer nobody, whatever the
    jurisdictions, the selection or the hearing, although four of the five
    professionals practise in SP. *)
Theorem created_without_active_is_never_offered :
  (forall insert this,
      InsertProfessional.active insert = None ->
      Professional.active (snd (createProfessional insert this)) = None)
  /\ (forall professionals jurisdictions sel area,
        (forall p, In p professionals -> Professional.active p <> Some true) ->
        eligibleProfessionals (Some professionals) jurisdictions sel area = [])
  /\ (forall professionals jurisdictions hearing,
        (forall p, In p professionals -> Professional.active p <> Some true) ->
        getEligibleProfessionals (Some professionals) jurisdictions hearing
        = [])
  /\ (forall today tomorrow now jurisdictions sel area,
        eligibleProfessionals
          (Some (getProfessionals (newMemStorage today tomorrow now)))
          jurisdictions sel area
        = [])
  /\ (forall today tomorrow now jurisdictions hearing,
        getEligibleProfessionals
          (Some (getProfessionals (newMemStorage today tomorrow now)))
          jurisdictions hearing
        = [])
  /\ (forall today tomorrow now,
        List.length
          (getProfessionalsByJurisdiction "SP"
             (newMemStorage today tomorrow now))
        = 4%nat).
Proof.
  assert (Hform : forall professionals jurisdictions sel area,
             (forall p, In p professionals ->
                        Professional.active p <> Some true) ->
             eligibleProfessionals (Some professionals) jurisdictions sel area
             = []).
  { intros ps js sel area H. unfold eligibleProfessionals.
    apply filter_nothing. intros p Hin. specialize (H p Hin).
    destruct ((sel =? 0) || String.eqb area ""); [reflexivity|].
    destruct (getJurisdictionState js sel) as [st|]; [|reflexivity].
    destruct (negb (truthy (Some st))); [reflexivity|].
    destruct (Professional.active p) as [[|]|]; congruence. }
  assert (Hpage : forall professionals jurisdictions hearing,
             (forall p, In p professionals ->
                        Professional.active p <> Some true) ->
             getEligibleProfessionals (Some professionals) jurisdictions
               hearing = []).
  { intros ps js hearing H. unfold getEligibleProfessionals.
    destruct js as [js|]; [|reflexivity].
    destruct (find _ js) as [J|]; [|reflexivity].
    apply filter_nothing. intros p Hin. specialize (H p Hin).
    destruct (Professional.active p) as [[|]|]; congruence. }
  split; [intros insert this H; exact H|].
  split; [exact Hform|]. split; [exact Hpage|].
  split.
  { intros. apply Hform. apply seeded_professionals_lack_active. }
  split.
  { intros. apply Hpage. apply seeded_professionals_lack_active. }
  intros. vm_compute. reflexivity.
Qed.

(** X9 on the worked store: nobody is offered for hearing 1 until a
    professional is marked active; then the form offers that professional. *)
Lemma created_without_active_is_never_offered_witness :
  eligibleProfessionals (Some (getProfessionals demoStore))
    (Some (getJurisdictions demoStore)) 1 "Civil"
  = []
  /\ map Professional.id
       (eligibleProfessionals
          (Some
             (getProfessionals
                (fst (updateProfessional 1 (activeOnly true) demoStore))))
          (Some (getJurisdictions demoStore)) 1 "Civil")
     = [1].
Proof.
  destruct created_without_active_is_never_offered as (_ & _ & _ & H & _).
  split; [apply H | vm_compute; reflexivity].
Defined.

Lemma createPayment_tasks payment now this :
  MemStorage.tasks (fst (createPayment payment now this))
  = MemStorage.tasks this.
Proof.
  unfold createPayment. simpl.
  destruct (JsMap.get _ (MemStorage.hearings this)); reflexivity.
Qed.

(** X10. [POST /api/payments].  A body that fails validation is answered
    with 400 and the validation message, and the store is as before.  A valid
    body is answered with 201 and the payment that [createPayment] returns,
    whether or not the hearing it names exists; every map but the tasks is as
    [createPayment] leaves it.  If no task is a pending [payment] task for
    the hearing the body names, the tasks stay, and, in a well-filed store,
    if [task] is the first such task, then it is marked completed where it
    stands and every other task stays: whatever the status of the payment
    created, a pending one included. *)
Theorem postPayment_completes_first_task
  (body : string + InsertPayment.t) (now : Z) (this : store) :
  let this' := fst (postPayment body now this) in
  let response := snd (postPayment body now this) in
  match body with
  | inl errorMessage => response = error 400 errorMessage /\ this' = this
  | inr data =>
      let h := InsertPayment.hearingId data in
      let created := fst (createPayment data now this) in
      response = json 201 (snd (createPayment data now this))
      /\ ((forall t, In t (getTasks this) -> ~ pendingTask "payment" h t) ->
          this' = created)
      /\ (wellFiled this ->
          forall before task after,
            getTasks this = before ++ task :: after ->
            (forall t, In t before -> ~ pendingTask "payment" h t) ->
            pendingTask "payment" h task ->
            getTasks this' = before ++ completedTask task :: after)
      /\ MemStorage.payments this' = MemStorage.payments created
      /\ MemStorage.hearings this' = MemStorage.hearings created
      /\ MemStorage.users this' = MemStorage.users created
      /\ MemStorage.professionals this' = MemStorage.professionals created
      /\ MemStorage.jurisdictions this' = MemStorage.jurisdictions created
  end.
Proof.
  cbv zeta. unfold postPayment.
  destruct body as [msg|data]; [split; reflexivity|].
  pose proof (createPayment_tasks data now this) as Ht1.
  destruct (createPayment data now this) as [this1 payment].
  cbn [fst snd] in *.
  split; [reflexivity|].
  split.
  { intros Hnone. unfold getTasks at 1. rewrite Ht1.
    rewrite find_nothing; [reflexivity|].
    intros t Hin. apply isPendingTask_false. now apply Hnone. }
  split.
  { intros W before task after Hsplit Hbefore Htask.
    destruct W as (_ & _ & _ & _ & _ & F).
    unfold getTasks in *. rewrite Ht1, Hsplit.
    rewrite find_first;
      [|intros t Hin; apply isPendingTask_false; now apply Hbefore
       |now apply isPendingTask_true].
    destruct (complete_task_in_place _ _ _ _ _ F Hsplit) as [Hget Hset].
    unfold updateTask. rewrite Ht1, Hget. exact Hset. }
  destruct (find _ _) as [task|]; [|repeat split].
  destruct (updateTask_frame (Task.id task) completed this1)
    as (Hh & Hu & Hpr & Hj & Hp).
  rewrite Hh, Hu, Hpr, Hj, Hp. repeat split.
Qed.

(** X10 on the worked store: a payment for hearing 3 that is itself
    pending completes task 3, the pending [payment] task for that hearing,
    and leaves tasks 1 and 2 pending. *)
Lemma postPayment_completes_first_task_witness :
  wellFiled demoStore
  /\ map (fun t => (Task.id t, Task.status t)) (getTasks demoStore)
     = [(1, Some "pending"); (2, Some "pending"); (3, Some "pending")]
  /\ map (fun t => (Task.id t, Task.status t))
       (getTasks
          (fst (postPayment
                  (inr
                     (InsertPayment.mk 3 3 300%float (Some "pending") None
                        None))
                  demoNow demoStore)))
     = [(1, Some "pending"); (2, Some "pending"); (3, Some "completed")].
Proof.
  pose proof (postPayment_completes_first_task
                (inr (InsertPayment.mk 3 3 300%float (Some "pending") None
                        None))
                demoNow demoStore) as H.
  cbv zeta in H. destruct H as (_ & _ & Htask & _).
  split; [exact demoStore_wellFiled|].
  split; [vm_compute; reflexivity|].
  assert (Hsplit :
           exists before task after,
             getTasks demoStore = before ++ task :: after
             /\ List.length before = 2%nat).
  { exists (firstn 2 (getTasks demoStore)).
    exists (nth 2 (getTasks demoStore) demoUploadTask).
    exists (skipn 3 (getTasks demoStore)).
    split; vm_compute; reflexivity. }
  destruct Hsplit as (before & task & after & Hsplit & Hlen).
  assert (Hb : before = firstn 2 (getTasks demoStore)).
  { rewrite Hsplit. rewrite <- Hlen. rewrite firstn_app, Nat.sub_diag.
    simpl. now rewrite firstn_all, app_nil_r. }
  assert (Ht : task = nth 2 (getTasks demoStore) demoUploadTask).
  { rewrite Hsplit. rewrite <- Hlen. now rewrite nth_middle. }
  rewrite (Htask demoStore_wellFiled before task after Hsplit).
  - assert (Ha : after = skipn 3 (getTasks demoStore)).
    { rewrite Hsplit.
      replace 3%nat with (List.length (before ++ [task]))
        by (rewrite length_app, Hlen; reflexivity).
      replace (before ++ task :: after) with ((before ++ [task]) ++ after)
        by (now rewrite <- app_assoc).
      rewrite skipn_app, skipn_all, Nat.sub_diag. reflexivity. }
    rewrite Hb, Ht, Ha. vm_compute. reflexivity.
  - rewrite Hb. intros t Hin. vm_compute in Hin.
    destruct Hin as [<-|[<-|[]]]; intros (Hty & _); vm_compute in Hty;
      discriminate.
  - rewrite Ht. vm_compute. repeat split.
Defined.

(** A value that fails a test, once set, is no more listed under the test
    than after the key was deleted. *)
Lemma filter_values_set (V : Type) (f : V -> bool) k v (m : JsMap.t V) :
  f v = false ->
  NoDup (JsMap.keys m) ->
  filter f (JsMap.values (JsMap.set k v m))
  = filter f (JsMap.values (JsMap.remove k m)).
Proof.
  intros Hv. unfold JsMap.values.
  induction m as [|[k' v'] rest IH]; simpl; intros Hnd.
  - now rewrite Hv.
  - inversion Hnd as [|? ? Hnotin Hnd']; subst.
    destruct (k' =? k) eqn:E; simpl.
    + apply Z.eqb_eq in E. subst k'. rewrite Hv.
      fold (JsMap.remove k rest).
      rewrite remove_absent; [reflexivity|].
      now apply get_None_keys.
    + fold (JsMap.remove k rest). unfold JsMap.remove in IH.
      unfold JsMap.remove. now rewrite IH.
Qed.

Lemma filter_filter (A : Type) (f g : A -> bool) (l : list A) :
  filter f (filter g l) = filter g (filter f l).
Proof.
  induction l as [|a rest IH]; simpl; [reflexivity|].
  destruct (f a) eqn:Ef, (g a) eqn:Eg; simpl; rewrite ?Ef, ?Eg, IH;
    reflexivity.
Qed.

(** X11. [PUT /api/hearings/:id] with the body the hearings page sends to
    assign professional [p].  An id that is no number is answered with 400
    and a hearing that does not exist with 404, the store as before.
    Otherwise the answer is the hearing with [professionalId] [p] and the
    status ["assigned"], all else as stored, whatever the status was, a
    completed hearing included; nothing is asked of [p], not even that such
    a professional exists.  The hearing is then listed for [p] and not as
    pending assignment, the pending-assignment count falls by one exactly
    when the hearing was pending, the other hearings and all other maps stay,
    and in a well-filed store the pending-assignment listing is the old one
    without this hearing. *)
Theorem putHearing_assigns (id : option Z) (p : Z) (this : store) :
  let this' := fst (putHearing id (inr (assignment p)) this) in
  let response := snd (putHearing id (inr (assignment p)) this) in
  match id with
  | None => response = error 400 "Invalid ID" /\ this' = this
  | Some h =>
      match getHearing h this with
      | None => response = error 404 "Hearing not found" /\ this' = this
      | Some hearing =>
          response = json 200 (assignedTo hearing p)
          /\ getHearing h this' = Some (assignedTo hearing p)
          /\ (forall h', h' <> h -> getHearing h' this' = getHearing h' this)
          /\ In (assignedTo hearing p) (getHearingsByProfessional p this')
          /\ ~ In (assignedTo hearing p) (getPendingAssignmentHearings this')
          /\ (forall today,
                HearingStats.pendingAssignment (getHearingStats today this')
                = HearingStats.pendingAssignment (getHearingStats today this)
                  - indicator
                      (same_string (Hearing.status hearing) (Some "pending")))
          /\ (wellFiled this ->
              getPendingAssignmentHearings this'
              = filter (fun x => negb (Hearing.id x =? h))
                  (getPendingAssignmentHearings this))
          /\ MemStorage.users this' = MemStorage.users this
          /\ MemStorage.professionals this' = MemStorage.professionals this
          /\ MemStorage.jurisdictions this' = MemStorage.jurisdictions this
          /\ MemStorage.payments this' = MemStorage.payments this
          /\ MemStorage.tasks this' = MemStorage.tasks this
      end
  end.
Proof.
  cbv zeta. unfold putHearing.
  destruct id as [h|]; [|split; reflexivity].
  unfold updateHearing, getHearing.
  destruct (JsMap.get h (MemStorage.hearings this)) as [hearing|] eqn:G;
    [|split; reflexivity].
  cbn [fst snd].
  change (spreadHearing hearing (assignment p)) with (assignedTo hearing p).
  assert (Hm : MemStorage.hearings
                 (MemStorage.set_hearings this
                    (JsMap.set h (assignedTo hearing p)
                       (MemStorage.hearings this))
                    (MemStorage.hearingIdCounter this))
               = JsMap.set h (assignedTo hearing p) (MemStorage.hearings this))
    by reflexivity.
  destruct (values_set_present _ h hearing (assignedTo hearing p) _ G)
    as (l1 & l2 & H1 & H2).
  split; [reflexivity|].
  split; [rewrite Hm; apply get_set_same|].
  split; [intros h' Hne; rewrite Hm; now apply get_set_other|].
  split.
  { unfold getHearingsByProfessional. rewrite Hm, H2.
    apply filter_In. split.
    - apply in_or_app. right. now left.
    - simpl. apply Z.eqb_refl. }
  split.
  { unfold getPendingAssignmentHearings. intros Hin.
    apply filter_In in Hin as [_ Hp]. simpl in Hp. discriminate. }
  split.
  { intros today. rewrite !getHearingStats_fields.
    cbn [HearingStats.pendingAssignment]. unfold getHearings.
    rewrite Hm, H1, H2.
    rewrite (countIf_replace _ _ l1 hearing (assignedTo hearing p) l2).
    unfold isPendingAssignment. simpl. lia. }
  split.
  { intros (_ & _ & _ & F & _). unfold getPendingAssignmentHearings.
    rewrite Hm.
    rewrite filter_values_set; [|reflexivity|apply (proj1 (proj2 F))].
    rewrite (values_remove _ Hearing.id _ h _ F).
    apply filter_filter. }
  repeat split.
Qed.

(** X11 on the worked store: hearing 3 is pending and has nobody
    assigned; it is assigned to professional 99, who does not exist, and
    leaves the pending assignments. *)
Lemma putHearing_assigns_witness :
  getProfessional 99 demoStore = None
  /\ map Hearing.id (getPendingAssignmentHearings demoStore) = [3]
  /\ getPendingAssignmentHearings
       (fst (putHearing (Some 3) (inr (assignment 99)) demoStore))
     = []
  /\ map Hearing.id
       (getHearingsByProfessional 99
          (fst (putHearing (Some 3) (inr (assignment 99)) demoStore)))
     = [3].
Proof.
  pose proof (putHearing_assigns (Some 3) 99 demoStore) as H.
  cbv zeta in H.
  destruct (getHearing 3 demoStore) as [hearing|] eqn:G;
    [|vm_compute in G; discriminate].
  destruct H as (_ & _ & _ & _ & _ & _ & Hlist & _).
  split; [vm_compute; reflexivity|].
  split; [vm_compute; reflexivity|].
  split; [rewrite (Hlist demoStore_wellFiled) | ]; vm_compute; reflexivity.
Defined.

(** ** The month window of the financial summary *)

(** X12. The windows of [getFinancialSummary] are nested.  The default
    period is ["month"], and the month's payments are among all the payments.
    In every zone whose offsets are within a day of UTC the week's payments
    are those of the month's created since the week opened, in the same
    order; a stored payment created 26 days before the clock or later is in
    the month, and one created more than 33 days before it is not.  Where
    the zone reads the month's opening with the offset it has at the clock,
    as a zone of fixed offset does, the month opens exactly as many times 24
    hours before the clock as the month before the clock's has days, and the
    two marks are 28 and 31 days. *)
Theorem getFinancialSummary_month_window
  (tz : TimeZone.t) (now : Z) (this : store) :
  let week := filteredPayments (Some "week") tz now this in
  let month := filteredPayments (Some "month") tz now this in
  let local := LocalTime tz now in
  let monthBefore := daysOfMonthBefore local in
  filteredPayments None tz now this = month
  /\ (forall p, In p month -> In p (getPayments this))
  /\ (offsetsWithin msPerDay tz ->
      week
      = filter
          (fun p => UTC tz (local - 7 * msPerDay) <=? Payment.createdAt p)
          month
      /\ (forall p, In p week -> In p month)
      /\ (forall p,
            In p (getPayments this) ->
            now - 26 * msPerDay <= Payment.createdAt p ->
            In p month)
      /\ (forall p,
            Payment.createdAt p < now - 33 * msPerDay -> ~ In p month))
  /\ (sameOffset tz now (local - monthBefore * msPerDay) ->
      month
      = filter
          (fun p => now - monthBefore * msPerDay <=? Payment.createdAt p)
          (getPayments this)
      /\ (forall p,
            In p (getPayments this) ->
            now - 28 * msPerDay <= Payment.createdAt p ->
            In p month)
      /\ (forall p,
            Payment.createdAt p < now - 31 * msPerDay -> ~ In p month)).
Proof.
  cbv zeta.
  pose proof (daysOfMonthBefore_range (LocalTime tz now)) as Hr.
  change (filteredPayments None tz now this)
    with (filteredPayments (Some "month") tz now this).
  rewrite filteredPayments_week, filteredPayments_month.
  set (local := LocalTime tz now) in *.
  set (L := daysOfMonthBefore local) in *.
  assert (Hm : UTC tz (local - L * msPerDay)
               = now - L * msPerDay
                 + (TimeZone.utcOffset tz now
                    - TimeZone.localOffset tz (local - L * msPerDay))).
  { unfold UTC, local, LocalTime. lia. }
  assert (Hw : UTC tz (local - 7 * msPerDay)
               = now - 7 * msPerDay
                 + (TimeZone.utcOffset tz now
                    - TimeZone.localOffset tz (local - 7 * msPerDay))).
  { unfold UTC, local, LocalTime. lia. }
  split; [reflexivity|].
  split; [intros p Hin; now apply filter_In in Hin|].
  split.
  - intros Hzone.
    destruct (Hzone now) as [Hu _].
    destruct (Hzone (local - 7 * msPerDay)) as [_ Hlw].
    destruct (Hzone (local - L * msPerDay)) as [_ Hlm].
    assert (Hnest : forall p : Payment.t,
               (UTC tz (local - 7 * msPerDay) <=? Payment.createdAt p) = true ->
               (UTC tz (local - L * msPerDay) <=? Payment.createdAt p)
               = true).
    { intros p Hp. apply Z.leb_le in Hp. apply Z.leb_le.
      rewrite Hm. rewrite Hw in Hp. unfold msPerDay in *. lia. }
    split; [now apply filter_nested|].
    split.
    { intros p Hin. apply filter_In in Hin as [Hin Hp].
      apply filter_In. split; [assumption | now apply Hnest]. }
    split.
    + intros p Hin Hc. apply filter_In. split; [assumption|].
      apply Z.leb_le. rewrite Hm. unfold msPerDay in *. lia.
    + intros p Hc Hin. apply filter_In in Hin as [_ Hle].
      apply Z.leb_le in Hle. rewrite Hm in Hle. unfold msPerDay in *. lia.
  - unfold sameOffset. intros Hsame.
    assert (Hm' : UTC tz (local - L * msPerDay) = now - L * msPerDay)
      by (rewrite Hm; lia).
    rewrite Hm'.
    split; [reflexivity|].
    split.
    + intros p Hin Hc. apply filter_In. split; [assumption|].
      apply Z.leb_le. unfold msPerDay in *. lia.
    + intros p Hc Hin. apply filter_In in Hin as [_ Hle].
      apply Z.leb_le in Hle. unfold msPerDay in *. lia.
Qed.

(** X12 on the worked clocks: in São Paulo on the evening of 31 May the
    month keeps the payments of 2 May and 25 May and the week, of these, the
    one of 25 May; in Lisbon on 10 June the month keeps the three payments
    of the worked store, of which the week keeps two. *)
Lemma getFinancialSummary_month_window_witness :
  map Payment.id (filteredPayments (Some "month") saoPaulo monthEnd
                    monthEndStore)
  = [2; 3]
  /\ map Payment.id (filteredPayments (Some "week") saoPaulo monthEnd
                       monthEndStore)
     = [3]
  /\ filteredPayments (Some "month") saoPaulo monthEnd monthEndStore
     = filter (fun p => monthEnd - 30 * msPerDay <=? Payment.createdAt p)
         (getPayments monthEndStore)
  /\ filteredPayments (Some "month") lisbon2023 demoNow windowStore
     = [tenDaysOld; twoDaysOld; justCreated]
  /\ filteredPayments (Some "week") lisbon2023 demoNow windowStore
     = [twoDaysOld; justCreated]
  /\ (forall p,
        In p (filteredPayments (Some "week") lisbon2023 demoNow windowStore) ->
        In p (filteredPayments (Some "month") lisbon2023 demoNow
                windowStore)).
Proof.
  pose proof (getFinancialSummary_month_window saoPaulo monthEnd
                monthEndStore) as (_ & _ & _ & Hsame).
  pose proof (getFinancialSummary_month_window lisbon2023 demoNow
                windowStore) as (_ & _ & Hbound & _).
  assert (Hzone : offsetsWithin msPerDay lisbon2023).
  { intros t. unfold lisbon2023.
    cbn [TimeZone.utcOffset TimeZone.localOffset].
    repeat match goal with
           | |- context [if ?c then _ else _] => destruct c
           end; unfold msPerDay, msPerHour; lia. }
  destruct (Hbound Hzone) as (_ & Hsub & _).
  destruct (Hsame eq_refl) as (Hmonth & _).
  split; [vm_compute; reflexivity|].
  split; [vm_compute; reflexivity|].
  split; [rewrite Hmonth; vm_compute; reflexivity|].
  split; [vm_compute; reflexivity|].
  split; [vm_compute; reflexivity | exact Hsub].
Defined.

(** ** Routes that are never served *)

Lemma segmentsOf_hearings strict s :
  s <> "" -> splitOn "/" s = [s] ->
  segmentsOf strict (String.append "/api/hearings/" s)
  = Some ["api"; "hearings"; s].
Proof.
  intros Hs Hsplit. unfold segmentsOf. simpl. rewrite Hsplit.
  apply String.eqb_neq in Hs. destruct strict; simpl; now rewrite ?Hs.
Qed.

(** A path that matches a pattern of three literal segments under
    [/api/hearings] gives it no parameter and also matches
    [/api/hearings/:id]. *)
Lemma captures_shadow caseSensitive literal segments taken :
  sameLiteral caseSensitive literal "" = false ->
  (forall name, literal <> String ":" name) ->
  captures caseSensitive ["api"; "hearings"; literal] segments = Some taken ->
  taken = []
  /\ captures caseSensitive ["api"; "hearings"; ":id"] segments <> None.
Proof.
  intros Hempty Hliteral.
  assert (Hlit : forall c rest,
             captures caseSensitive [literal] (c :: rest)
             = if sameLiteral caseSensitive literal c
               then captures caseSensitive [] rest else None).
  { intros c rest. cbn [captures].
    destruct literal as [|l0 literal']; [reflexivity|].
    destruct (Ascii.eqb_spec l0 ":") as [->|Hl0];
      [exfalso; now apply (Hliteral literal')|].
    destruct l0 as [[|] [|] [|] [|] [|] [|] [|] [|]]; try reflexivity.
    now contradiction Hl0. }
  destruct segments as [|a segments]; [discriminate|].
  change (captures caseSensitive ["api"; "hearings"; literal]
            (a :: segments))
    with (if sameLiteral caseSensitive "api" a
          then captures caseSensitive ["hearings"; literal] segments
          else None).
  change (captures caseSensitive ["api"; "hearings"; ":id"]
            (a :: segments))
    with (if sameLiteral caseSensitive "api" a
          then captures caseSensitive ["hearings"; ":id"] segments
          else None).
  destruct (sameLiteral caseSensitive "api" a); [|discriminate].
  destruct segments as [|b segments]; [discriminate|].
  change (captures caseSensitive ["hearings"; literal] (b :: segments))
    with (if sameLiteral caseSensitive "hearings" b
          then captures caseSensitive [literal] segments
          else None).
  change (captures caseSensitive ["hearings"; ":id"] (b :: segments))
    with (if sameLiteral caseSensitive "hearings" b
          then captures caseSensitive [":id"] segments
          else None).
  destruct (sameLiteral caseSensitive "hearings" b); [|discriminate].
  destruct segments as [|c segments]; [discriminate|].
  rewrite Hlit.
  destruct (sameLiteral caseSensitive literal c) eqn:Ec; [|discriminate].
  destruct segments as [|d segments]; [|discriminate].
  intros [= <-]. split; [reflexivity|]. cbn [captures].
  destruct (String.eqb_spec c "") as [->|Hc]; [congruence|].
  discriminate.
Qed.

Lemma matchRoute_shadow caseSensitive strict method path literal :
  sameLiteral caseSensitive literal "" = false ->
  (forall name, literal <> String ":" name) ->
  segmentsOf true (String.append "/api/hearings/" literal)
  = Some ["api"; "hearings"; literal] ->
  matchRoute caseSensitive strict method path ("GET", "/api/hearings/:id")
  = noMatch ->
  matchRoute caseSensitive strict method path
    ("GET", String.append "/api/hearings/" literal)
  = noMatch.
Proof.
  intros Hempty Hliteral Hpattern. unfold matchRoute, handles.
  cbn [fst snd]. rewrite Hpattern.
  replace (segmentsOf true "/api/hearings/:id")
    with (Some ["api"; "hearings"; ":id"]) by (vm_compute; reflexivity).
  destruct (segmentsOf strict path) as [segments|]; [|reflexivity].
  destruct (captures caseSensitive ["api"; "hearings"; literal] segments)
    as [taken'|] eqn:Elit; [|reflexivity].
  destruct (captures_shadow _ _ _ _ Hempty Hliteral Elit) as [-> Hid].
  destruct (captures caseSensitive ["api"; "hearings"; ":id"] segments)
    as [taken|]; [|congruence].
  cbn [decodeParams].
  destruct (decodeParams taken); [|discriminate].
  destruct (String.eqb "GET" method
            || String.eqb "GET" "GET" && String.eqb method "HEAD");
    [discriminate | reflexivity].
Qed.

(** X13. Express serves a request by the first route registered that
    matches, and [registerRoutes] registers [GET /api/hearings/:id] before
    [GET /api/hearings/upcoming] and [GET /api/hearings/pending-assignment].
    So, whether the application routes case-sensitively or strictly or
    neither, a GET or HEAD of any one segment of ASCII characters under
    [/api/hearings/] goes to the handler of [:id] with the decoded segment
    as the id, or to no handler, Express raising its error of status 400,
    where the segment cannot be decoded, as does a request of any other
    method then; no request at all is served by the two later routes; a
    request for either name is answered by the handler of [:id] with 400
    ("Invalid ID"), whatever the store holds, since [parseInt] reads no
    number from the name; and every other route is the one that serves its
    own path. *)
Theorem upcoming_hearings_are_never_served (caseSensitive strict : bool) :
  (forall method s,
      method = "GET" \/ method = "HEAD" ->
      isAscii s = true -> s <> "" -> splitOn "/" s = [s] ->
      dispatch caseSensitive strict method
        (String.append "/api/hearings/" s)
      = match decodeURIComponent s with
        | Some id => handledBy ("GET", "/api/hearings/:id") [("id", id)]
        | None => paramError
        end)
  /\ (forall method s,
        s <> "" -> splitOn "/" s = [s] -> decodeURIComponent s = None ->
        dispatch caseSensitive strict method
          (String.append "/api/hearings/" s)
        = paramError)
  /\ (forall method path route params,
        dispatch caseSensitive strict method path = handledBy route params ->
        route <> ("GET", "/api/hearings/upcoming")
        /\ route <> ("GET", "/api/hearings/pending-assignment"))
  /\ (decodeURIComponent "upcoming" = Some "upcoming"
      /\ decodeURIComponent "pending-assignment" = Some "pending-assignment"
      /\ forall this,
           getHearingById "upcoming" this = error 400 "Invalid ID"
           /\ getHearingById "pending-assignment" this
              = error 400 "Invalid ID")
  /\ (forall route,
        In route routes ->
        route <> ("GET", "/api/hearings/upcoming") ->
        route <> ("GET", "/api/hearings/pending-assignment") ->
        exists params,
          dispatch caseSensitive strict (fst route) (snd route)
          = handledBy route params).
Proof.
  split.
  { intros method s Hmethod _ Hs Hsplit. unfold dispatch, routes.
    cbn [firstMatch]. unfold matchRoute.
    rewrite (segmentsOf_hearings strict s Hs Hsplit).
    destruct s as [|c s']; [congruence|].
    destruct Hmethod as [-> | ->]; destruct caseSensitive;
      cbv - [decodeURIComponent];
      destruct (decodeURIComponent (String c s')); reflexivity. }
  split.
  { intros method s Hs Hsplit Hnone. unfold dispatch, routes.
    cbn [firstMatch]. unfold matchRoute.
    rewrite (segmentsOf_hearings strict s Hs Hsplit).
    destruct s as [|c s']; [congruence|].
    destruct caseSensitive; cbv - [decodeURIComponent];
      rewrite Hnone; reflexivity. }
  split.
  { intros method path route params. unfold dispatch, routes.
    cbn [firstMatch].
    destruct (matchRoute caseSensitive strict method path
                ("GET", "/api/hearings/:id")) as [| |taken] eqn:Eid.
    - assert (Hup : matchRoute caseSensitive strict method path
                      ("GET", "/api/hearings/upcoming") = noMatch).
      { apply (matchRoute_shadow caseSensitive strict method path
                 "upcoming");
          [destruct caseSensitive; reflexivity | discriminate
          | reflexivity | exact Eid]. }
      assert (Hpa : matchRoute caseSensitive strict method path
                      ("GET", "/api/hearings/pending-assignment") = noMatch).
      { apply (matchRoute_shadow caseSensitive strict method path
                 "pending-assignment");
          [destruct caseSensitive; reflexivity | discriminate
          | reflexivity | exact Eid]. }
      rewrite Hup, Hpa.
      repeat match goal with
             | |- context [matchRoute caseSensitive strict method path ?r] =>
                 destruct (matchRoute caseSensitive strict method path r);
                 [|discriminate|intros [= <- _]; split; discriminate]
             end.
      discriminate.
    - repeat match goal with
             | |- context [matchRoute caseSensitive strict method path ?r] =>
                 destruct (matchRoute caseSensitive strict method path r);
                 [|discriminate|intros [= <- _]; split; discriminate]
             end.
      discriminate.
    - repeat match goal with
             | |- context [matchRoute caseSensitive strict method path ?r] =>
                 destruct (matchRoute caseSensitive strict method path r);
                 [|discriminate|intros [= <- _]; split; discriminate]
             end.
      intros [= <- _]; split; discriminate. }
  split.
  { split; [reflexivity|]. split; [reflexivity|].
    intros this. split; reflexivity. }
  intros route Hin Hup Hpa. unfold routes in Hin.
  destruct caseSensitive, strict;
    repeat (destruct Hin as [<-|Hin];
            [try congruence; eexists; vm_compute; reflexivity|]);
    destruct Hin.
Qed.

(** X13 on the two names and on three escapes: with the default routing
    the requests for both names go to the handler of [:id], which answers 400
    even though the worked store holds a hearing pending assignment; so does
    a request that spells the name with an escape; [%31] reaches the handler
    as the id 1; and [%zz] reaches no handler, whatever the method. *)
Lemma upcoming_hearings_are_never_served_witness :
  dispatch false false "GET" "/api/hearings/upcoming"
  = handledBy ("GET", "/api/hearings/:id") [("id", "upcoming")]
  /\ dispatch false false "HEAD" "/api/hearings/pending-assignment"
     = handledBy ("GET", "/api/hearings/:id") [("id", "pending-assignment")]
  /\ dispatch false false "GET" "/api/hearings/%75pcoming"
     = handledBy ("GET", "/api/hearings/:id") [("id", "upcoming")]
  /\ dispatch false false "GET" "/api/hearings/%31"
     = handledBy ("GET", "/api/hearings/:id") [("id", "1")]
  /\ dispatch false false "GET" "/api/hearings/%zz" = paramError
  /\ dispatch false false "DELETE" "/api/hearings/%zz" = paramError
  /\ dispatch false false "DELETE" "/api/hearings/upcoming"
     = handledBy ("DELETE", "/api/hearings/:id") [("id", "upcoming")]
  /\ getHearingById "pending-assignment" demoStore = error 400 "Invalid ID"
  /\ getHearingById "1" demoStore = json 200 demoHearing
  /\ map Hearing.id (getPendingAssignmentHearings demoStore) = [3].
Proof.
  destruct (upcoming_hearings_are_never_served false false)
    as (Hid & Hnone & _ & (_ & _ & Hanswer) & _).
  split; [exact (Hid "GET" "upcoming" (or_introl eq_refl) eq_refl
                   ltac:(discriminate) eq_refl)|].
  split; [exact (Hid "HEAD" "pending-assignment" (or_intror eq_refl) eq_refl
                   ltac:(discriminate) eq_refl)|].
  split; [exact (Hid "GET" "%75pcoming" (or_introl eq_refl) eq_refl
                   ltac:(discriminate) eq_refl)|].
  split; [exact (Hid "GET" "%31" (or_introl eq_refl) eq_refl
                   ltac:(discriminate) eq_refl)|].
  split; [exact (Hid "GET" "%zz" (or_introl eq_refl) eq_refl
                   ltac:(discriminate) eq_refl)|].
  split; [exact (Hnone "DELETE" "%zz" ltac:(discriminate) eq_refl eq_refl)|].
  split; [vm_compute; reflexivity|].
  split; [apply Hanswer|].
  split; vm_compute; reflexivity.
Defined.

(** ** The dashboard's financial summary *)

Lemma newerFirst_Permutation p l : Permutation (p :: l) (newerFirst p l).
Proof.
  induction l as [|q rest IH]; simpl; [apply Permutation_refl|].
  destruct (Payment.createdAt q <=? Payment.createdAt p);
    [apply Permutation_refl|].
  apply perm_trans with (q :: p :: rest); [apply perm_swap|].
  now apply perm_skip.
Qed.

Lemma sortNewerFirst_Permutation l : Permutation l (sortNewerFirst l).
Proof.
  induction l as [|p rest IH]; simpl; [apply perm_nil|].
  apply perm_trans with (p :: sortNewerFirst rest);
    [now apply perm_skip | apply newerFirst_Permutation].
Qed.

Lemma newerFirst_sorted p l :
  StronglySorted newerOrSame l -> StronglySorted newerOrSame (newerFirst p l).
Proof.
  induction l as [|q rest IH]; simpl; intros S.
  - apply SSorted_cons; [apply SSorted_nil | apply Forall_nil].
  - destruct (Payment.createdAt q <=? Payment.createdAt p) eqn:E.
    + apply Z.leb_le in E. apply SSorted_cons; [assumption|].
      apply StronglySorted_inv in S as [_ Hq].
      apply Forall_cons; [exact E|].
      apply Forall_forall. intros x Hx. unfold newerOrSame in *.
      rewrite Forall_forall in Hq. specialize (Hq x Hx). lia.
    + apply Z.leb_gt in E. apply StronglySorted_inv in S as [S Hq].
      apply SSorted_cons; [now apply IH|].
      apply Forall_forall. intros x Hx.
      apply (Permutation_in _ (Permutation_sym (newerFirst_Permutation p rest)))
        in Hx.
      destruct Hx as [<-|Hx]; [unfold newerOrSame; lia|].
      rewrite Forall_forall in Hq. now apply Hq.
Qed.

Lemma sortNewerFirst_sorted l : StronglySorted newerOrSame (sortNewerFirst l).
Proof.
  induction l as [|p rest IH]; simpl; [apply SSorted_nil|].
  now apply newerFirst_sorted.
Qed.

Lemma sorted_firstn_skipn (A : Type) (R : A -> A -> Prop) n l a b :
  StronglySorted R l -> In a (firstn n l) -> In b (skipn n l) -> R a b.
Proof.
  revert l. induction n as [|n IH]; intros l S Ha Hb; [destruct Ha|].
  destruct l as [|x rest]; [destruct Ha|].
  simpl in Ha, Hb. apply StronglySorted_inv in S as [S Hx].
  destruct Ha as [<-|Ha].
  - rewrite Forall_forall in Hx. apply Hx.
    rewrite <- (firstn_skipn n rest). apply in_or_app. now right.
  - now apply (IH rest).
Qed.

Lemma sorted_firstn (A : Type) (R : A -> A -> Prop) n l :
  StronglySorted R l -> StronglySorted R (firstn n l).
Proof.
  revert l. induction n as [|n IH]; intros l S; [apply SSorted_nil|].
  destruct l as [|x rest]; [apply SSorted_nil|].
  simpl. apply StronglySorted_inv in S as [S Hx].
  apply SSorted_cons; [now apply IH|].
  apply Forall_forall. intros y Hy. rewrite Forall_forall in Hx. apply Hx.
  rewrite <- (firstn_skipn n rest). apply in_or_app. now left.
Qed.

(** [withFullYear] a year back is 365 or 366 days back. *)
Lemma withFullYear_days_back t :
  exists days,
    365 <= days <= 366
    /\ withFullYear t (YearFromTime t - 1) = t - days * msPerDay.
Proof.
  pose proof (withFullYear_year_back t) as Hb.
  set (d := MakeDay (YearFromTime t - 1) (MonthFromTime t) (DateFromTime t)).
  assert (E : withFullYear t (YearFromTime t - 1)
              = t - (Day t - d) * msPerDay).
  { unfold withFullYear. fold d.
    replace d with (Day t + - (Day t - d)) at 1 by lia.
    rewrite MakeDate_shift. lia. }
  exists (Day t - d). split; [|exact E].
  rewrite E in Hb. unfold msPerDay in Hb. lia.
Qed.

(** X14. The payments the dashboard's financial summary shows.  Without
    payment data it shows nothing.  Otherwise it shows at most five payments,
    each one of those fetched and created at or after the cutoff, the newest
    first; a payment at or after the cutoff that is not shown is no newer
    than any that is shown; and when at most five payments are at or after
    the cutoff, all of them are shown.  The cutoff is found on the browser's
    calendar: the instant that the browser's zone gives the local time seven
    days before the clock's local time for ["week"], as many days before it
    as the month before has for ["month"], and 365 or 366 days before it for
    any other period, ["year"] included.  In a zone whose offsets are within
    a day of UTC the last lies between 363 and 368 times 24 hours before the
    clock, and between 365 and 366 where the zone reads it with the offset
    it has at the clock; so the dashboard leaves out a payment older than
    368 days, which the server's summary for ["year"] keeps whatever the
    server's zone. *)
Theorem filterPaymentsByPeriod_shows_newest
  (tz : TimeZone.t) (payments : list Payment.t) (period : string) (now : Z) :
  let shown := filterPaymentsByPeriod tz (Some payments) period now in
  let cutoff := cutoffDate tz period now in
  let local := LocalTime tz now in
  filterPaymentsByPeriod tz None period now = []
  /\ (List.length shown <= 5)%nat
  /\ (forall p,
        In p shown -> In p payments /\ cutoff <= Payment.createdAt p)
  /\ StronglySorted newerOrSame shown
  /\ (forall p q,
        In p payments -> cutoff <= Payment.createdAt p -> ~ In p shown ->
        In q shown -> Payment.createdAt p <= Payment.createdAt q)
  /\ (Nat.le
        (List.length
           (filter (fun p => cutoff <=? Payment.createdAt p) payments))
        5 ->
      Permutation shown
        (filter (fun p => cutoff <=? Payment.createdAt p) payments))
  /\ cutoffDate tz "week" now = UTC tz (local - 7 * msPerDay)
  /\ cutoffDate tz "month" now
     = UTC tz (local - daysOfMonthBefore local * msPerDay)
  /\ (period <> "week" -> period <> "month" ->
      exists days,
        365 <= days <= 366 /\ cutoff = UTC tz (local - days * msPerDay))
  /\ (period <> "week" -> period <> "month" ->
      offsetsWithin msPerDay tz ->
      now - 368 * msPerDay <= cutoff <= now - 363 * msPerDay)
  /\ (period <> "week" -> period <> "month" ->
      (forall local', sameOffset tz now local') ->
      now - 366 * msPerDay <= cutoff <= now - 365 * msPerDay)
  /\ (forall serverZone this p,
        offsetsWithin msPerDay tz ->
        In p (getPayments this) ->
        Payment.createdAt p < now - 368 * msPerDay ->
        In p (filteredPayments (Some "year") serverZone now this)
        /\ ~ In p (filterPaymentsByPeriod tz (Some (getPayments this)) "year"
                     now)).
Proof.
  cbv zeta. unfold filterPaymentsByPeriod.
  set (cutoff := cutoffDate tz period now).
  set (window := filter (fun p => cutoff <=? Payment.createdAt p) payments).
  pose proof (sortNewerFirst_Permutation window) as Hperm.
  pose proof (sortNewerFirst_sorted window) as Hsorted.
  assert (Hwindow : forall p,
             In p (sortNewerFirst window) <->
             In p payments /\ cutoff <= Payment.createdAt p).
  { intros p. split.
    - intros Hin. apply (Permutation_in _ (Permutation_sym Hperm)) in Hin.
      apply filter_In in Hin as [Hin Hle]. apply Z.leb_le in Hle. tauto.
    - intros [Hin Hle]. apply (Permutation_in _ Hperm).
      apply filter_In. split; [assumption | now apply Z.leb_le]. }
  assert (Hyear : forall other,
             other <> "week" -> other <> "month" ->
             exists days,
               365 <= days <= 366
               /\ cutoffDate tz other now
                  = UTC tz (LocalTime tz now - days * msPerDay)).
  { intros other Hw Hm. unfold cutoffDate.
    apply String.eqb_neq in Hw, Hm. rewrite Hw, Hm.
    unfold setFullYear, getFullYear.
    destruct (withFullYear_days_back (LocalTime tz now)) as (days & Hd & E).
    exists days. split; [exact Hd | now rewrite E]. }
  assert (Hbound : forall other,
             other <> "week" -> other <> "month" ->
             offsetsWithin msPerDay tz ->
             now - 368 * msPerDay <= cutoffDate tz other now
             <= now - 363 * msPerDay).
  { intros other Hw Hm Hzone.
    destruct (Hyear other Hw Hm) as (days & Hd & ->).
    destruct (Hzone now) as [Hu _].
    destruct (Hzone (LocalTime tz now - days * msPerDay)) as [_ Hl].
    unfold UTC, LocalTime in *. unfold msPerDay in *. lia. }
  split; [reflexivity|].
  split; [apply firstn_le_length|].
  split.
  { intros p Hin. apply Hwindow.
    rewrite <- (firstn_skipn 5 (sortNewerFirst window)).
    apply in_or_app. now left. }
  split; [now apply sorted_firstn|].
  split.
  { intros p q Hin Hle Hnot Hq.
    assert (Hp : In p (sortNewerFirst window)) by (apply Hwindow; tauto).
    rewrite <- (firstn_skipn 5 (sortNewerFirst window)) in Hp.
    apply in_app_or in Hp as [Hp|Hp]; [contradiction|].
    exact (sorted_firstn_skipn _ newerOrSame 5 _ q p Hsorted Hq Hp). }
  split.
  { intros Hlen. rewrite firstn_all2; [now apply Permutation_sym|].
    now rewrite <- (Permutation_length Hperm). }
  split.
  { assert (E : cutoffDate tz "week" now
                = setDate tz now (getDate tz now - 7)) by reflexivity.
    rewrite E. unfold setDate, getDate.
    replace (DateFromTime (LocalTime tz now) - 7)
      with (DateFromTime (LocalTime tz now) + -7) by lia.
    rewrite withDate_shift. f_equal; lia. }
  split.
  { assert (E : cutoffDate tz "month" now
                = setMonth tz now (getMonth tz now - 1)) by reflexivity.
    rewrite E. unfold setMonth, getMonth. now rewrite withMonth_month_back. }
  split; [apply Hyear|].
  split; [apply Hbound|].
  split.
  { intros Hw Hm Hsame.
    destruct (Hyear period Hw Hm) as (days & Hd & E). fold cutoff in E.
    rewrite E. unfold UTC. rewrite Hsame. unfold LocalTime.
    unfold msPerDay. lia. }
  intros serverZone this p Hzone Hin Hold. split; [exact Hin|].
  intros Hshown.
  assert (Hsorted' :
           In p
             (sortNewerFirst
                (filter
                   (fun payment =>
                      cutoffDate tz "year" now <=? Payment.createdAt payment)
                   (getPayments this)))).
  { rewrite <- (firstn_skipn 5 (sortNewerFirst _)).
    apply in_or_app. left. exact Hshown. }
  clear Hshown. rename Hsorted' into Hshown.
  apply (Permutation_in _ (Permutation_sym
                             (sortNewerFirst_Permutation _))) in Hshown.
  apply filter_In in Hshown as [_ Hle]. apply Z.leb_le in Hle.
  assert (now - 368 * msPerDay <= cutoffDate tz "year" now
          <= now - 363 * msPerDay)
    by (apply Hbound; [discriminate | discriminate | assumption]).
  lia.
Qed.

(** X14 on the three payments of the worked store, created ten days, two
    days and no time before the clock, in a browser in São Paulo: the week
    shows the last two, the newest first, and the year all three; and in a
    browser in Lisbon three days after the clocks went forward, the week's
    cutoff is an hour short of seven times 24 hours. *)
Lemma filterPaymentsByPeriod_shows_newest_witness :
  getPayments windowStore = [tenDaysOld; twoDaysOld; justCreated]
  /\ filterPaymentsByPeriod saoPaulo (Some (getPayments windowStore)) "week"
       demoNow
     = [justCreated; twoDaysOld]
  /\ filterPaymentsByPeriod saoPaulo (Some (getPayments windowStore)) "year"
       demoNow
     = [justCreated; twoDaysOld; tenDaysOld]
  /\ StronglySorted newerOrSame
       (filterPaymentsByPeriod saoPaulo (Some (getPayments windowStore))
          "week" demoNow)
  /\ cutoffDate saoPaulo "week" demoNow = demoNow - 7 * msPerDay
  /\ cutoffDate lisbon2023 "week" afterSpringForward
     = afterSpringForward - 7 * msPerDay + msPerHour
  /\ cutoffDate saoPaulo "year" demoNow = demoNow - 365 * msPerDay.
Proof.
  pose proof (filterPaymentsByPeriod_shows_newest saoPaulo
                (getPayments windowStore) "week" demoNow)
    as (_ & _ & _ & Hsorted & _ & _ & Hweek & _).
  split; [vm_compute; reflexivity|].
  split; [vm_compute; reflexivity|].
  split; [vm_compute; reflexivity|].
  split; [exact Hsorted|].
  split; [rewrite Hweek; vm_compute; reflexivity|].
  split; vm_compute; reflexivity.
Defined.

(** ** The calendar *)

(** A month back and a month forth again on a local time value, and the
    other way round. *)
Lemma withMonth_back_and_forth t :
  let t1 := withMonth t (MonthFromTime t - 1) in
  withMonth t1 (MonthFromTime t1 + 1) = t
  <-> DateFromTime t <= daysOfMonthBefore t.
Proof.
  cbv zeta. rewrite <- monthLength_before.
  pose proof (withMonth_there_and_back t (-1) (or_intror eq_refl)) as H.
  cbv zeta in H.
  replace (MonthFromTime t - 1) with (MonthFromTime t + -1) by lia.
  remember (withMonth t (MonthFromTime t + -1)) as t1 eqn:E1.
  replace (MonthFromTime t1 + 1) with (MonthFromTime t1 - -1) by lia.
  replace (monthIndex t - 1) with (monthIndex t + -1) by lia.
  exact H.
Qed.

Lemma withMonth_forth_and_back t :
  let t1 := withMonth t (MonthFromTime t + 1) in
  withMonth t1 (MonthFromTime t1 - 1) = t
  <-> DateFromTime t <= daysOfMonthAfter t.
Proof.
  cbv zeta. rewrite <- monthLength_after.
  exact (withMonth_there_and_back t 1 (or_introl eq_refl)).
Qed.

Lemma withMonth_month_forth t :
  withMonth t (MonthFromTime t + 1)
  = t + DaysInMonth (MonthFromTime t) (InLeapYear (YearFromTime t))
        * msPerDay.
Proof.
  rewrite withMonth_shift, firstDay_next.
  destruct (Day_in_month t) as [Hd _].
  rewrite <- monthLength_here.
  replace (firstDay (monthIndex t) + monthLength (monthIndex t)
           + DateFromTime t - 1)
    with (Day t + monthLength (monthIndex t)) by lia.
  apply MakeDate_shift.
Qed.

Lemma withDate_back t k : withDate t (DateFromTime t - k) = t - k * msPerDay.
Proof.
  replace (DateFromTime t - k) with (DateFromTime t + - k) by lia.
  rewrite withDate_shift. lia.
Qed.

Lemma daysOfMonthAfter_range t : 28 <= daysOfMonthAfter t <= 31.
Proof. rewrite <- monthLength_after. apply monthLength_range. Qed.

Lemma fixedZone_readsBack offset local : readsBack (fixedZone offset) local.
Proof. unfold readsBack, LocalTime, UTC. simpl. lia. Qed.

Lemma fixedZone_atHome offset t : atHome (fixedZone offset) t.
Proof. unfold atHome, LocalTime, UTC. simpl. lia. Qed.

(** X15. The calendar page's previous and next buttons work on the
    browser's calendar.  In the week view they lead to the instant that the
    browser's zone gives the local time seven days before or after the
    current date's local time, in the day view (any view but month and week)
    one day before or after, and in the month view as many days before as
    the month before has, or as many days after as the current month has.
    On local time, a month back and then forth gives the time back exactly
    when its day of the month is no more than the month before has, and forth
    and then back exactly when it is no more than the month after has; both
    hold up to the 28th.  So previous and then next, or next and then
    previous, lead back to the current date in the week and day views, and
    under that condition in the month view, wherever the zone has the local
    time stepped to and reads the current date's local time as the current
    date.  A zone of fixed offset always does: there the steps are exact
    multiples of 24 hours, and the conditions in the month view are also
    necessary. *)
Theorem calendar_navigation_round_trip
  (tz : TimeZone.t) (view : string) (currentDate : Z) :
  let local := LocalTime tz currentDate in
  let day := DateFromTime local in
  let monthBefore := daysOfMonthBefore local in
  let monthNow :=
    DaysInMonth (MonthFromTime local) (InLeapYear (YearFromTime local)) in
  let monthAfter := daysOfMonthAfter local in
  let step := if String.eqb view "week" then 7 else 1 in
  let prev := navigateToPrev tz in
  let next := navigateToNext tz in
  (view <> "month" ->
   prev view currentDate = UTC tz (local - step * msPerDay)
   /\ next view currentDate = UTC tz (local + step * msPerDay))
  /\ prev "month" currentDate = UTC tz (local - monthBefore * msPerDay)
  /\ next "month" currentDate = UTC tz (local + monthNow * msPerDay)
  /\ (28 <= monthBefore <= 31 /\ 28 <= monthNow <= 31
      /\ 28 <= monthAfter <= 31 /\ 1 <= day <= monthNow)
  /\ (let back := withMonth local (MonthFromTime local - 1) in
      withMonth back (MonthFromTime back + 1) = local <-> day <= monthBefore)
  /\ (let forth := withMonth local (MonthFromTime local + 1) in
      withMonth forth (MonthFromTime forth - 1) = local <-> day <= monthAfter)
  /\ (atHome tz currentDate ->
      (view <> "month" ->
       (readsBack tz (local - step * msPerDay) ->
        next view (prev view currentDate) = currentDate)
       /\ (readsBack tz (local + step * msPerDay) ->
           prev view (next view currentDate) = currentDate))
      /\ (readsBack tz (local - monthBefore * msPerDay) ->
          day <= monthBefore ->
          next "month" (prev "month" currentDate) = currentDate)
      /\ (readsBack tz (local + monthNow * msPerDay) ->
          day <= monthAfter ->
          prev "month" (next "month" currentDate) = currentDate))
  /\ (forall offset,
        tz = fixedZone offset ->
        (view <> "month" ->
         prev view currentDate = currentDate - step * msPerDay
         /\ next view currentDate = currentDate + step * msPerDay
         /\ next view (prev view currentDate) = currentDate
         /\ prev view (next view currentDate) = currentDate)
        /\ prev "month" currentDate = currentDate - monthBefore * msPerDay
        /\ next "month" currentDate = currentDate + monthNow * msPerDay
        /\ (next "month" (prev "month" currentDate) = currentDate
            <-> day <= monthBefore)
        /\ (prev "month" (next "month" currentDate) = currentDate
            <-> day <= monthAfter)
        /\ (day <= 28 ->
            next "month" (prev "month" currentDate) = currentDate
            /\ prev "month" (next "month" currentDate) = currentDate)).
Proof.
  cbv zeta.
  assert (Hpm : forall t,
             navigateToPrev tz "month" t
             = UTC tz
                 (LocalTime tz t
                  - daysOfMonthBefore (LocalTime tz t) * msPerDay)).
  { intros t.
    assert (E : navigateToPrev tz "month" t
                = setMonth tz t (getMonth tz t - 1)) by reflexivity.
    rewrite E. unfold setMonth, getMonth.
    now rewrite withMonth_month_back. }
  assert (Hnm : forall t,
             navigateToNext tz "month" t
             = UTC tz
                 (LocalTime tz t
                  + DaysInMonth (MonthFromTime (LocalTime tz t))
                      (InLeapYear (YearFromTime (LocalTime tz t)))
                    * msPerDay)).
  { intros t.
    assert (E : navigateToNext tz "month" t
                = setMonth tz t (getMonth tz t + 1)) by reflexivity.
    rewrite E. unfold setMonth, getMonth.
    now rewrite withMonth_month_forth. }
  assert (Hstep : forall t,
             view <> "month" ->
             navigateToPrev tz view t
             = UTC tz
                 (LocalTime tz t
                  - (if String.eqb view "week" then 7 else 1) * msPerDay)
             /\ navigateToNext tz view t
                = UTC tz
                    (LocalTime tz t
                     + (if String.eqb view "week" then 7 else 1)
                       * msPerDay)).
  { intros t Hm. unfold navigateToPrev, navigateToNext.
    apply String.eqb_neq in Hm. rewrite Hm.
    unfold setDate, getDate.
    destruct (String.eqb view "week");
      rewrite withDate_back, withDate_shift; split; reflexivity. }
  set (local := LocalTime tz currentDate) in *.
  pose proof (daysOfMonthBefore_range local) as Hb.
  pose proof (daysOfMonthAfter_range local) as Ha.
  pose proof (DateFromTime_range local) as Hd.
  pose proof (monthLength_range (monthIndex local)) as Hn.
  rewrite monthLength_here in Hn.
  pose proof (withMonth_back_and_forth local) as Hlb. cbv zeta in Hlb.
  pose proof (withMonth_forth_and_back local) as Hlf. cbv zeta in Hlf.
  assert (Hback : readsBack tz (local - daysOfMonthBefore local * msPerDay) ->
                  navigateToNext tz "month"
                    (navigateToPrev tz "month" currentDate)
                  = UTC tz
                      (withMonth
                         (withMonth local (MonthFromTime local - 1))
                         (MonthFromTime
                            (withMonth local (MonthFromTime local - 1))
                          + 1))).
  { intros Hr. rewrite (Hpm currentDate). fold local.
    assert (E : forall t,
               navigateToNext tz "month" t
               = setMonth tz t (getMonth tz t + 1)) by reflexivity.
    rewrite E. unfold setMonth, getMonth. unfold readsBack in Hr.
    rewrite Hr. now rewrite withMonth_month_back. }
  assert (Hforth : readsBack tz
                     (local
                      + DaysInMonth (MonthFromTime local)
                          (InLeapYear (YearFromTime local))
                        * msPerDay) ->
                   navigateToPrev tz "month"
                     (navigateToNext tz "month" currentDate)
                   = UTC tz
                       (withMonth
                          (withMonth local (MonthFromTime local + 1))
                          (MonthFromTime
                             (withMonth local (MonthFromTime local + 1))
                           - 1))).
  { intros Hr. rewrite (Hnm currentDate). fold local.
    assert (E : forall t,
               navigateToPrev tz "month" t
               = setMonth tz t (getMonth tz t - 1)) by reflexivity.
    rewrite E. unfold setMonth, getMonth. unfold readsBack in Hr.
    rewrite Hr. now rewrite withMonth_month_forth. }
  assert (Hsteps : atHome tz currentDate ->
                   view <> "month" ->
                   (readsBack tz
                      (local
                       - (if String.eqb view "week" then 7 else 1)
                         * msPerDay) ->
                    navigateToNext tz view (navigateToPrev tz view currentDate)
                    = currentDate)
                   /\ (readsBack tz
                         (local
                          + (if String.eqb view "week" then 7 else 1)
                            * msPerDay) ->
                       navigateToPrev tz view
                         (navigateToNext tz view currentDate)
                       = currentDate)).
  { intros Hhome Hm. unfold atHome in Hhome. fold local in Hhome.
    destruct (Hstep currentDate Hm) as [Ep En]. fold local in Ep, En.
    set (step := if String.eqb view "week" then 7 else 1) in *.
    split; intros Hr; unfold readsBack in Hr.
    - rewrite Ep.
      destruct (Hstep (UTC tz (local - step * msPerDay)) Hm) as [_ ->].
      rewrite Hr.
      replace (local - step * msPerDay + step * msPerDay) with local
        by ring.
      exact Hhome.
    - rewrite En.
      destruct (Hstep (UTC tz (local + step * msPerDay)) Hm) as [-> _].
      rewrite Hr.
      replace (local + step * msPerDay - step * msPerDay) with local
        by ring.
      exact Hhome. }
  split; [intros Hm; apply (Hstep currentDate Hm)|].
  split; [apply Hpm|].
  split; [apply Hnm|].
  split; [lia|].
  split; [exact Hlb|].
  split; [exact Hlf|].
  split.
  { intros Hhome.
    split; [apply Hsteps; assumption|].
    unfold atHome in Hhome. fold local in Hhome.
    split.
    - intros Hr Hday. rewrite (Hback Hr).
      rewrite (proj2 Hlb Hday). exact Hhome.
    - intros Hr Hday. rewrite (Hforth Hr).
      rewrite (proj2 Hlf Hday). exact Hhome. }
  intros offset Etz.
  assert (Hhome : atHome tz currentDate)
    by (rewrite Etz; apply fixedZone_atHome).
  assert (Hreads : forall l, readsBack tz l)
    by (intros l; rewrite Etz; apply fixedZone_readsBack).
  assert (Hutc : forall l, UTC tz l = l - offset)
    by (intros l; rewrite Etz; reflexivity).
  assert (Hlocal : local = currentDate + offset)
    by (unfold local; rewrite Etz; reflexivity).
  assert (Hbi : navigateToNext tz "month"
                  (navigateToPrev tz "month" currentDate)
                = currentDate
                <-> DateFromTime local <= daysOfMonthBefore local).
  { rewrite (Hback (Hreads _)), Hutc. rewrite <- Hlb. lia. }
  assert (Hfi : navigateToPrev tz "month"
                  (navigateToNext tz "month" currentDate)
                = currentDate
                <-> DateFromTime local <= daysOfMonthAfter local).
  { rewrite (Hforth (Hreads _)), Hutc. rewrite <- Hlf. lia. }
  split.
  { intros Hm. destruct (Hstep currentDate Hm) as [Ep En].
    fold local in Ep, En. rewrite Hutc in Ep, En.
    destruct (Hsteps Hhome Hm) as [H1 H2].
    split; [rewrite Ep; lia|]. split; [rewrite En; lia|].
    split; [apply H1 | apply H2]; apply Hreads. }
  split; [rewrite (Hpm currentDate); fold local; rewrite Hutc; lia|].
  split; [rewrite (Hnm currentDate); fold local; rewrite Hutc; lia|].
  split; [exact Hbi|].
  split; [exact Hfi|].
  intros H28. split; [apply Hbi | apply Hfi]; lia.
Qed.

(** X15 on three dates.  In São Paulo, from 10 June 2023 previous and
    next lead back to 10 June; from 31 March 2024 previous leads to 2 March,
    February having 29 days, and next from there to 2 April.  In Lisbon,
    from noon UTC of 29 March 2023, three days after the clocks went forward,
    the week's previous button leads an hour less than seven times 24 hours
    back, to the same time of day, and next leads back from there. *)
Lemma calendar_navigation_round_trip_witness :
  navigateToNext saoPaulo "month" (navigateToPrev saoPaulo "month" demoNow)
  = demoNow
  /\ DateFromTime (LocalTime saoPaulo 1711886400000) = 31
  /\ daysOfMonthBefore (LocalTime saoPaulo 1711886400000) = 29
  /\ navigateToNext saoPaulo "month"
       (navigateToPrev saoPaulo "month" 1711886400000)
     <> 1711886400000
  /\ navigateToNext saoPaulo "month"
       (navigateToPrev saoPaulo "month" 1711886400000)
     = 1711886400000 + 2 * msPerDay
  /\ navigateToPrev lisbon2023 "week" afterSpringForward
     = afterSpringForward - 7 * msPerDay + msPerHour
  /\ navigateToNext lisbon2023 "week"
       (navigateToPrev lisbon2023 "week" afterSpringForward)
     = afterSpringForward.
Proof.
  pose proof (calendar_navigation_round_trip saoPaulo "month" demoNow)
    as (_ & _ & _ & _ & _ & _ & _ & Hjune).
  pose proof (calendar_navigation_round_trip saoPaulo "month" 1711886400000)
    as (_ & _ & _ & _ & _ & _ & _ & Hmarch).
  pose proof (calendar_navigation_round_trip lisbon2023 "week"
                afterSpringForward)
    as (_ & _ & _ & _ & _ & _ & Hweek & _).
  destruct (Hjune _ eq_refl) as (_ & _ & _ & Hj & _).
  destruct (Hmarch _ eq_refl) as (_ & _ & _ & Hm & _).
  split; [apply Hj; vm_compute; discriminate|].
  split; [vm_compute; reflexivity|].
  split; [vm_compute; reflexivity|].
  split.
  { intros Hback. apply Hm in Hback. vm_compute in Hback. now apply Hback. }
  split; [vm_compute; reflexivity|].
  split; [vm_compute; reflexivity|].
  assert (Hhome : atHome lisbon2023 afterSpringForward)
    by (vm_compute; reflexivity).
  destruct (Hweek Hhome) as (Hsteps & _).
  destruct Hsteps as [Hround _]; [discriminate|].
  apply Hround. vm_compute. reflexivity.
Defined.

(** ** The totals of the payments page *)

(** X16. The totals of the payments page are the server's financial
    summary whenever the summary's window keeps every stored payment, as it
    does for every period but ["week"] and ["month"]: [total], [pending] and
    [paid] are then the same binary64 sums, added in the same order.  The
    page adds a fourth sum, over the payments in processing, that the
    summary does not have, and shows zeros while the query has no data. *)
Theorem calculateTotals_agrees_with_summary
  (period : option string) (tz : TimeZone.t) (now : Z) (this : store) :
  filteredPayments period tz now this = getPayments this ->
  let totals := calculateTotals (Some (getPayments this)) in
  let summary := getFinancialSummary period tz now this in
  Totals.total totals = FinancialSummary.total summary
  /\ Totals.pending totals = FinancialSummary.pending summary
  /\ Totals.paid totals = FinancialSummary.paid summary
  /\ Totals.processing totals
     = fold_left PrimFloat.add
         (map Payment.amount
            (filter (hasStatus "processing") (getPayments this)))
         0%float
  /\ (forall other,
        other <> "week" -> other <> "month" ->
        filteredPayments (Some other) tz now this = getPayments this)
  /\ calculateTotals None = Totals.mk 0%float 0%float 0%float 0%float.
Proof.
  intros Hall. cbv zeta. unfold getFinancialSummary, calculateTotals.
  cbv zeta. rewrite Hall.
  cbn [Totals.total Totals.pending Totals.paid Totals.processing
       FinancialSummary.total FinancialSummary.pending FinancialSummary.paid].
  split; [reflexivity|]. split; [reflexivity|]. split; [reflexivity|].
  split; [apply sumAmounts_fold|].
  split; [|reflexivity].
  intros other Hw Hm. unfold filteredPayments.
  apply String.eqb_neq in Hw, Hm. now rewrite Hw, Hm.
Qed.

(** X16 on the three payments of the worked store: for the year the page
    and the summary agree; for the week the summary leaves out the payment
    that is ten days old, and its total is smaller than the page's. *)
Lemma calculateTotals_agrees_with_summary_witness :
  Totals.total (calculateTotals (Some (getPayments windowStore)))
  = FinancialSummary.total
      (getFinancialSummary (Some "year") saoPaulo demoNow windowStore)
  /\ calculateTotals (Some (getPayments windowStore))
     = Totals.mk 390.5%float 250.5%float 0%float 140%float
  /\ FinancialSummary.total
       (getFinancialSummary (Some "week") saoPaulo demoNow windowStore)
     = 290.5%float.
Proof.
  destruct (calculateTotals_agrees_with_summary (Some "year") saoPaulo
              demoNow windowStore eq_refl) as (Htotal & _).
  split; [exact Htotal|]. split; vm_compute; reflexivity.
Defined.

(** ** The rankings of the reports page *)

Lemma insertDescending_Permutation (A : Type) (key : A -> Z) x l :
  Permutation (x :: l) (insertDescending key x l).
Proof.
  induction l as [|y rest IH]; simpl; [apply Permutation_refl|].
  destruct (key y <=? key x); [apply Permutation_refl|].
  apply perm_trans with (y :: x :: rest); [apply perm_swap|].
  now apply perm_skip.
Qed.

Lemma sortDescending_Permutation (A : Type) (key : A -> Z) l :
  Permutation l (sortDescending key l).
Proof.
  induction l as [|x rest IH]; simpl; [apply perm_nil|].
  apply perm_trans with (x :: sortDescending key rest);
    [now apply perm_skip | apply insertDescending_Permutation].
Qed.

Lemma insertDescending_sorted (A : Type) (key : A -> Z) x l :
  StronglySorted (descending key) l ->
  StronglySorted (descending key) (insertDescending key x l).
Proof.
  induction l as [|y rest IH]; simpl; intros S.
  - apply SSorted_cons; [apply SSorted_nil | apply Forall_nil].
  - destruct (key y <=? key x) eqn:E.
    + apply Z.leb_le in E. apply SSorted_cons; [assumption|].
      apply StronglySorted_inv in S as [_ Hy].
      apply Forall_cons; [exact E|].
      apply Forall_forall. intros z Hz. unfold descending in *.
      rewrite Forall_forall in Hy. specialize (Hy z Hz). lia.
    + apply Z.leb_gt in E. apply StronglySorted_inv in S as [S Hy].
      apply SSorted_cons; [now apply IH|].
      apply Forall_forall. intros z Hz.
      apply (Permutation_in _
               (Permutation_sym (insertDescending_Permutation _ key x rest)))
        in Hz.
      destruct Hz as [<-|Hz]; [unfold descending; lia|].
      rewrite Forall_forall in Hy. now apply Hy.
Qed.

Lemma sortDescending_sorted (A : Type) (key : A -> Z) l :
  StronglySorted (descending key) (sortDescending key l).
Proof.
  induction l as [|x rest IH]; simpl; [apply SSorted_nil|].
  now apply insertDescending_sorted.
Qed.

(** The first [n] rows of a descending sort: at most [n] in number, rows
    of the list, in descending order, no smaller than any row left out, and
    all the rows when there are no more than [n]. *)
Lemma top_rows (A : Type) (key : A -> Z) (n : nat) (l : list A) :
  let top := firstn n (sortDescending key l) in
  Nat.le (List.length top) n
  /\ (forall x, In x top -> In x l)
  /\ StronglySorted (descending key) top
  /\ (forall x y, In x l -> ~ In x top -> In y top -> key x <= key y)
  /\ (Nat.le (List.length l) n -> Permutation top l).
Proof.
  cbv zeta.
  pose proof (sortDescending_Permutation _ key l) as Hperm.
  pose proof (sortDescending_sorted _ key l) as Hsorted.
  split; [apply firstn_le_length|].
  split.
  { intros x Hin. apply (Permutation_in _ (Permutation_sym Hperm)).
    rewrite <- (firstn_skipn n (sortDescending key l)).
    apply in_or_app. now left. }
  split; [now apply sorted_firstn|].
  split.
  { intros x y Hin Hnot Hy.
    apply (Permutation_in _ Hperm) in Hin.
    rewrite <- (firstn_skipn n (sortDescending key l)) in Hin.
    apply in_app_or in Hin as [Hin|Hin]; [contradiction|].
    exact (sorted_firstn_skipn _ (descending key) n _ y x Hsorted Hy Hin). }
  intros Hlen. rewrite firstn_all2; [now apply Permutation_sym|].
  now rewrite <- (Permutation_length Hperm).
Qed.

(** Each hearing is counted for the one row it names, when the rows have
    ids of their own. *)
Lemma sum_of_counts (A : Type) (id : A -> Z) (ref : Hearing.t -> Z -> bool)
  (rows : list A) (hearings : list Hearing.t) :
  NoDup (map id rows) ->
  (forall h i j, ref h i = true -> ref h j = true -> i = j) ->
  sumZ (map (fun r => countIf (fun h => ref h (id r)) hearings) rows)
  = countIf (fun h => existsb (fun r => ref h (id r)) rows) hearings.
Proof.
  intros Hnd Hone.
  induction rows as [|r rest IH]; simpl.
  - unfold countIf. rewrite filter_nothing; [reflexivity | reflexivity].
  - inversion Hnd as [|? ? Hnotin Hnd']; subst.
    rewrite (IH Hnd'). clear IH.
    induction hearings as [|h hs IHh]; [reflexivity|].
    rewrite !countIf_cons, <- IHh.
    assert (Hexcl : ref h (id r) = true ->
                    existsb (fun r0 => ref h (id r0)) rest = false).
    { intros Hr. destruct (existsb _ rest) eqn:E; [|reflexivity].
      apply existsb_exists in E as (r' & Hin & Hr').
      exfalso. apply Hnotin. rewrite (Hone h _ _ Hr Hr').
      now apply in_map. }
    cbn [existsb].
    destruct (ref h (id r)) eqn:Er; cbn [orb].
    + rewrite (Hexcl eq_refl). unfold indicator. lia.
    + destruct (existsb _ rest); unfold indicator; lia.
Qed.

Lemma filed_ids (V : Type) (idOf : V -> Z) c (m : JsMap.t V) :
  filed idOf c m -> map idOf (JsMap.values m) = JsMap.keys m.
Proof.
  intros (_ & _ & F). unfold JsMap.values, JsMap.keys.
  induction m as [|[k v] rest IH]; simpl; [reflexivity|].
  rewrite IH by (intros k' v' Hin; apply F; now right).
  f_equal. apply (F k v). now left.
Qed.

(** A professional's total counts the hearings that name the professional
    and are assigned or completed. *)
Lemma professionalActivity_total hearings pro :
  ProfessionalActivity.total (professionalActivity hearings pro)
  = countIf
      (fun h =>
         same_id (Hearing.professionalId h) (Professional.id pro)
         && (same_string (Hearing.status h) (Some "completed")
             || same_string (Hearing.status h) (Some "assigned")))
      hearings.
Proof.
  unfold professionalActivity. cbn [ProfessionalActivity.total].
  induction hearings as [|h hs IH]; [reflexivity|].
  rewrite !countIf_cons, <- IH. unfold worksOn.
  destruct (same_id (Hearing.professionalId h) (Professional.id pro));
    cbn [andb]; [|unfold indicator; lia].
  destruct (same_string (Hearing.status h) (Some "completed")) eqn:Ec,
    (same_string (Hearing.status h) (Some "assigned")) eqn:Ea;
    cbn [orb]; unfold indicator; try lia.
  apply same_string_true in Ec, Ea. congruence.
Qed.

(** X17. The two rankings of the reports page.  Each is empty while a
    query has no data.  The professionals' ranking shows at most ten rows and
    the jurisdictions' at most five; every row is the row of a fetched
    professional or jurisdiction; the rows stand in descending order of their
    total or count; a professional or jurisdiction whose row is not shown has
    no larger a total or count than any row shown; and with no more than ten
    professionals, or five jurisdictions, every row is shown.  A
    professional's total counts the hearings that name the professional and
    are assigned or completed, so a pending or cancelled hearing counts for
    nobody.  When the ids are distinct, as they are in a well-filed store,
    the counts of all jurisdictions add up to the number of hearings held in
    a jurisdiction that is fetched, so the hearings of a deleted jurisdiction
    are in no count; likewise the totals of all professionals. *)
Theorem reports_rank_activity
  (hearings : list Hearing.t) (professionals : list Professional.t)
  (jurisdictions : list Jurisdiction.t) :
  let byProfessional :=
    prepareProfessionalActivityData (Some hearings) (Some professionals) in
  let byJurisdiction :=
    prepareJurisdictionActivityData (Some hearings) (Some jurisdictions) in
  (prepareProfessionalActivityData None (Some professionals) = []
   /\ prepareProfessionalActivityData (Some hearings) None = []
   /\ prepareJurisdictionActivityData None (Some jurisdictions) = []
   /\ prepareJurisdictionActivityData (Some hearings) None = [])
  /\ (Nat.le (List.length byProfessional) 10
      /\ (forall row,
            In row byProfessional ->
            exists pro,
              In pro professionals
              /\ row = professionalActivity hearings pro)
      /\ StronglySorted (descending ProfessionalActivity.total) byProfessional
      /\ (forall pro row,
            In pro professionals ->
            ~ In (professionalActivity hearings pro) byProfessional ->
            In row byProfessional ->
            ProfessionalActivity.total (professionalActivity hearings pro)
            <= ProfessionalActivity.total row)
      /\ (Nat.le (List.length professionals) 10 ->
          Permutation byProfessional
            (map (professionalActivity hearings) professionals)))
  /\ (Nat.le (List.length byJurisdiction) 5
      /\ (forall row,
            In row byJurisdiction ->
            exists jur,
              In jur jurisdictions
              /\ row = jurisdictionActivity hearings jur)
      /\ StronglySorted (descending JurisdictionActivity.count) byJurisdiction
      /\ (forall jur row,
            In jur jurisdictions ->
            ~ In (jurisdictionActivity hearings jur) byJurisdiction ->
            In row byJurisdiction ->
            JurisdictionActivity.count (jurisdictionActivity hearings jur)
            <= JurisdictionActivity.count row)
      /\ (Nat.le (List.length jurisdictions) 5 ->
          Permutation byJurisdiction
            (map (jurisdictionActivity hearings) jurisdictions)))
  /\ (forall pro,
        ProfessionalActivity.total (professionalActivity hearings pro)
        = countIf
            (fun h =>
               same_id (Hearing.professionalId h) (Professional.id pro)
               && (same_string (Hearing.status h) (Some "completed")
                   || same_string (Hearing.status h) (Some "assigned")))
            hearings)
  /\ (NoDup (map Professional.id professionals) ->
      sumZ
        (map
           (fun pro =>
              ProfessionalActivity.total (professionalActivity hearings pro))
           professionals)
      = countIf
          (fun h =>
             existsb
               (fun pro =>
                  same_id (Hearing.professionalId h) (Professional.id pro)
                  && (same_string (Hearing.status h) (Some "completed")
                      || same_string (Hearing.status h) (Some "assigned")))
               professionals)
          hearings)
  /\ (NoDup (map Jurisdiction.id jurisdictions) ->
      sumZ
        (map
           (fun jur =>
              JurisdictionActivity.count (jurisdictionActivity hearings jur))
           jurisdictions)
      = countIf (fun h => existsb (fun jur => heldIn jur h) jurisdictions)
          hearings)
  /\ (forall this,
        wellFiled this ->
        NoDup (map Professional.id (getProfessionals this))
        /\ NoDup (map Jurisdiction.id (getJurisdictions this))).
Proof.
  cbv zeta.
  split; [repeat split|].
  split.
  { unfold prepareProfessionalActivityData.
    destruct (top_rows _ ProfessionalActivity.total 10
                (map (professionalActivity hearings) professionals))
      as (Hlen & Hin & Hsorted & Hbest & Hall).
    split; [exact Hlen|].
    split.
    { intros row Hrow. apply Hin in Hrow.
      apply in_map_iff in Hrow as (pro & <- & Hpro). now exists pro. }
    split; [exact Hsorted|].
    split.
    { intros pro row Hpro Hnot Hrow.
      apply Hbest; [now apply in_map | assumption | assumption]. }
    intros Hn. apply Hall. now rewrite length_map. }
  split.
  { unfold prepareJurisdictionActivityData.
    destruct (top_rows _ JurisdictionActivity.count 5
                (map (jurisdictionActivity hearings) jurisdictions))
      as (Hlen & Hin & Hsorted & Hbest & Hall).
    split; [exact Hlen|].
    split.
    { intros row Hrow. apply Hin in Hrow.
      apply in_map_iff in Hrow as (jur & <- & Hjur). now exists jur. }
    split; [exact Hsorted|].
    split.
    { intros jur row Hjur Hnot Hrow.
      apply Hbest; [now apply in_map | assumption | assumption]. }
    intros Hn. apply Hall. now rewrite length_map. }
  split; [apply professionalActivity_total|].
  split.
  { intros Hnd.
    rewrite (map_ext _ _ (professionalActivity_total hearings)).
    apply (sum_of_counts _ Professional.id
             (fun h i =>
                same_id (Hearing.professionalId h) i
                && (same_string (Hearing.status h) (Some "completed")
                    || same_string (Hearing.status h) (Some "assigned")))
             professionals hearings Hnd).
    intros h i j Hi Hj.
    apply andb_true_iff in Hi as [Hi _]. apply andb_true_iff in Hj as [Hj _].
    unfold same_id in *. destruct (Hearing.professionalId h); [|discriminate].
    apply Z.eqb_eq in Hi, Hj. congruence. }
  split.
  { intros Hnd.
    apply (sum_of_counts _ Jurisdiction.id
             (fun h i => Hearing.jurisdictionId h =? i)
             jurisdictions hearings Hnd).
    intros h i j Hi Hj. apply Z.eqb_eq in Hi, Hj. congruence. }
  intros this (_ & Fp & Fj & _). unfold getProfessionals, getJurisdictions.
  rewrite (filed_ids _ _ _ _ Fp), (filed_ids _ _ _ _ Fj).
  split; [apply Fp | apply Fj].
Qed.

(** X17 on the worked store: its three hearings are held in jurisdictions
    1, 2 and 3; once jurisdiction 1 is deleted, the counts of the
    jurisdictions that are left add up to two. *)
Lemma reports_rank_activity_witness :
  List.length (getHearings demoStore) = 3%nat
  /\ sumZ
       (map
          (fun jur =>
             JurisdictionActivity.count
               (jurisdictionActivity (getHearings demoStore) jur))
          (getJurisdictions (fst (deleteJurisdiction 1 demoStore))))
     = 2
  /\ map JurisdictionActivity.count
       (prepareJurisdictionActivityData (Some (getHearings demoStore))
          (Some (getJurisdictions (fst (deleteJurisdiction 1 demoStore)))))
     = [1; 1; 0; 0].
Proof.
  destruct (reports_rank_activity (getHearings demoStore)
              (getProfessionals demoStore)
              (getJurisdictions (fst (deleteJurisdiction 1 demoStore))))
    as (_ & _ & _ & _ & _ & Hsum & _).
  split; [vm_compute; reflexivity|].
  split; [|vm_compute; reflexivity].
  rewrite Hsum; [vm_compute; reflexivity|].
  vm_compute. repeat (apply NoDup_cons; [simpl; intuition discriminate|]).
  apply NoDup_nil.
Defined.
